(** * CodeParser: the function-boundary locator of src/codeParser.ts

    A shallow embedding of [CodeParser] (findFunctionAtPosition and the
    private matchers, body collectors and documentation finders it calls),
    followed by the properties of the locator.

    Conventions of the embedding.
    - A JavaScript string is a list of code units ([N]); [lit] turns a Rocq
      string literal into one.  Nothing below depends on code units being
      smaller than 2^16.
    - Line numbers are [nat]: they are non-negative array indices in the
      source, and [Math.max(0, currentLine - k)] is truncated subtraction.
    - [braceCount], [defIndent] and [lineIndent] are [Z], as the source
      compares them with [0] and [-1].
    - A call either returns or throws: [outcome].  [null] and [undefined]
      results are [None]. *)

From Stdlib Require Import Ascii String.
From Stdlib Require Import List ZArith NArith Bool Lia Arith.
Import ListNotations.

Set Implicit Arguments.

(** ** Strings *)

Definition char := N.
Definition jsstring := list char.

Definition lit (s : string) : jsstring :=
  map N_of_ascii (list_ascii_of_string s).

(** The code units the source names. *)
Definition NL : char := 10%N.        (* '\n' *)
Definition LBRACE : char := 123%N.   (* '{' *)
Definition RBRACE : char := 125%N.   (* '}' *)

(** ECMAScript WhiteSpace and LineTerminator: what [\s] matches and what
    [String.prototype.trim] removes. *)
Definition isWhiteSpace (c : char) : bool :=
  ((9 <=? c) && (c <=? 13) || (c =? 32) || (c =? 160) || (c =? 5760)
   || (8192 <=? c) && (c <=? 8202) || (c =? 8232) || (c =? 8233)
   || (c =? 8239) || (c =? 8287) || (c =? 12288) || (c =? 65279))%N.

(** [.] without the [s] flag: anything but a line terminator. *)
Definition isLineTerminator (c : char) : bool :=
  ((c =? 10) || (c =? 13) || (c =? 8232) || (c =? 8233))%N.

Fixpoint trimStart (s : jsstring) : jsstring :=
  match s with
  | c :: r => if isWhiteSpace c then trimStart r else s
  | [] => []
  end.

Definition trimEnd (s : jsstring) : jsstring := rev (trimStart (rev s)).

Definition trim (s : jsstring) : jsstring := trimEnd (trimStart s).

Fixpoint jsstring_eqb (a b : jsstring) : bool :=
  match a, b with
  | [], [] => true
  | x :: a', y :: b' => (x =? y)%N && jsstring_eqb a' b'
  | _, _ => false
  end.

Fixpoint startsWith (p s : jsstring) : bool :=
  match p, s with
  | [], _ => true
  | x :: p', y :: s' => (x =? y)%N && startsWith p' s'
  | _ :: _, [] => false
  end.

Definition endsWith (p s : jsstring) : bool := startsWith (rev p) (rev s).

(** [s.includes(c)] for a one-character needle. *)
Definition includes (c : char) (s : jsstring) : bool := existsb (N.eqb c) s.

(** [s.search(/\S/)]: index of the first non-whitespace code unit, or -1. *)
Fixpoint searchNonSpaceFrom (s : jsstring) (i : Z) : Z :=
  match s with
  | [] => (-1)%Z
  | c :: r => if isWhiteSpace c then searchNonSpaceFrom r (i + 1)%Z else i
  end.

Definition searchNonSpace (s : jsstring) : Z := searchNonSpaceFrom s 0%Z.

(** [text.split('\n')]: never empty, one more piece than there are newlines. *)
Fixpoint splitLines (text : jsstring) : list jsstring :=
  match text with
  | [] => [[]]
  | c :: r =>
      let rest := splitLines r in
      if (c =? NL)%N then [] :: rest
      else (c :: hd [] rest) :: tl rest
  end.

(** [parts.join('\n')]. *)
Fixpoint joinLines (parts : list jsstring) : jsstring :=
  match parts with
  | [] => []
  | [p] => p
  | p :: ps => p ++ NL :: joinLines ps
  end.

(** ** Regular expressions

    The patterns of the source are regular-expression literals.  They are
    embedded as syntax trees and run by a backtracking matcher with the
    priorities of ECMAScript: alternatives left to right, greedy
    quantifiers longest first, lazy ones shortest first, and [exec]
    returning the match at the leftmost starting index. *)

Inductive regex : Type :=
| Empty                                  (* matches the empty string *)
| Bol                                    (* ^ *)
| Class (p : char -> bool)               (* one code unit satisfying p *)
| Cat (r1 r2 : regex)                    (* r1 r2 *)
| Alt (r1 r2 : regex)                    (* r1|r2 *)
| Star (greedy : bool) (r : regex)       (* r* or r*? *)
| Group (n : nat) (r : regex).           (* the n-th capturing group *)

(** Captures: group number to captured text, most recent first. *)
Definition captures := list (nat * jsstring).

Fixpoint capture (m : captures) (n : nat) : option jsstring :=
  match m with
  | [] => None
  | (k, s) :: m' => if Nat.eqb k n then Some s else capture m' n
  end.

Definition orElse {A} (x : option A) (y : unit -> option A) : option A :=
  match x with
  | Some a => Some a
  | None => y tt
  end.

(** A matcher in continuation-passing style: it consumes a prefix of the
    text and hands what is left, with the captures, to its continuation. *)
Definition matcher : Type :=
  jsstring -> captures -> (jsstring -> captures -> option captures) -> option captures.

(** The quantifier [*] (greedy) or [*?] (lazy) over the matcher [once] of its
    operand.  An iteration that consumes nothing is rejected, so [fuel], the
    length of the text, bounds the number of iterations. *)
Fixpoint iterate (once : matcher) (greedy : bool)
    (k : jsstring -> captures -> option captures)
    (fuel : nat) (rest : jsstring) (caps : captures) : option captures :=
  let again (_ : unit) :=
    match fuel with
    | O => None
    | S fuel' =>
        once rest caps
          (fun rest' caps' =>
             if Nat.ltb (length rest') (length rest)
             then iterate once greedy k fuel' rest' caps' else None)
    end in
  if greedy then orElse (again tt) (fun _ => k rest caps)
  else orElse (k rest caps) again.

(** [matchAt r input rest caps k]: match [r] against a prefix of [rest]
    (a suffix of [input]) and hand what is left to the continuation [k]. *)
Fixpoint matchAt (r : regex) (input rest : jsstring) (caps : captures)
    (k : jsstring -> captures -> option captures) {struct r} : option captures :=
  match r with
  | Empty => k rest caps
  | Bol => if Nat.eqb (length rest) (length input) then k rest caps else None
  | Class p =>
      match rest with
      | c :: rest' => if p c then k rest' caps else None
      | [] => None
      end
  | Cat r1 r2 =>
      matchAt r1 input rest caps (fun rest' caps' => matchAt r2 input rest' caps' k)
  | Alt r1 r2 =>
      orElse (matchAt r1 input rest caps k) (fun _ => matchAt r2 input rest caps k)
  | Star greedy r1 =>
      iterate (fun rest' caps' k' => matchAt r1 input rest' caps' k') greedy k
        (length rest) rest caps
  | Group n r1 =>
      matchAt r1 input rest caps
        (fun rest' caps' =>
           k rest' ((n, firstn (length rest - length rest') rest) :: caps'))
  end.

(** Try every starting index from the left. *)
Fixpoint execFrom (r : regex) (input rest : jsstring) : option captures :=
  match matchAt r input rest [] (fun _ caps => Some caps) with
  | Some caps => Some caps
  | None =>
      match rest with
      | [] => None
      | _ :: rest' => execFrom r input rest'
      end
  end.

(** [pattern.exec(s)] with [lastIndex] at 0: the captures of the leftmost
    match, or [None] for [null]. *)
Definition exec (r : regex) (s : jsstring) : option captures := execFrom r s s.

(** Regex syntax: sequences, literals, quantifiers and classes. *)
Declare Scope regex_scope.
Delimit Scope regex_scope with re.
Bind Scope regex_scope with regex.
Infix "+>" := Cat (at level 40, left associativity) : regex_scope.
Infix "|||" := Alt (at level 50, left associativity) : regex_scope.

Definition chr (a : ascii) : regex := Class (N.eqb (N_of_ascii a)).
Definition notChr (a : ascii) : regex := Class (fun c => negb (N.eqb (N_of_ascii a) c)).

Fixpoint word (s : string) : regex :=
  match s with
  | EmptyString => Empty
  | String a EmptyString => chr a
  | String a s' => Cat (chr a) (word s')
  end.

Definition many (r : regex) : regex := Star true r.            (* r*  *)
Definition manyLazy (r : regex) : regex := Star false r.       (* r*? *)
Definition some (r : regex) : regex := Cat r (Star true r).    (* r+  *)
Definition maybe (r : regex) : regex := Alt r Empty.           (* r?  *)

Definition isAlnum (c : char) : bool :=
  ((65 <=? c) && (c <=? 90) || (97 <=? c) && (c <=? 122)
   || (48 <=? c) && (c <=? 57))%N.

Definition isOneOf (s : string) (c : char) : bool := existsb (N.eqb c) (lit s).

Definition ws : regex := Class isWhiteSpace.                                  (* \s *)
Definition anyChar : regex := Class (fun c => negb (isLineTerminator c)).     (* . *)

(** ** Results of calls *)

Inductive outcome (A : Type) : Type :=
| Returned (a : A)
| Thrown.
Arguments Thrown {A}.

Definition bind {A B} (x : outcome A) (f : A -> outcome B) : outcome B :=
  match x with
  | Returned a => f a
  | Thrown => Thrown
  end.

Notation "x <- c1 ;; c2" := (bind c1 (fun x => c2))
  (at level 61, c1 at next level, right associativity).

(** Reading a property of [lines[i]] throws a TypeError when the element is
    [undefined]. *)
Definition deref {A} (x : option A) : outcome A :=
  match x with
  | Some a => Returned a
  | None => Thrown
  end.

(** [RegExp.prototype.exec] converts its argument to a string. *)
Definition toString (x : option jsstring) : jsstring :=
  match x with
  | Some s => s
  | None => lit "undefined"
  end.

(** ** The data model *)

Record FunctionInfo : Type := {
  name : jsstring;
  signature : jsstring;
  body : jsstring;
  startLine : nat;
  endLine : nat;
  language : jsstring;
  existingDocumentation : option jsstring
}.

(** The part of [vscode.TextDocument] the parser reads. *)
Record TextDocument : Type := {
  getText : jsstring;
  languageId : jsstring
}.

Definition linesOf (document : TextDocument) : list jsstring :=
  splitLines (getText document).

(** [document.lineAt(line).text]; the editor throws on a line that is not in
    the document. *)
Definition lineAt (document : TextDocument) (line : nat) : outcome jsstring :=
  deref (nth_error (linesOf document) line).

(** ** CodeParser *)

Module CodeParser.

(** [for (let i = currentLine; i >= Math.max(0, currentLine - lookback); i--)]
    with a body that either returns a record or falls through. *)
Fixpoint scanUpward {A} (visit : nat -> outcome (option A))
    (i lookback : nat) {struct lookback} : outcome (option A) :=
  found <- visit i ;;
  match found with
  | Some r => Returned (Some r)
  | None =>
      match lookback, i with
      | S lookback', S i' => scanUpward visit i' lookback'
      | _, _ => Returned None
      end
  end.

(** [[A-Za-z0-9_$]] and [[A-Za-z0-9_]]. *)
Definition identDollar : regex := Class (fun c => isAlnum c || isOneOf "_$" c).
Definition ident : regex := Class (fun c => isAlnum c || isOneOf "_" c).
(** The parenthesised parameter list,  \( ( [^)]* ) \)  with the parameters in
    group [n].  (Here and below the source's patterns are quoted with blanks
    between their tokens.) *)
Definition params (n : nat) : regex :=
  (chr "(" +> Group n (many (notChr ")")) +> chr ")")%re.

Definition functionPatterns : list regex :=
  [ (* function \s+ ( [A-Za-z0-9_$]+ ) \s* \( ( [^)]* ) \) \s* { *)
    (word "function" +> some ws +> Group 1 (some identDollar) +> many ws
     +> params 2 +> many ws +> chr "{")%re;
    (* (?:const|let|var) \s+ ( [A-Za-z0-9_$]+ ) \s* = \s* (?: async \s* )?
       \( ( [^)]* ) \) \s* => \s* { *)
    ((word "const" ||| word "let" ||| word "var") +> some ws
     +> Group 1 (some identDollar) +> many ws +> chr "=" +> many ws
     +> maybe (word "async" +> many ws) +> params 2 +> many ws
     +> word "=>" +> many ws +> chr "{")%re;
    (* ( [A-Za-z0-9_$]+ ) \s* \( ( [^)]* ) \) \s* { *)
    (Group 1 (some identDollar) +> many ws +> params 2 +> many ws +> chr "{")%re;
    (* (?:public|private|protected)? \s* (?:static)? \s* (?:async)? \s*
       ( [A-Za-z0-9_$]+ ) \s* \( ( [^)]* ) \) \s* (?: : \s* [^{]+ )? \s* { *)
    (maybe (word "public" ||| word "private" ||| word "protected") +> many ws
     +> maybe (word "static") +> many ws +> maybe (word "async") +> many ws
     +> Group 1 (some identDollar) +> many ws +> params 2 +> many ws
     +> maybe (chr ":" +> many ws +> some (notChr "{")) +> many ws +> chr "{")%re ].

(** ^ \s* def \s+ ( [A-Za-z0-9_]+ ) \s* \( ( [^)]* ) \) \s* (?: -> .*? )? : *)
Definition pythonPattern : regex :=
  (Bol +> many ws +> word "def" +> some ws +> Group 1 (some ident) +> many ws
   +> params 2 +> many ws +> maybe (word "->" +> manyLazy anyChar) +> chr ":")%re.

(** ^ \s* (public|private|protected)? \s* (static)? \s* ( [A-Za-z0-9_<>[\]]+ ) \s+
    ( [A-Za-z0-9_]+ ) \s* \( ( [^)]* ) \) \s* (?: throws \s+ [A-Za-z0-9_,\s]+ )? \s* { *)
Definition cStylePattern : regex :=
  (Bol +> many ws
   +> maybe (Group 1 (word "public" ||| word "private" ||| word "protected"))
   +> many ws +> maybe (Group 2 (word "static")) +> many ws
   +> Group 3 (some (Class (fun c => isAlnum c || isOneOf "_<>[]" c))) +> some ws
   +> Group 4 (some ident) +> many ws +> params 5 +> many ws
   +> maybe (word "throws" +> some ws
             +> some (Class (fun c => isAlnum c || isOneOf "_," c || isWhiteSpace c)))
   +> many ws +> chr "{")%re.

(** ( [A-Za-z0-9_]+ ) \s* \( ( [^)]* ) \) *)
Definition genericPattern : regex :=
  (Group 1 (some ident) +> many ws +> params 2)%re.

(** [for (const pattern of patterns)]: the match of the first pattern, in
    order, that matches the line. *)
Fixpoint firstMatch (patterns : list regex) (lineText : jsstring) : option captures :=
  match patterns with
  | [] => None
  | pattern :: others =>
      match exec pattern lineText with
      | Some m => Some m
      | None => firstMatch others lineText
      end
  end.

(** Count the opening braces of a line on top of [braceCount]. *)
Fixpoint countOpening (lineText : jsstring) (braceCount : Z) : Z :=
  match lineText with
  | [] => braceCount
  | c :: r => countOpening r (if (c =? LBRACE)%N then braceCount + 1 else braceCount)%Z
  end.

(** The inner loop of the closing search: every '{' increments, every '}'
    decrements, and the scan of the line breaks when the count reaches 0. *)
Fixpoint countBraces (currentLine : jsstring) (braceCount : Z) : Z :=
  match currentLine with
  | [] => braceCount
  | c :: r =>
      if (c =? LBRACE)%N then countBraces r (braceCount + 1)%Z
      else if (c =? RBRACE)%N then
        let braceCount := (braceCount - 1)%Z in
        if (braceCount =? 0)%Z then braceCount else countBraces r braceCount
      else countBraces r braceCount
  end.

(** The state the loops of [findFunctionBody] update. *)
Record bodyState : Type := {
  bsBody : jsstring;
  bsBraceCount : Z;
  bsEndLine : nat
}.

(** "If no opening brace found in the first line, look in subsequent lines":
    [rest] holds [lines[i..]]. *)
Fixpoint seekOpening (rest : list jsstring) (i : nat) (st : bodyState) : bodyState :=
  match rest with
  | [] => st
  | currentLine :: rest' =>
      let st := {| bsBody := bsBody st ++ currentLine ++ [NL];
                   bsBraceCount := bsBraceCount st;
                   bsEndLine := i |} in
      if includes LBRACE currentLine then
        {| bsBody := bsBody st;
           bsBraceCount := countOpening currentLine (bsBraceCount st);
           bsEndLine := bsEndLine st |}
      else seekOpening rest' (S i) st
  end.

(** "Continue until we find the matching closing brace": [rest] holds
    [lines[i..]], and the loop runs while [braceCount > 0]. *)
Fixpoint seekClosing (rest : list jsstring) (i : nat) (st : bodyState) : bodyState :=
  match rest with
  | [] => st
  | currentLine :: rest' =>
      if (bsBraceCount st >? 0)%Z then
        seekClosing rest' (S i)
          {| bsBody := bsBody st ++ currentLine ++ [NL];
             bsBraceCount := countBraces currentLine (bsBraceCount st);
             bsEndLine := i |}
      else st
  end.

Definition findFunctionBody (document : TextDocument) (startLine : nat)
  : outcome (jsstring * nat * nat) :=
  let lines := linesOf document in
  lineText <- deref (nth_error lines startLine) ;;
  let st := {| bsBody := lineText ++ [NL];
               bsBraceCount := countOpening lineText 0;
               bsEndLine := startLine |} in
  let st := if (bsBraceCount st =? 0)%Z
            then seekOpening (skipn (startLine + 1) lines) (startLine + 1) st
            else st in
  let st := seekClosing (skipn (bsEndLine st + 1) lines) (bsEndLine st + 1) st in
  Returned (bsBody st, startLine, bsEndLine st).

(** "Skip empty lines": [n] is [startLine + 1]; the result is the line the
    loop stops at, [None] when it runs past the top of the document. *)
Fixpoint skipBlankAbove (lines : list jsstring) (n : nat) : outcome (option nat) :=
  match n with
  | O => Returned None
  | S startLine =>
      line <- deref (nth_error lines startLine) ;;
      if jsstring_eqb (trim line) [] then skipBlankAbove lines startLine
      else Returned (Some startLine)
  end.

(** The upward collection of a doc comment: [n] is [startLine + 1] and
    [docLines] the lines collected so far, in document order. *)
Fixpoint collectDocAbove (lines : list jsstring) (n : nat) (docLines : list jsstring)
  : outcome (option jsstring) :=
  match n with
  | O => Returned None
  | S startLine =>
      raw <- deref (nth_error lines startLine) ;;
      let line := trim raw in
      let docLines := raw :: docLines in
      if startsWith (lit "/**") line then Returned (Some (joinLines docLines))
      else collectDocAbove lines startLine docLines
  end.

Definition findExistingDocumentation (document : TextDocument) (functionStartLine : nat)
  : outcome (option jsstring) :=
  let lines := linesOf document in
  stop <- skipBlankAbove lines functionStartLine ;;
  match stop with
  | None => Returned None
  | Some startLine =>
      last <- deref (nth_error lines startLine) ;;
      if endsWith (lit "*/") (trim last)
      then collectDocAbove lines (S startLine) []
      else Returned None
  end.

(** The two triple-quote delimiters of Python. *)
Definition tripleDouble : jsstring := [34; 34; 34]%N.
Definition tripleSingle : jsstring := [39; 39; 39]%N.

(** "Collect all lines until closing triple quotes": [rest] holds
    [lines[i..]]. *)
Fixpoint collectDocstring (rest : list jsstring) (quoteType : jsstring)
    (docLines : list jsstring) : list jsstring :=
  match rest with
  | [] => docLines
  | line :: rest' =>
      let docLines := docLines ++ [line] in
      if endsWith quoteType (trim line) then docLines
      else collectDocstring rest' quoteType docLines
  end.

Definition findPythonDocstring (document : TextDocument) (functionStartLine : nat)
    (lines : list jsstring) : option jsstring :=
  let functionLine := functionStartLine in
  (* [functionLine + 1 < lines.length] is [lines[functionLine + 1]] being there *)
  match nth_error lines (functionLine + 1) with
  | None => None
  | Some raw =>
      let nextLine := trim raw in
      if startsWith tripleDouble nextLine || startsWith tripleSingle nextLine then
        let docLines := [raw] in
        let docLines :=
          if negb (endsWith tripleDouble nextLine && (3 <? length nextLine))
             && negb (endsWith tripleSingle nextLine && (3 <? length nextLine))
          then
            let quoteType :=
              if startsWith tripleDouble nextLine then tripleDouble else tripleSingle in
            collectDocstring (skipn (functionLine + 2) lines) quoteType docLines
          else docLines in
        Some (joinLines docLines)
      else None
  end.

(** [match[n]].  The groups the parser reads lie outside every optional part
    of their pattern, so they are defined whenever the pattern matched. *)
Definition group (m : captures) (n : nat) : jsstring := toString (capture m n).

Record Position : Type := {
  line : nat;
  character : nat
}.

(** The body of the scan loop of [findJavaScriptFunction] at line [i]. *)
Definition javaScriptFunctionAt (document : TextDocument) (lines : list jsstring)
    (i : nat) : outcome (option FunctionInfo) :=
  let language := languageId document in
  let lineText := nth_error lines i in
  match firstMatch functionPatterns (toString lineText) with
  | None => Returned None
  | Some m =>
      let functionName := group m 1 in
      lineText <- deref lineText ;;
      let functionSignature := trim lineText in
      found <- findFunctionBody document i ;;
      let '(body, startLine, endLine) := found in
      existingDocumentation <- findExistingDocumentation document startLine ;;
      Returned (Some {| name := functionName;
                        signature := functionSignature;
                        body := body;
                        startLine := startLine;
                        endLine := endLine;
                        language := language;
                        existingDocumentation := existingDocumentation |})
  end.

Definition findJavaScriptFunction (document : TextDocument) (position : Position)
  : outcome (option FunctionInfo) :=
  let text := getText document in
  let currentLine := line position in
  let lines := splitLines text in
  scanUpward (javaScriptFunctionAt document lines) currentLine 10.

(** "Collect the function body by following lines with greater indentation":
    [rest] holds [lines[j..]]. *)
Fixpoint collectIndented (rest : list jsstring) (j : nat) (defIndent : Z)
    (body : jsstring) (endLine : nat) : jsstring * nat :=
  match rest with
  | [] => (body, endLine)
  | bodyLine :: rest' =>
      if jsstring_eqb (trim bodyLine) [] then
        collectIndented rest' (S j) defIndent (body ++ bodyLine ++ [NL]) j
      else
        let lineIndent := searchNonSpace bodyLine in
        if (lineIndent <=? defIndent)%Z && negb (lineIndent =? -1)%Z then (body, endLine)
        else collectIndented rest' (S j) defIndent (body ++ bodyLine ++ [NL]) j
  end.

(** The body of the scan loop of [findPythonFunction] at line [i]. *)
Definition pythonFunctionAt (document : TextDocument) (lines : list jsstring)
    (i : nat) : outcome (option FunctionInfo) :=
  let lineText := nth_error lines i in
  match exec pythonPattern (toString lineText) with
  | None => Returned None
  | Some m =>
      let functionName := group m 1 in
      lineText <- deref lineText ;;
      let functionSignature := trim lineText in
      let startLine := i in
      let defIndent := searchNonSpace lineText in
      let '(body, endLine) :=
        collectIndented (skipn (i + 1) lines) (i + 1) defIndent [] i in
      let existingDocumentation := findPythonDocstring document startLine lines in
      Returned (Some {| name := functionName;
                        signature := functionSignature;
                        body := body;
                        startLine := startLine;
                        endLine := endLine;
                        language := lit "python";
                        existingDocumentation := existingDocumentation |})
  end.

Definition findPythonFunction (document : TextDocument) (position : Position)
  : outcome (option FunctionInfo) :=
  let text := getText document in
  let lines := splitLines text in
  let currentLine := line position in
  scanUpward (pythonFunctionAt document lines) currentLine 10.

(** The body of the scan loop of [findCStyleFunction] at line [i]. *)
Definition cStyleFunctionAt (document : TextDocument) (lines : list jsstring)
    (i : nat) : outcome (option FunctionInfo) :=
  let language := languageId document in
  let lineText := nth_error lines i in
  match exec cStylePattern (toString lineText) with
  | None => Returned None
  | Some m =>
      let functionName := group m 4 in
      lineText <- deref lineText ;;
      let functionSignature := trim lineText in
      found <- findFunctionBody document i ;;
      let '(body, startLine, endLine) := found in
      existingDocumentation <- findExistingDocumentation document startLine ;;
      Returned (Some {| name := functionName;
                        signature := functionSignature;
                        body := body;
                        startLine := i;
                        endLine := endLine;
                        language := language;
                        existingDocumentation := existingDocumentation |})
  end.

Definition findCStyleFunction (document : TextDocument) (position : Position)
  : outcome (option FunctionInfo) :=
  let text := getText document in
  let lines := splitLines text in
  let currentLine := line position in
  scanUpward (cStyleFunctionAt document lines) currentLine 10.

(** The body of the scan loop of [findGenericFunction] at line [i]. *)
Definition genericFunctionAt (document : TextDocument) (i : nat)
  : outcome (option FunctionInfo) :=
  let language := languageId document in
  lineText <- lineAt document i ;;
  match exec genericPattern lineText with
  | None => Returned None
  | Some m =>
      let functionName := group m 1 in
      found <- findFunctionBody document i ;;
      let '(body, startLine, endLine) := found in
      existingDocumentation <- findExistingDocumentation document startLine ;;
      Returned (Some {| name := functionName;
                        signature := trim lineText;
                        body := body;
                        startLine := startLine;
                        endLine := endLine;
                        language := language;
                        existingDocumentation := existingDocumentation |})
  end.

Definition findGenericFunction (document : TextDocument) (position : Position)
  : outcome (option FunctionInfo) :=
  let currentLine := line position in
  scanUpward (genericFunctionAt document) currentLine 5.

Definition isLanguage (language : jsstring) (tags : list string) : bool :=
  existsb (fun tag => jsstring_eqb language (lit tag)) tags.

Definition findFunctionAtPosition (document : TextDocument) (position : Position)
  : outcome (option FunctionInfo) :=
  let language := languageId document in
  lineText <- lineAt document (line position) ;;
  if isLanguage language
       ["javascript"; "typescript"; "typescriptreact"; "javascriptreact"]%string
  then findJavaScriptFunction document position
  else if isLanguage language ["python"]%string
  then findPythonFunction document position
  else if isLanguage language ["java"; "csharp"; "cpp"; "c"]%string
  then findCStyleFunction document position
  else findGenericFunction document position.

End CodeParser.

Import CodeParser.

#[global] Arguments startsWith : simpl never.
#[global] Arguments endsWith : simpl never.
#[global] Arguments trim : simpl never.
#[global] Arguments joinLines : simpl never.
#[global] Arguments lit : simpl never.
#[global] Arguments exec : simpl never.
#[global] Arguments firstMatch : simpl never.
#[global] Arguments searchNonSpace : simpl never.

(** * Properties

    ** Vocabulary of the statements

    The notions the specification speaks of: blank lines, indentation,
    spans of lines, the brace-depth counter, the lookback window.  Those of
    the text and of the counter are defined on their own, not through the
    parser; [familyOf], [signatureMatch] and [functionAt] name the dispatch,
    the patterns and the loop bodies of the parser. *)

(** A whitespace-only ("blank") line. *)
Definition isBlank (l : jsstring) : bool := forallb isWhiteSpace l.

(** The column of the first code unit after the leading whitespace. *)
Fixpoint indentation (l : jsstring) : nat :=
  match l with
  | c :: r => if isWhiteSpace c then S (indentation r) else 0
  | [] => 0
  end.

(** Lines [from .. to] of a buffer, inclusive. *)
Definition span (lines : list jsstring) (from to : nat) : list jsstring :=
  firstn (to + 1 - from) (skipn from lines).

(** Literal text of some lines, each newline-terminated. *)
Definition terminated (ls : list jsstring) : jsstring :=
  concat (map (fun l => l ++ [NL]) ls).

(** Number of occurrences of a code unit in a text. *)
Definition occurrences (c : char) (s : jsstring) : Z :=
  Z.of_nat (count_occ N.eq_dec s c).

(** Net change of brace depth over a text: +1 for every '{', -1 for every
    '}'. *)
Definition nesting (s : jsstring) : Z :=
  (occurrences LBRACE s - occurrences RBRACE s)%Z.

(** A depth counter that stands at [d] before line [l] is back to zero
    after some prefix of [l]. *)
Definition reachesZero (d : Z) (l : jsstring) : Prop :=
  exists k, k <= length l /\ (d + nesting (firstn k l) = 0)%Z.

(** The counter before the [k]-th of the lines [rest], started at [d]. *)
Definition depthBefore (d : Z) (rest : list jsstring) (k : nat) : Z :=
  (d + nesting (concat (firstn k rest)))%Z.

(** Started at [d] and run over [rest], the counter first returns to zero
    on the [k]-th line. *)
Definition closesWithin (d : Z) (rest : list jsstring) (k : nat) : Prop :=
  (exists l, nth_error rest k = Some l /\ reachesZero (depthBefore d rest k) l) /\
  (forall m l, m < k -> nth_error rest m = Some l ->
               ~ reachesZero (depthBefore d rest m) l).

(** Line [o] carries opening braces, and the counter started from their
    number first returns to zero on line [e] below it. *)
Definition closesAt (lines : list jsstring) (o e : nat) : Prop :=
  exists opening,
    nth_error lines o = Some opening /\
    (0 < occurrences LBRACE opening)%Z /\
    o < e /\
    closesWithin (occurrences LBRACE opening) (skipn (o + 1) lines) (e - o - 1).

(** [o] is the first line at or below [h] with an opening brace. *)
Definition openingLine (lines : list jsstring) (h o : nat) : Prop :=
  h <= o /\
  (exists l, nth_error lines o = Some l /\ (0 < occurrences LBRACE l)%Z) /\
  (forall m l, h <= m < o -> nth_error lines m = Some l ->
               occurrences LBRACE l = 0%Z).

(** The braces opened at or below header line [h] are closed on line [e]. *)
Definition bracesClose (lines : list jsstring) (h e : nat) : Prop :=
  exists o, openingLine lines h o /\ closesAt lines o e.

(** The language families of the dispatch. *)
Inductive family : Type := JavaScriptFamily | PythonFamily | CStyleFamily | GenericFamily.

Definition familyOf (language : jsstring) : family :=
  if isLanguage language
       ["javascript"; "typescript"; "typescriptreact"; "javascriptreact"]%string
  then JavaScriptFamily
  else if isLanguage language ["python"]%string then PythonFamily
  else if isLanguage language ["java"; "csharp"; "cpp"; "c"]%string then CStyleFamily
  else GenericFamily.

(** The signature patterns of a family applied to one line. *)
Definition signatureMatch (f : family) (lineText : jsstring) : option captures :=
  match f with
  | JavaScriptFamily => firstMatch functionPatterns lineText
  | PythonFamily => exec pythonPattern lineText
  | CStyleFamily => exec cStylePattern lineText
  | GenericFamily => exec genericPattern lineText
  end.

(** The body of the scan loop of a family at line [i]. *)
Definition functionAt (f : family) (document : TextDocument) (i : nat)
  : outcome (option FunctionInfo) :=
  match f with
  | JavaScriptFamily => javaScriptFunctionAt document (linesOf document) i
  | PythonFamily => pythonFunctionAt document (linesOf document) i
  | CStyleFamily => cStyleFunctionAt document (linesOf document) i
  | GenericFamily => genericFunctionAt document i
  end.

(** The capture group that holds the function name. *)
Definition nameGroup (f : family) : nat :=
  match f with
  | CStyleFamily => 4
  | _ => 1
  end.

(** The number of lines above the cursor that are searched. *)
Definition lookback (f : family) : nat :=
  match f with
  | GenericFamily => 5
  | _ => 10
  end.

(** Line [i] is the cursor line [c] or one of the [k] lines above it. *)
Definition inWindow (c k i : nat) : Prop := c - k <= i <= c.

(** Line [i] of the buffer matches a signature pattern of family [f]. *)
Definition matchesAt (f : family) (lines : list jsstring) (i : nat) : Prop :=
  exists l, nth_error lines i = Some l /\ signatureMatch f l <> None.

(** Decision procedures for the counter predicates, for use on concrete
    buffers. *)
Definition reachesZeroB (d : Z) (l : jsstring) : bool :=
  existsb (fun k => (d + nesting (firstn k l) =? 0)%Z) (seq 0 (S (length l))).

Definition closesWithinB (d : Z) (rest : list jsstring) (k : nat) : bool :=
  match nth_error rest k with
  | Some l => reachesZeroB (depthBefore d rest k) l
  | None => false
  end
  && forallb (fun m => match nth_error rest m with
                       | Some l => negb (reachesZeroB (depthBefore d rest m) l)
                       | None => true
                       end) (seq 0 k).

Definition closesAtB (lines : list jsstring) (o e : nat) : bool :=
  match nth_error lines o with
  | Some opening =>
      (0 <? occurrences LBRACE opening)%Z && (o <? e)
      && closesWithinB (occurrences LBRACE opening) (skipn (o + 1) lines) (e - o - 1)
  | None => false
  end.

Definition matchesAtB (f : family) (lines : list jsstring) (i : nat) : bool :=
  match nth_error lines i with
  | Some l => match signatureMatch f l with Some _ => true | None => false end
  | None => false
  end.

(** Buffers of the scenarios. *)
Definition buffer (ls : list string) (languageId : string) : TextDocument :=
  {| getText := joinLines (map lit ls); languageId := lit languageId |}.

Definition cursor (n : nat) : Position := {| line := n; character := 0 |}.

Definition jsAdd : TextDocument :=
  buffer ["function add(a, b) {"; "  return a + b;"; "}"; ""]%string "javascript".

Definition pyAdd : TextDocument :=
  buffer ["def add(a, b):"; "    return a + b"; ""]%string "python".


Definition longFunction : TextDocument :=
  buffer ["function f() {"; "  a;"; "  b;"; "  c;"; "  d;"; "  e;"; "  g;"; "  h;";
          "  i;"; "  j;"; "  k;"; "  l;"; "  m;"; "}"; ""]%string "javascript".

Definition ifBlock : TextDocument :=
  buffer ["if (x) {"; "  y();"; "}"]%string "javascript".

Definition prose : TextDocument :=
  buffer ["plain prose text"; "on two lines"]%string "ruby".

Definition documented : TextDocument :=
  buffer ["/**"; " * Adds."; " */"; ""; "int add(int a, int b) {"; "  return a + b;"; "}"]%string
         "java".

Definition unclosed : TextDocument :=
  buffer ["function f() {"; "  if (x) {"; "    y;"; "}"]%string "javascript".

(** A Python function whose docstring opens with one delimiter and whose
    first line ends with the other one. *)
Definition mixedDelimiters : TextDocument :=
  {| getText := joinLines [lit "def f():";
                           lit "    " ++ tripleDouble ++ lit "Quote with '''";
                           lit "    to the end.";
                           lit "    " ++ tripleDouble;
                           lit "    return 1"];
     languageId := lit "python" |}.

Definition pyBlankLines : TextDocument :=
  buffer ["def f():"; "    a = 1"; ""; "    return a"; ""; "x = 2"]%string "python".

(** ** Vocabulary of the further properties *)

(** The code units of an identifier: letters, digits, '_' and '$'. *)
Definition isIdentifierChar (c : char) : Prop :=
  isAlnum c || isOneOf "_$" c = true.

(** Syntactic facts about a pattern: it has no capturing group; every match
    of it consumes at least one code unit; all its character classes lie
    within [P]. *)
Fixpoint groupFree (r : regex) : bool :=
  match r with
  | Group _ _ => false
  | Cat a b | Alt a b => groupFree a && groupFree b
  | Star _ a => groupFree a
  | _ => true
  end.

Fixpoint consumes (r : regex) : bool :=
  match r with
  | Class _ => true
  | Cat a b => consumes a || consumes b
  | Alt a b => consumes a && consumes b
  | Group _ a => consumes a
  | _ => false
  end.

Fixpoint classesIn (P : char -> Prop) (r : regex) : Prop :=
  match r with
  | Class p => forall c, p c = true -> P c
  | Cat a b | Alt a b => classesIn P a /\ classesIn P b
  | Star _ a | Group _ a => classesIn P a
  | _ => True
  end.

(** Every occurrence of group [n] in the pattern wraps a group-free pattern
    that consumes something and whose classes lie within [P]. *)
Fixpoint capturesWell (n : nat) (P : char -> Prop) (r : regex) : Prop :=
  match r with
  | Group m a =>
      if Nat.eqb m n
      then groupFree a = true /\ consumes a = true /\ classesIn P a
      else capturesWell n P a
  | Cat a b | Alt a b => capturesWell n P a /\ capturesWell n P b
  | Star _ a => capturesWell n P a
  | _ => True
  end.

(** The patterns of a family. *)
Definition patternsOf (f : family) : list regex :=
  match f with
  | JavaScriptFamily => functionPatterns
  | PythonFamily => [pythonPattern]
  | CStyleFamily => [cStylePattern]
  | GenericFamily => [genericPattern]
  end.

(** A buffer with the opening brace on the line after the header, and one
    with a doc comment above a method. *)
Definition braceBelow : TextDocument :=
  buffer ["fn main()"; "{"; "  run();"; "}"; ""]%string "rust".

Definition pyDocstring : TextDocument :=
  {| getText := joinLines [lit "def f(x):";
                           lit "    " ++ tripleDouble;
                           lit "    Doubles x.";
                           lit "    " ++ tripleDouble;
                           lit "    return 2 * x"];
     languageId := lit "python" |}.

Definition pyOneLineDocstring : TextDocument :=
  {| getText := joinLines [lit "def f(x):";
                           lit "    " ++ tripleDouble ++ lit "Doubles x." ++ tripleDouble;
                           lit "    return 2 * x"];
     languageId := lit "python" |}.

Definition pyOpenDocstring : TextDocument :=
  {| getText := joinLines [lit "def f(x):";
                           lit "    " ++ tripleDouble ++ lit "Doubles x.";
                           lit "    return 2 * x"];
     languageId := lit "python" |}.

Definition plainComment : TextDocument :=
  buffer ["// adds"; ""; "function add(a, b) {"; "  return a + b;"; "}"]%string "javascript".

Definition closerWithoutOpener : TextDocument :=
  buffer ["/* adds */"; "function add(a, b) {"; "  return a + b;"; "}"]%string "javascript".

(** The code unit every pattern of a family ends with. *)
Definition lastDelimiter (f : family) : char :=
  match f with
  | JavaScriptFamily | CStyleFamily => LBRACE
  | PythonFamily => 58%N      (* ':' *)
  | GenericFamily => 41%N     (* ')' *)
  end.

(** A pattern is a sequence that ends with the literal code unit [a]. *)
Fixpoint endsIn (a : ascii) (r : regex) : Prop :=
  match r with
  | Cat _ r2 => endsIn a r2
  | Class _ => r = chr a
  | _ => False
  end.

(** Lines [a] to [b] are the doc comment block right above line [s]: the
    trimmed text of line [a] begins with the opener and no line after [a] up
    to [b] does, the trimmed text of line [b] ends with the closer, and
    the lines between [b] and [s] are blank. *)
Definition docBlockAbove (lines : list jsstring) (s a b : nat) : Prop :=
  a <= b < s /\
  (exists la, nth_error lines a = Some la /\ startsWith (lit "/**") (trim la) = true) /\
  (exists lb, nth_error lines b = Some lb /\ endsWith (lit "*/") (trim lb) = true) /\
  (forall j l, a < j <= b -> nth_error lines j = Some l ->
               startsWith (lit "/**") (trim l) = false) /\
  (forall j l, b < j < s -> nth_error lines j = Some l -> isBlank l = true).

(** The line right below the header line [h] opens a docstring with the
    delimiter [q]. *)
Definition opensDocstring (lines : list jsstring) (h : nat) (q : jsstring) : Prop :=
  exists next,
    nth_error lines (h + 1) = Some next /\
    startsWith q (trim next) = true /\
    (q = tripleDouble \/
     q = tripleSingle /\ startsWith tripleDouble (trim next) = false).

(** That line is a whole docstring by the test of the source: its trimmed
    text is longer than three code units and ends with either delimiter. *)
Definition closesOnSameLine (next : jsstring) : bool :=
  (endsWith tripleDouble (trim next) || endsWith tripleSingle (trim next))
  && (3 <? length (trim next)).

(** ** Replacements by regular expressions

    The formatters clean a text with [text.replace(pattern, '')], the
    pattern carrying the [g] flag and, for one of them, the [m] flag.  A
    pattern is given as its top-level alternatives, each with the [^] that
    may stand before it and the [$] that may stand after it. *)

Record alternative : Type := {
  lineStart : bool;      (* ^ with the m flag, before the alternative *)
  pattern : regex;
  lineEnd : bool         (* $ with the m flag, after the alternative *)
}.

(** [^] with [m]: at the start of the text or right after a line
    terminator; [prev] is the code unit before the current index. *)
Definition atLineStart (prev : option char) : bool :=
  match prev with
  | None => true
  | Some c => isLineTerminator c
  end.

(** [$] with [m]: at the end of the text or right before a line
    terminator. *)
Definition atLineEnd (rest : jsstring) : bool :=
  match rest with
  | [] => true
  | c :: _ => isLineTerminator c
  end.

(** Match the alternatives, in order, at the current index.  The result is
    the text after the match (handed out of the matcher as capture 0). *)
Fixpoint matchHere (alts : list alternative) (input : jsstring)
    (prev : option char) (rest : jsstring) : option jsstring :=
  match alts with
  | [] => None
  | alt :: others =>
      let attempt :=
        if lineStart alt && negb (atLineStart prev) then None
        else matchAt (pattern alt) input rest []
               (fun rest' _ =>
                  if lineEnd alt && negb (atLineEnd rest') then None
                  else Some [(0, rest')]) in
      match attempt with
      | Some caps => capture caps 0
      | None => matchHere others input prev rest
      end
  end.

(** The scan of a global replacement by the empty string: a match is
    dropped and the scan goes on after it; where nothing matches, or the
    match is empty, the code unit is kept and the scan moves on by one.
    Every step consumes a code unit, so [fuel] above the length of the text
    is enough. *)
Fixpoint removeAllFrom (fuel : nat) (alts : list alternative) (input : jsstring)
    (prev : option char) (rest : jsstring) : jsstring :=
  match fuel with
  | O => rest
  | S fuel' =>
      let keep :=
        match rest with
        | [] => []
        | c :: r => c :: removeAllFrom fuel' alts input (Some c) r
        end in
      match matchHere alts input prev rest with
      | Some rest' =>
          if Nat.ltb (length rest') (length rest)
          then removeAllFrom fuel' alts input
                 (nth_error rest (length rest - length rest' - 1)) rest'
          else keep
      | None => keep
      end
  end.

(** [s.replace(pattern, '')]. *)
Definition removeAll (alts : list alternative) (s : jsstring) : jsstring :=
  removeAllFrom (S (length s)) alts s None s.

(** The pattern both formatters strip comment delimiters with: '/**' at the
    start of a line or '*/' at the end of a line (flags [gm]). *)
Definition docDelimiters : list alternative :=
  [ {| lineStart := true; pattern := word "/**"; lineEnd := false |};
    {| lineStart := false; pattern := word "*/"; lineEnd := true |} ].

(** ** DocumentationProvider (the formatting methods) *)

Module DocumentationProvider.

(** [lines.map((line, index) => ...)] of the JSDoc and JavaDoc formatters;
    [count] is [lines.length].  The test for the first line comes first, so
    a single line only gets the opener. *)
Fixpoint decorate (lines : list jsstring) (index count : nat) : list jsstring :=
  match lines with
  | [] => []
  | line :: rest =>
      (if index =? 0 then lit "/** " ++ line
       else if index =? count - 1 then lit " * " ++ line ++ lit " */"
       else lit " * " ++ line)
      :: decorate rest (S index) count
  end.

Definition formatJSDocDocumentation (documentation : jsstring) : jsstring :=
  let cleanedDoc := trim (removeAll docDelimiters documentation) in
  let lines := splitLines cleanedDoc in
  let formattedLines := decorate lines 0 (length lines) in
  joinLines formattedLines.

Definition formatPythonDocstring (documentation : jsstring) : jsstring :=
  tripleDouble ++ [NL] ++ trim documentation ++ [NL] ++ tripleDouble.

Definition formatJavaDocDocumentation (documentation : jsstring) : jsstring :=
  let cleanedDoc := trim (removeAll docDelimiters documentation) in
  let lines := splitLines cleanedDoc in
  let formattedLines := decorate lines 0 (length lines) in
  joinLines formattedLines.

Definition formatGenericDocumentation (documentation : jsstring) : jsstring :=
  joinLines (map (fun line => lit "// " ++ line) (splitLines documentation)).

Definition formatDocumentation (documentation language : jsstring) : jsstring :=
  if isLanguage language
       ["javascript"; "typescript"; "javascriptreact"; "typescriptreact"]%string
  then formatJSDocDocumentation documentation
  else if isLanguage language ["python"]%string
  then formatPythonDocstring documentation
  else if isLanguage language ["java"; "csharp"]%string
  then formatJavaDocDocumentation documentation
  else formatGenericDocumentation documentation.

End DocumentationProvider.

(** ** The extension (its formatting helpers) *)

Module Extension.

(** The first pattern of [cleanupDocumentation] (flag [g]): a line that
    opens or closes a code fence, or the sentence an answer may start
    with. *)
Definition chatter : list alternative :=
  [ {| lineStart := false;
       pattern := ((word "```" +> many anyChar +> Class (N.eqb NL))
                   ||| (word "Sure, here is the updated documentation:"
                        +> Class (N.eqb NL)))%re;
       lineEnd := false |} ].

Definition cleanupDocumentation (documentation : jsstring) : jsstring :=
  trim (removeAll docDelimiters (removeAll chatter documentation)).

Definition formatDocumentation (documentation language : jsstring) : jsstring :=
  let cleanedDoc := cleanupDocumentation documentation in
  if isLanguage language
       ["typescript"; "javascript"; "javascriptreact"; "typescriptreact"]%string
  then
    let lines := map trim (splitLines cleanedDoc) in
    joinLines ([lit "/**"] ++ map (fun line => lit " * " ++ line) lines
               ++ [lit " */"; []])
  else if isLanguage language ["python"]%string
  then tripleDouble ++ [NL] ++ cleanedDoc ++ [NL] ++ tripleDouble ++ [NL]
  else joinLines (map (fun line => lit "// " ++ line) (splitLines cleanedDoc)) ++ [NL].

End Extension.

(** The lines an edit adds when it inserts [text], which ends with a
    newline, at the start of a line. *)
Definition insertedLines (text : jsstring) : list jsstring :=
  removelast (splitLines text).

(** No line of a text closes a docstring of delimiter [q]. *)
Definition closesNowhere (q : jsstring) (ls : list jsstring) : Prop :=
  forall l, In l ls -> endsWith q (trim l) = false.

(** ** RAGSystem (the aggregation of the cached context) *)

Module RAGSystem.

Section WithPath.

(** [path.basename] of Node. *)
Variable basename : jsstring -> jsstring.

Definition maxContextLength : nat := 2000.

(** The template of a cache entry: a reference line, the context and an
    empty line. *)
Definition contextWithReference (filePath context : jsstring) : jsstring :=
  lit "// Context from " ++ basename filePath ++ lit ":" ++ [NL]
  ++ context ++ [NL; NL].

(** The loop over [projectContextCache], a Map, whose entries come in the
    order of their insertion; the loop breaks at the first entry that would
    make the text longer than [maxContextLength]. *)
Fixpoint aggregateEntries (entries : list (jsstring * jsstring))
    (aggregatedContext : jsstring) : jsstring :=
  match entries with
  | [] => aggregatedContext
  | (filePath, context) :: rest =>
      if maxContextLength
         <? length (aggregatedContext ++ contextWithReference filePath context)
      then aggregatedContext
      else aggregateEntries rest
             (aggregatedContext ++ contextWithReference filePath context)
  end.

Definition aggregateContext (projectContextCache : list (jsstring * jsstring))
  : jsstring :=
  trim (aggregateEntries projectContextCache []).

End WithPath.

End RAGSystem.

(** ** ContextExtractor (the map of the project structure) *)

Module ContextExtractor.

Record ProjectStructureItem : Type := {
  itemName : jsstring;
  isDirectoryItem : bool;          (* type: 'directory' or 'file' *)
  children : list jsstring
}.

Section WithFileSystem.

(** [require('fs').readdirSync(dirPath, { withFileTypes: false })],
    [require('fs').statSync(path).isDirectory()] and [path.join]; the first
    two may throw. *)
Variable readdirSync : jsstring -> outcome (list jsstring).
Variable statIsDirectory : jsstring -> outcome bool.
Variable pathJoin : jsstring -> jsstring -> jsstring.

(** The entries shown: not hidden and not 'node_modules'. *)
Definition shown (entry : jsstring) : bool :=
  negb (startsWith (lit ".") entry) && negb (jsstring_eqb entry (lit "node_modules")).

(** A directory that cannot be read has no entries. *)
Definition readDirectorySync (dirPath : jsstring) : list jsstring :=
  match readdirSync dirPath with
  | Returned entries => filter shown entries
  | Thrown => []
  end.

(** A path whose stats cannot be read is not a directory. *)
Definition getFileStats (path : jsstring) : bool :=
  match statIsDirectory path with
  | Returned isDirectory => isDirectory
  | Thrown => false
  end.

Definition mapProjectStructure (rootPath : jsstring) : list ProjectStructureItem :=
  let entries := readDirectorySync rootPath in
  map (fun entry =>
         let fullPath := pathJoin rootPath entry in
         let stats := getFileStats fullPath in
         {| itemName := entry;
            isDirectoryItem := stats;
            children := if stats then firstn 5 (readDirectorySync fullPath) else [] |})
      entries.

End WithFileSystem.

End ContextExtractor.

(** A cache of two entries whose first one does not fit. *)
Definition oversizedFirst : list (jsstring * jsstring) :=
  [(lit "/src/big.ts", repeat 120%N 2000); (lit "/src/small.ts", lit "f() {")].

(** The text of a list of cache entries, each with its reference line. *)
Definition references (basename : jsstring -> jsstring)
    (entries : list (jsstring * jsstring)) : jsstring :=
  concat (map (fun entry =>
                 RAGSystem.contextWithReference basename (fst entry) (snd entry))
              entries).

(** The last component of a path written with slashes. *)
Definition lastComponent (path : jsstring) : jsstring :=
  last (fold_right
          (fun c parts => if (c =? 47)%N then [] :: parts
                          else (c :: hd [] parts) :: tl parts) [[]] path) [].

(** A small file system: a root with a hidden entry, a folder of seven
    entries, a file, and a folder that cannot be read. *)
Definition sampleReaddir (dirPath : jsstring) : outcome (list jsstring) :=
  if jsstring_eqb dirPath (lit "/w") then
    Returned (map lit [".git"; "src"; "README.md"; "node_modules"; "locked"]%string)
  else if jsstring_eqb dirPath (lit "/w/src") then
    Returned (map lit ["a.ts"; ".cache"; "b.ts"; "c.ts"; "d.ts"; "e.ts"; "f.ts"]%string)
  else Thrown.

Definition sampleIsDirectory (path : jsstring) : outcome bool :=
  if jsstring_eqb path (lit "/w/src") then Returned true
  else if jsstring_eqb path (lit "/w/locked") then Returned true
  else if jsstring_eqb path (lit "/w/README.md") then Returned false
  else Thrown.

Definition sampleJoin (a b : jsstring) : jsstring := a ++ lit "/" ++ b.

(** The item of the folder of seven entries. *)
Definition sampleItem : ContextExtractor.ProjectStructureItem :=
  {| ContextExtractor.itemName := lit "src";
     ContextExtractor.isDirectoryItem := true;
     ContextExtractor.children :=
       map lit ["a.ts"; "b.ts"; "c.ts"; "d.ts"; "e.ts"]%string |}.

(** ** Vocabulary of the amended statements *)




(** A doc comment with a line that begins with the opener again. *)
Definition nestedOpener : TextDocument :=
  buffer ["/**"; "/** inner"; " */"; "function f() {"; "}"]%string "javascript".

(** ** Strings *)

Section StringFacts.

Lemma jsstring_eqb_nil (s : jsstring) : jsstring_eqb s [] = true <-> s = [].
Proof. destruct s; simpl; split; congruence. Qed.

Lemma trimStart_nil (s : jsstring) : trimStart s = [] <-> isBlank s = true.
Proof.
  induction s as [|c r IH]; simpl; [tauto|].
  destruct (isWhiteSpace c); simpl; [exact IH|].
  split; discriminate.
Qed.

Lemma trimStart_blank_nil (s : jsstring) :
  isBlank (trimStart s) = true -> trimStart s = [].
Proof.
  induction s as [|c r IH]; simpl; [reflexivity|].
  destruct (isWhiteSpace c) eqn:E; [exact IH|].
  simpl. rewrite E. discriminate.
Qed.

Lemma isBlank_rev (s : jsstring) : isBlank (rev s) = isBlank s.
Proof.
  unfold isBlank. apply eq_true_iff_eq.
  rewrite !forallb_forall. split; intros H x Hx; apply H.
  - now apply in_rev in Hx.
  - now apply in_rev.
Qed.

Lemma trim_nil (s : jsstring) : trim s = [] <-> isBlank s = true.
Proof.
  unfold trim, trimEnd. split.
  - intros H. apply (f_equal (@rev char)) in H. rewrite rev_involutive in H.
    simpl in H. apply trimStart_nil in H. rewrite isBlank_rev in H.
    apply trimStart_nil. now apply trimStart_blank_nil.
  - intros H. apply trimStart_nil in H. rewrite H. reflexivity.
Qed.

(** The blank test of the source, [line.trim() === ''], is [isBlank]. *)
Lemma trim_eqb_blank (s : jsstring) : jsstring_eqb (trim s) [] = isBlank s.
Proof.
  apply eq_true_iff_eq. rewrite jsstring_eqb_nil. apply trim_nil.
Qed.

Lemma searchNonSpaceFrom_blank (s : jsstring) (i : Z) :
  isBlank s = true -> searchNonSpaceFrom s i = (-1)%Z.
Proof.
  revert i. induction s as [|c r IH]; simpl; intros i H; [reflexivity|].
  apply andb_true_iff in H as [Hc Hr]. rewrite Hc. now apply IH.
Qed.

Lemma searchNonSpaceFrom_indentation (s : jsstring) (i : Z) :
  isBlank s = false ->
  searchNonSpaceFrom s i = (i + Z.of_nat (indentation s))%Z.
Proof.
  revert i. induction s as [|c r IH]; simpl; intros i H; [discriminate|].
  destruct (isWhiteSpace c); simpl in H.
  - rewrite IH by assumption. lia.
  - lia.
Qed.

(** [search(/\S/)] is the indentation of a line that is not blank. *)
Lemma searchNonSpace_indentation (s : jsstring) :
  isBlank s = false -> searchNonSpace s = Z.of_nat (indentation s).
Proof.
  intros H. unfold searchNonSpace. now rewrite searchNonSpaceFrom_indentation.
Qed.

Lemma endsWith_nonempty_not_blank (p s : jsstring) :
  p <> [] -> endsWith p (trim s) = true -> isBlank s = false.
Proof.
  intros Hp H. destruct (isBlank s) eqn:E; [|reflexivity].
  apply trim_nil in E. rewrite E in H. unfold endsWith in H. simpl in H.
  destruct (rev p) eqn:R; [|discriminate].
  apply (f_equal (@rev char)) in R. rewrite rev_involutive in R. contradiction.
Qed.

End StringFacts.

(** ** The brace counter *)

Section BraceCounting.

(** Contribution of one code unit to the depth. *)
Let step (c : char) : Z :=
  if (c =? LBRACE)%N then 1%Z else if (c =? RBRACE)%N then (-1)%Z else 0%Z.

Lemma occurrences_nil (c : char) : occurrences c [] = 0%Z.
Proof. reflexivity. Qed.

Lemma occurrences_cons (c x : char) (s : jsstring) :
  occurrences c (x :: s) = ((if (x =? c)%N then 1 else 0) + occurrences c s)%Z.
Proof.
  unfold occurrences. simpl.
  destruct (N.eq_dec x c) as [->|Hne].
  - rewrite N.eqb_refl. lia.
  - apply N.eqb_neq in Hne. rewrite Hne. lia.
Qed.

Lemma occurrences_app (c : char) (s t : jsstring) :
  occurrences c (s ++ t) = (occurrences c s + occurrences c t)%Z.
Proof. unfold occurrences. now rewrite count_occ_app, Nat2Z.inj_add. Qed.

Lemma occurrences_nonneg (c : char) (s : jsstring) : (0 <= occurrences c s)%Z.
Proof. unfold occurrences. lia. Qed.

Lemma includes_occurrences (c : char) (s : jsstring) :
  includes c s = (0 <? occurrences c s)%Z.
Proof.
  induction s as [|x r IH]; [reflexivity|].
  rewrite occurrences_cons. unfold includes in *. simpl. rewrite IH.
  rewrite (N.eqb_sym c x). pose proof (occurrences_nonneg c r).
  destruct (x =? c)%N; cbn [orb].
  - symmetry. apply Z.ltb_lt. lia.
  - reflexivity.
Qed.

Lemma nesting_cons (c : char) (s : jsstring) :
  nesting (c :: s) = (step c + nesting s)%Z.
Proof.
  unfold nesting, step. rewrite !occurrences_cons.
  destruct (c =? LBRACE)%N eqn:E1.
  - apply N.eqb_eq in E1. subst c.
    change (LBRACE =? RBRACE)%N with false. cbv iota. lia.
  - destruct (c =? RBRACE)%N; cbv iota; lia.
Qed.

Lemma nesting_app (s t : jsstring) : nesting (s ++ t) = (nesting s + nesting t)%Z.
Proof. unfold nesting. rewrite !occurrences_app. lia. Qed.

(** The first loop of [findFunctionBody] counts the opening braces. *)
Lemma countOpening_occurrences (l : jsstring) (z : Z) :
  countOpening l z = (z + occurrences LBRACE l)%Z.
Proof.
  revert z. induction l as [|c r IH]; intros z; simpl.
  - rewrite occurrences_nil. lia.
  - rewrite IH, occurrences_cons. destruct (c =? LBRACE)%N; cbv iota; lia.
Qed.

Lemma reachesZero_cons (d : Z) (c : char) (r : jsstring) :
  d <> 0%Z -> (reachesZero d (c :: r) <-> reachesZero (d + step c) r).
Proof.
  intros Hd. split; intros [k [Hk Hz]].
  - destruct k as [|k]; simpl in Hz.
    + unfold nesting in Hz. rewrite !occurrences_nil in Hz. lia.
    + rewrite nesting_cons in Hz. exists k. simpl in Hk. split; [lia|lia].
  - exists (S k). simpl. rewrite nesting_cons. split; [lia|lia].
Qed.

Lemma reachesZero_here (l : jsstring) : reachesZero 0 l.
Proof. exists 0. simpl. split; [lia|reflexivity]. Qed.

(** The inner loop of the closing search computes the depth after the line,
    or 0 as soon as the depth is 0 inside the line. *)
Lemma countBraces_spec (l : jsstring) (d : Z) :
  (0 < d)%Z ->
  (reachesZero d l -> countBraces l d = 0%Z) /\
  (~ reachesZero d l ->
   countBraces l d = (d + nesting l)%Z /\ (0 < d + nesting l)%Z).
Proof.
  revert d. induction l as [|c r IH]; intros d Hd.
  - split.
    + intros [k [Hk Hz]]. destruct k; simpl in Hz;
        unfold nesting in Hz; rewrite !occurrences_nil in Hz; lia.
    + intros _. simpl. unfold nesting. rewrite !occurrences_nil. lia.
  - assert (Hcons := @reachesZero_cons d c r ltac:(lia)).
    rewrite nesting_cons. simpl. unfold step in *.
    destruct (c =? LBRACE)%N.
    + destruct (IH (d + 1)%Z ltac:(lia)) as [Hz Hp].
      split; intros H.
      * apply Hz, Hcons, H.
      * destruct Hp as [E P]; [intros R; apply H, Hcons, R|]. split; lia.
    + destruct (c =? RBRACE)%N.
      * destruct (d - 1 =? 0)%Z eqn:E0.
        -- apply Z.eqb_eq in E0. split; [intros _; exact E0|].
           intros H. exfalso. apply H, Hcons.
           replace (d + -1)%Z with 0%Z by lia. apply reachesZero_here.
        -- apply Z.eqb_neq in E0.
           destruct (IH (d - 1)%Z ltac:(lia)) as [Hz Hp].
           replace (d + -1)%Z with (d - 1)%Z in Hcons by lia.
           split; intros H.
           ++ apply Hz, Hcons, H.
           ++ destruct Hp as [E P]; [intros R; apply H, Hcons, R|]. split; lia.
      * destruct (IH d Hd) as [Hz Hp].
        replace (d + 0)%Z with d in Hcons by lia.
        split; intros H.
        -- apply Hz, Hcons, H.
        -- destruct Hp as [E P]; [intros R; apply H, Hcons, R|]. split; lia.
Qed.

Lemma terminated_cons (l : jsstring) (ls : list jsstring) :
  terminated (l :: ls) = l ++ [NL] ++ terminated ls.
Proof. unfold terminated. simpl. now rewrite <- app_assoc. Qed.

Lemma terminated_app (xs ys : list jsstring) :
  terminated (xs ++ ys) = terminated xs ++ terminated ys.
Proof. unfold terminated. now rewrite map_app, concat_app. Qed.

Lemma depthBefore_cons (d : Z) (l : jsstring) (rest : list jsstring) (k : nat) :
  depthBefore d (l :: rest) (S k) = depthBefore (d + nesting l) rest k.
Proof. unfold depthBefore. simpl. rewrite nesting_app. lia. Qed.

Lemma depthBefore_0 (d : Z) (rest : list jsstring) : depthBefore d rest 0 = d.
Proof. unfold depthBefore. simpl. unfold nesting. rewrite !occurrences_nil. lia. Qed.

Lemma closesWithin_0 (d : Z) (l : jsstring) (rest : list jsstring) :
  closesWithin d (l :: rest) 0 <-> reachesZero d l.
Proof.
  unfold closesWithin. rewrite depthBefore_0. simpl. split.
  - intros [[l' [E R]] _]. now inversion E; subst.
  - intros R. split; [now exists l|]. intros m l' Hm. lia.
Qed.

Lemma closesWithin_S (d : Z) (l : jsstring) (rest : list jsstring) (k : nat) :
  closesWithin d (l :: rest) (S k) <->
  ~ reachesZero d l /\ closesWithin (d + nesting l) rest k.
Proof.
  unfold closesWithin. split.
  - intros [[l' [E R]] Hfirst]. simpl in E. rewrite depthBefore_cons in R.
    split; [|split].
    + intros R0. apply (Hfirst 0 l); [lia|reflexivity|]. now rewrite depthBefore_0.
    + now exists l'.
    + intros m lm Hm Em. rewrite <- depthBefore_cons.
      apply (Hfirst (S m) lm); [lia|exact Em].
  - intros [Hn [[l' [E R]] Hfirst]]. split.
    + exists l'. simpl. rewrite depthBefore_cons. now split.
    + intros [|m] lm Hm Em; simpl in Em.
      * inversion Em; subst. now rewrite depthBefore_0.
      * rewrite depthBefore_cons. apply (Hfirst m lm); [lia|exact Em].
Qed.

(** The closing search does nothing once the counter is not positive. *)
Lemma seekClosing_done (rest : list jsstring) (i : nat) (st : bodyState) :
  (bsBraceCount st <= 0)%Z -> seekClosing rest i st = st.
Proof.
  intros H. destruct rest as [|l rest]; simpl; [reflexivity|].
  destruct (bsBraceCount st >? 0)%Z eqn:E; [|reflexivity].
  apply Z.gtb_lt in E. lia.
Qed.

(** The closing search stops on the line where the counter first returns to
    zero, having appended every line up to it. *)
Lemma seekClosing_closes (rest : list jsstring) (i k : nat) (st : bodyState) :
  (0 < bsBraceCount st)%Z ->
  closesWithin (bsBraceCount st) rest k ->
  bsBody (seekClosing rest i st) = bsBody st ++ terminated (firstn (S k) rest) /\
  bsEndLine (seekClosing rest i st) = i + k.
Proof.
  revert i k st. induction rest as [|l rest IH]; intros i k st Hd Hc.
  - destruct Hc as [[l [E _]] _]. destruct k; discriminate.
  - simpl. destruct (bsBraceCount st >? 0)%Z eqn:E; [|rewrite Z.gtb_ltb in E; apply Z.ltb_ge in E; lia].
    destruct (countBraces_spec l Hd) as [Hz Hp].
    destruct k as [|k].
    + apply closesWithin_0 in Hc. rewrite seekClosing_done by (simpl; rewrite Hz; [lia|assumption]).
      simpl. unfold terminated. simpl. rewrite app_nil_r. split; [reflexivity|lia].
    + apply closesWithin_S in Hc as [Hn Hc]. destruct (Hp Hn) as [Ecount Hpos].
      edestruct (IH (S i) k) as [Hb He]; [| |rewrite Hb, He].
      * simpl. lia.
      * simpl. rewrite Ecount. exact Hc.
      * simpl. rewrite (terminated_cons l). rewrite <- !app_assoc. split; [reflexivity|lia].
Qed.

(** Without such a line the closing search runs to the end of the buffer. *)
Lemma seekClosing_exhausts (rest : list jsstring) (i : nat) (st : bodyState) :
  (0 < bsBraceCount st)%Z ->
  (forall k, ~ closesWithin (bsBraceCount st) rest k) ->
  bsBody (seekClosing rest i st) = bsBody st ++ terminated rest /\
  bsEndLine (seekClosing rest i st) =
    match rest with [] => bsEndLine st | _ :: _ => i + length rest - 1 end.
Proof.
  revert i st. induction rest as [|l rest IH]; intros i st Hd Hc.
  - simpl. unfold terminated. simpl. now rewrite app_nil_r.
  - simpl. destruct (bsBraceCount st >? 0)%Z eqn:E; [|rewrite Z.gtb_ltb in E; apply Z.ltb_ge in E; lia].
    destruct (countBraces_spec l Hd) as [_ Hp].
    assert (Hn : ~ reachesZero (bsBraceCount st) l).
    { intros R. apply (Hc 0). now apply closesWithin_0. }
    destruct (Hp Hn) as [Ecount Hpos].
    edestruct (IH (S i)) as [Hb He]; [| |rewrite Hb, He].
    + simpl. lia.
    + simpl. rewrite Ecount. intros k Hk. apply (Hc (S k)).
      apply closesWithin_S. now split.
    + simpl. rewrite (terminated_cons l), <- !app_assoc.
      split; [reflexivity|]. destruct rest; simpl; lia.
Qed.

End BraceCounting.

(** ** Lines of a buffer *)

Section Lines.

Variable lines : list jsstring.

Lemma skipn_nth_error (n : nat) (l : jsstring) :
  nth_error lines n = Some l -> skipn n lines = l :: skipn (S n) lines.
Proof.
  revert n. induction lines as [|x xs IH]; intros [|n] H; try discriminate.
  - now inversion H.
  - simpl in *. now apply IH.
Qed.

Lemma firstn_plus (a b : nat) (ls : list jsstring) :
  firstn (a + b) ls = firstn a ls ++ firstn b (skipn a ls).
Proof.
  revert ls. induction a as [|a IH]; intros [|x xs]; simpl; try reflexivity.
  - now destruct b.
  - now rewrite IH.
Qed.

Lemma span_from (h e : nat) (l : jsstring) :
  nth_error lines h = Some l -> h <= e ->
  span lines h e = l :: firstn (e - h) (skipn (S h) lines).
Proof.
  intros H Hle. unfold span. rewrite (skipn_nth_error _ H).
  replace (e + 1 - h) with (S (e - h)) by lia. reflexivity.
Qed.

Lemma span_to_end (h : nat) :
  h < length lines -> span lines h (length lines - 1) = skipn h lines.
Proof.
  intros H. unfold span. apply firstn_all2. rewrite length_skipn. lia.
Qed.

End Lines.

(** ** The body collector of the brace languages *)

Section BraceBody.

(** What [seekOpening] appends is a prefix of the lines it is given. *)
Lemma seekOpening_prefix (rest : list jsstring) (i : nat) (st : bodyState) :
  exists n, n <= length rest /\
    bsBody (seekOpening rest i st) = bsBody st ++ terminated (firstn n rest) /\
    bsEndLine (seekOpening rest i st) =
      match n with 0 => bsEndLine st | S n' => i + n' end.
Proof.
  revert i st. induction rest as [|l rest IH]; intros i st.
  - exists 0. simpl. unfold terminated. simpl. rewrite app_nil_r. auto.
  - simpl. destruct (includes LBRACE l).
    + exists 1. simpl. unfold terminated. simpl. rewrite app_nil_r.
      repeat split; try reflexivity; lia.
    + destruct (IH (S i) {| bsBody := bsBody st ++ l ++ [NL];
                            bsBraceCount := bsBraceCount st;
                            bsEndLine := i |}) as [n [Hn [Hb He]]].
      exists (S n). rewrite Hb, He. simpl. rewrite terminated_cons, <- !app_assoc.
      repeat split; try reflexivity; destruct n; lia.
Qed.

(** And so is what [seekClosing] appends. *)
Lemma seekClosing_prefix (rest : list jsstring) (i : nat) (st : bodyState) :
  exists n, n <= length rest /\
    bsBody (seekClosing rest i st) = bsBody st ++ terminated (firstn n rest) /\
    bsEndLine (seekClosing rest i st) =
      match n with 0 => bsEndLine st | S n' => i + n' end.
Proof.
  revert i st. induction rest as [|l rest IH]; intros i st.
  - exists 0. simpl. unfold terminated. simpl. rewrite app_nil_r. auto.
  - simpl. destruct (bsBraceCount st >? 0)%Z.
    + destruct (IH (S i) {| bsBody := bsBody st ++ l ++ [NL];
                            bsBraceCount := countBraces l (bsBraceCount st);
                            bsEndLine := i |}) as [n [Hn [Hb He]]].
      exists (S n). rewrite Hb, He. simpl. rewrite terminated_cons, <- !app_assoc.
      repeat split; try reflexivity; destruct n; lia.
    + exists 0. simpl. unfold terminated. simpl. rewrite app_nil_r.
      repeat split; try reflexivity; lia.
Qed.

(** [seekOpening] stops on the first line with an opening brace and starts
    the counter with the number of opening braces of that line. *)
Lemma seekOpening_finds (rest : list jsstring) (i j : nat) (l : jsstring)
    (st : bodyState) :
  bsBraceCount st = 0%Z ->
  nth_error rest j = Some l ->
  (0 < occurrences LBRACE l)%Z ->
  (forall m lm, m < j -> nth_error rest m = Some lm -> occurrences LBRACE lm = 0%Z) ->
  bsBraceCount (seekOpening rest i st) = occurrences LBRACE l /\
  bsEndLine (seekOpening rest i st) = i + j.
Proof.
  revert i j st. induction rest as [|x rest IH]; intros i j st H0 Hj Hl Hfirst.
  - destruct j; discriminate.
  - simpl. rewrite includes_occurrences. destruct j as [|j]; simpl in Hj.
    + inversion Hj; subst x. apply Z.ltb_lt in Hl. rewrite Hl. simpl.
      rewrite countOpening_occurrences, H0. split; lia.
    + rewrite (Hfirst 0 x) by (lia || reflexivity). simpl.
      destruct (IH (S i) j {| bsBody := bsBody st ++ x ++ [NL];
                              bsBraceCount := bsBraceCount st;
                              bsEndLine := i |}) as [Hc He]; try assumption.
      * intros m lm Hm Em. apply (Hfirst (S m) lm); [lia|exact Em].
      * rewrite Hc, He. split; [reflexivity|lia].
Qed.

(** Without such a line it runs to the end of the buffer and the counter
    stays at zero. *)
Lemma seekOpening_misses (rest : list jsstring) (i : nat) (st : bodyState) :
  (forall m lm, nth_error rest m = Some lm -> occurrences LBRACE lm = 0%Z) ->
  bsBraceCount (seekOpening rest i st) = bsBraceCount st /\
  bsEndLine (seekOpening rest i st) =
    match rest with [] => bsEndLine st | _ :: _ => i + length rest - 1 end.
Proof.
  revert i st. induction rest as [|x rest IH]; intros i st Hnone; [now simpl|].
  simpl. rewrite includes_occurrences, (Hnone 0 x) by reflexivity. simpl.
  destruct (IH (S i) {| bsBody := bsBody st ++ x ++ [NL];
                        bsBraceCount := bsBraceCount st;
                        bsEndLine := i |}) as [Hc He].
  - intros m lm Em. apply (Hnone (S m) lm Em).
  - rewrite Hc, He. split; [reflexivity|]. destruct rest; simpl; lia.
Qed.

(** Either some line carries an opening brace, and then there is a first
    one, or none does. *)
Lemma first_opening (rest : list jsstring) :
  (exists j l, nth_error rest j = Some l /\ (0 < occurrences LBRACE l)%Z /\
     forall m lm, m < j -> nth_error rest m = Some lm -> occurrences LBRACE lm = 0%Z)
  \/ (forall m lm, nth_error rest m = Some lm -> occurrences LBRACE lm = 0%Z).
Proof.
  induction rest as [|x rest IH].
  - right. intros [|m] lm E; discriminate.
  - pose proof (occurrences_nonneg LBRACE x) as Hx.
    destruct (Z.eq_dec (occurrences LBRACE x) 0) as [E0|Epos].
    + destruct IH as [[j [l [Ej [Hl Hfirst]]]]|Hnone].
      * left. exists (S j), l. repeat split; try assumption.
        intros [|m] lm Hm Em; simpl in Em.
        -- now inversion Em; subst.
        -- apply (Hfirst m lm); [lia|exact Em].
      * right. intros [|m] lm Em; simpl in Em.
        -- now inversion Em; subst.
        -- now apply (Hnone m lm).
    + left. exists 0, x. repeat split; [lia|]. intros m lm Hm. lia.
Qed.

End BraceBody.

Section FindFunctionBody.

Variable document : TextDocument.
Let lines := linesOf document.

(** The state after the header line and the search for an opening brace. *)
Let opened (h : nat) (hdr : jsstring) : bodyState :=
  let st := {| bsBody := hdr ++ [NL];
               bsBraceCount := countOpening hdr 0;
               bsEndLine := h |} in
  if (bsBraceCount st =? 0)%Z
  then seekOpening (skipn (h + 1) lines) (h + 1) st
  else st.

Lemma findFunctionBody_unfold (h : nat) (hdr : jsstring) :
  nth_error lines h = Some hdr ->
  findFunctionBody document h =
    let st := opened h hdr in
    let st' := seekClosing (skipn (bsEndLine st + 1) lines) (bsEndLine st + 1) st in
    Returned (bsBody st', h, bsEndLine st').
Proof.
  intros H. unfold findFunctionBody. fold lines. rewrite H. reflexivity.
Qed.

Lemma findFunctionBody_throws (h : nat) :
  nth_error lines h = None -> findFunctionBody document h = Thrown.
Proof.
  intros H. unfold findFunctionBody. fold lines. now rewrite H.
Qed.

Lemma opened_prefix (h : nat) (hdr : jsstring) :
  exists n, n <= length (skipn (h + 1) lines) /\
    bsBody (opened h hdr) = hdr ++ [NL] ++ terminated (firstn n (skipn (h + 1) lines)) /\
    bsEndLine (opened h hdr) = h + n.
Proof.
  unfold opened. cbn [bsBraceCount].
  destruct (countOpening hdr 0 =? 0)%Z.
  - destruct (seekOpening_prefix (skipn (h + 1) lines) (h + 1)
                {| bsBody := hdr ++ [NL];
                   bsBraceCount := countOpening hdr 0;
                   bsEndLine := h |}) as [n [Hn [Hb He]]].
    exists n. rewrite Hb, He. cbn [bsBody bsEndLine]. rewrite <- app_assoc.
    repeat split; try reflexivity; destruct n; lia.
  - exists 0. cbn. repeat split; try reflexivity; lia.
Qed.

(** The collector returns the header line as [startLine], an [endLine] in
    the buffer at or below it, and as [body] the text of the lines in
    between, each newline-terminated. *)
Theorem findFunctionBody_span (h : nat) (b : jsstring) (s e : nat) :
  findFunctionBody document h = Returned (b, s, e) ->
  s = h /\ h <= e < length lines /\ b = terminated (span lines h e).
Proof.
  destruct (nth_error lines h) as [hdr|] eqn:Hh;
    [|rewrite findFunctionBody_throws by assumption; discriminate].
  rewrite (findFunctionBody_unfold _ Hh). cbv zeta.
  destruct (opened_prefix h hdr) as [n1 [Hn1 [Hb1 He1]]].
  destruct (seekClosing_prefix (skipn (bsEndLine (opened h hdr) + 1) lines)
              (bsEndLine (opened h hdr) + 1) (opened h hdr)) as [n2 [Hn2 [Hb2 He2]]].
  intros R. injection R as Rb Rs Re. subst b s e.
  assert (Hlen : h < length lines) by (apply nth_error_Some; congruence).
  rewrite length_skipn in Hn1, Hn2.
  assert (Ee : bsEndLine
                 (seekClosing (skipn (bsEndLine (opened h hdr) + 1) lines)
                    (bsEndLine (opened h hdr) + 1) (opened h hdr)) = h + (n1 + n2)).
  { rewrite He2. destruct n2; lia. }
  rewrite Ee. split; [reflexivity|]. split; [lia|].
  rewrite Hb2, Hb1, He1.
  rewrite (@span_from lines h (h + (n1 + n2)) hdr Hh) by lia.
  replace (h + (n1 + n2) - h) with (n1 + n2) by lia.
  rewrite firstn_plus, skipn_skipn, terminated_cons, terminated_app.
  replace (S h) with (h + 1) by lia. replace (n1 + (h + 1)) with (h + n1 + 1) by lia.
  now rewrite <- !app_assoc.
Qed.

(** Where the opening search leaves the counter and [endLine], given the
    first line [o] at or below the header that has an opening brace. *)
Lemma opened_at (h o : nat) (hdr : jsstring) :
  nth_error lines h = Some hdr ->
  openingLine lines h o ->
  exists l, nth_error lines o = Some l /\
    bsBraceCount (opened h hdr) = occurrences LBRACE l /\
    bsEndLine (opened h hdr) = o.
Proof.
  intros Hh [Hle [[l [Ho Hl]] Hfirst]]. exists l. split; [exact Ho|].
  unfold opened. cbn [bsBraceCount]. rewrite countOpening_occurrences.
  destruct (Nat.eq_dec o h) as [->|Hne].
  - rewrite Hh in Ho. inversion Ho; subst l.
    destruct (0 + occurrences LBRACE hdr =? 0)%Z eqn:E.
    + apply Z.eqb_eq in E. lia.
    + cbn. split; [lia|reflexivity].
  - rewrite (Hfirst h hdr) by (lia || assumption). cbn [Z.add Z.eqb].
    destruct (@seekOpening_finds (skipn (h + 1) lines) (h + 1) (o - h - 1) l
                {| bsBody := hdr ++ [NL]; bsBraceCount := 0; bsEndLine := h |})
      as [Hc He]; try reflexivity; try assumption.
    + rewrite nth_error_skipn. replace (h + 1 + (o - h - 1)) with o by lia. exact Ho.
    + intros m lm Hm Em. rewrite nth_error_skipn in Em.
      apply (Hfirst (h + 1 + m) lm); [lia|exact Em].
    + rewrite Hc, He. split; [reflexivity|lia].
Qed.

(** Without any opening brace at or below the header the counter stays at
    zero and [endLine] is the last line of the buffer. *)
Lemma opened_nowhere (h : nat) (hdr : jsstring) :
  nth_error lines h = Some hdr ->
  (forall o, ~ openingLine lines h o) ->
  bsBraceCount (opened h hdr) = 0%Z /\
  bsEndLine (opened h hdr) = length lines - 1.
Proof.
  intros Hh Hnone.
  assert (Hlen : h < length lines) by (apply nth_error_Some; congruence).
  assert (Hall : forall m lm, h <= m -> nth_error lines m = Some lm ->
                              occurrences LBRACE lm = 0%Z).
  { intros m. induction m as [m IHm] using lt_wf_ind. intros lm Hm Em.
    pose proof (occurrences_nonneg LBRACE lm) as Hnn.
    destruct (Z.eq_dec (occurrences LBRACE lm) 0) as [E|E]; [exact E|].
    exfalso. apply (Hnone m). split; [exact Hm|]. split.
    - exists lm. split; [exact Em|lia].
    - intros k lk Hk Ek. apply (IHm k); [lia|lia|exact Ek]. }
  unfold opened. cbn [bsBraceCount]. rewrite countOpening_occurrences.
  rewrite (Hall h hdr) by (lia || assumption). cbn [Z.add Z.eqb].
  destruct (@seekOpening_misses (skipn (h + 1) lines) (h + 1)
              {| bsBody := hdr ++ [NL]; bsBraceCount := 0; bsEndLine := h |})
    as [Hc He].
  - intros m lm Em. rewrite nth_error_skipn in Em.
    apply (Hall (h + 1 + m) lm); [lia|exact Em].
  - rewrite Hc, He. split; [reflexivity|].
    pose proof (length_skipn (h + 1) lines) as Hs.
    destruct (skipn (h + 1) lines); cbn in *; lia.
Qed.

(** When the braces opened at or below the header are closed on line [e],
    the collector stops there. *)
Theorem findFunctionBody_closes (h e : nat) :
  h < length lines ->
  bracesClose lines h e ->
  findFunctionBody document h = Returned (terminated (span lines h e), h, e).
Proof.
  intros Hlen [o [Hopen Hclose]].
  destruct (nth_error lines h) as [hdr|] eqn:Hh;
    [|apply nth_error_None in Hh; lia].
  destruct (opened_at Hh Hopen) as [l [Ho [Hc He]]].
  destruct Hclose as [l' [Ho' [Hpos [Hoe Hwithin]]]].
  rewrite Ho in Ho'. inversion Ho'; subst l'. clear Ho'.
  destruct (@seekClosing_closes (skipn (o + 1) lines) (o + 1) (e - o - 1) (opened h hdr))
    as [_ Hend]; [rewrite Hc; exact Hpos|rewrite Hc; exact Hwithin|].
  destruct (findFunctionBody document h) as [[[b s] e']|] eqn:F.
  - destruct (findFunctionBody_span _ F) as [Es [_ Eb]].
    rewrite (findFunctionBody_unfold _ Hh) in F. cbv zeta in F.
    rewrite He in F. injection F as Fb Fs Fe. rewrite Hend in Fe.
    subst s. rewrite Eb. repeat f_equal; lia.
  - rewrite (findFunctionBody_unfold _ Hh) in F. discriminate.
Qed.

(** When they are closed nowhere, the collector runs to the end of the
    buffer. *)
Theorem findFunctionBody_exhausts (h : nat) :
  h < length lines ->
  (forall e, ~ bracesClose lines h e) ->
  findFunctionBody document h =
    Returned (terminated (skipn h lines), h, length lines - 1).
Proof.
  intros Hlen Hnever.
  destruct (nth_error lines h) as [hdr|] eqn:Hh;
    [|apply nth_error_None in Hh; lia].
  assert (Hend : bsEndLine
            (seekClosing (skipn (bsEndLine (opened h hdr) + 1) lines)
               (bsEndLine (opened h hdr) + 1) (opened h hdr)) = length lines - 1).
  { destruct (first_opening (skipn h lines)) as [[j [l [Ej [Hl Hfirst]]]]|Hnone].
    - rewrite nth_error_skipn in Ej.
      assert (Hopen : openingLine lines h (h + j)).
      { split; [lia|]. split; [now exists l|].
        intros m lm Hm Em. apply (Hfirst (m - h) lm); [lia|].
        rewrite nth_error_skipn. now replace (h + (m - h)) with m by lia. }
      destruct (opened_at Hh Hopen) as [l' [Ho [Hc He]]].
      rewrite Ej in Ho. inversion Ho; subst l'. clear Ho.
      assert (Ho : h + j < length lines) by (apply nth_error_Some; congruence).
      destruct (@seekClosing_exhausts (skipn (h + j + 1) lines) (h + j + 1) (opened h hdr))
        as [_ Hx].
      + rewrite Hc. exact Hl.
      + rewrite Hc. intros k Hk. apply (Hnever (h + j + 1 + k)).
        exists (h + j). split; [exact Hopen|]. exists l.
        split; [exact Ej|]. split; [exact Hl|]. split; [lia|].
        now replace (h + j + 1 + k - (h + j) - 1) with k by lia.
      + rewrite He, Hx, He.
        pose proof (length_skipn (h + j + 1) lines) as Hs.
        destruct (skipn (h + j + 1) lines); cbn in *; lia.
    - destruct (@opened_nowhere h hdr Hh) as [Hc He].
      + intros o [Hle [[l [Eo Hl]] _]].
        rewrite (Hnone (o - h) l) in Hl; [lia|].
        rewrite nth_error_skipn. now replace (h + (o - h)) with o by lia.
      + rewrite seekClosing_done by lia. exact He. }
  destruct (findFunctionBody document h) as [[[b s] e']|] eqn:F.
  - destruct (findFunctionBody_span _ F) as [Es [_ Eb]].
    rewrite (findFunctionBody_unfold _ Hh) in F. cbv zeta in F.
    injection F as Fb Fs Fe. rewrite Hend in Fe. subst s e'.
    rewrite Eb, span_to_end by assumption. reflexivity.
  - rewrite (findFunctionBody_unfold _ Hh) in F. discriminate.
Qed.

End FindFunctionBody.

(** ** The upward scan *)

Section ScanUpward.

Context {A : Type}.
Variable visit : nat -> outcome (option A).

Lemma scanUpward_none (i n : nat) :
  (forall j, inWindow i n j -> visit j = Returned None) ->
  scanUpward visit i n = Returned None.
Proof.
  revert i. induction n as [|n IH]; intros i H; simpl.
  - rewrite (H i) by (unfold inWindow; lia). reflexivity.
  - rewrite (H i) by (unfold inWindow; lia). simpl.
    destruct i as [|i]; [reflexivity|].
    apply IH. intros j Hj. apply H. unfold inWindow in *. lia.
Qed.

Lemma scanUpward_found (i n j : nat) (r : A) :
  inWindow i n j ->
  visit j = Returned (Some r) ->
  (forall j', j < j' <= i -> visit j' = Returned None) ->
  scanUpward visit i n = Returned (Some r).
Proof.
  revert i. induction n as [|n IH]; intros i Hj Hv Hnone; unfold inWindow in Hj.
  - assert (j = i) by lia. subst j. simpl. rewrite Hv. reflexivity.
  - simpl. destruct (Nat.eq_dec j i) as [->|Hne].
    + rewrite Hv. reflexivity.
    + rewrite (Hnone i) by lia. simpl. destruct i as [|i]; [lia|].
      apply IH; [unfold inWindow; lia|exact Hv|].
      intros j' Hj'. apply Hnone. lia.
Qed.

(** What a finished scan says about the lines it visited. *)
Lemma scanUpward_inv (i n : nat) (res : option A) :
  scanUpward visit i n = Returned res ->
  match res with
  | None => forall j, inWindow i n j -> visit j = Returned None
  | Some r => exists j, inWindow i n j /\ visit j = Returned (Some r) /\
                        forall j', j < j' <= i -> visit j' = Returned None
  end.
Proof.
  revert i. induction n as [|n IH]; intros i; simpl.
  - destruct (visit i) as [[r|]|] eqn:V; simpl; intros R; inversion R; subst.
    + exists i. unfold inWindow. repeat split; first [assumption | intros; lia].
    + intros j Hj. unfold inWindow in Hj. now replace j with i by lia.
  - destruct (visit i) as [[r|]|] eqn:V; simpl; try discriminate.
    + intros R. inversion R; subst. exists i. unfold inWindow.
      repeat split; first [assumption | intros; lia].
    + destruct i as [|i].
      * intros R. inversion R; subst. intros j Hj. unfold inWindow in Hj.
        now replace j with 0 by lia.
      * intros R. specialize (IH i R). destruct res as [r|].
        -- destruct IH as [j [Hj [Hv Hnone]]]. exists j. unfold inWindow in *.
           split; [lia|]. split; [assumption|].
           intros j' Hj'. destruct (Nat.eq_dec j' (S i)) as [->|Hne];
             [exact V|apply Hnone; lia].
        -- intros j Hj. unfold inWindow in *.
           destruct (Nat.eq_dec j (S i)) as [->|Hne]; [exact V|apply IH; lia].
Qed.

Lemma scanUpward_returns (i n : nat) :
  (forall j, j <= i -> visit j <> Thrown) ->
  scanUpward visit i n <> Thrown.
Proof.
  revert i. induction n as [|n IH]; intros i H; simpl.
  - specialize (H i (le_n i)). destruct (visit i) as [[r|]|]; simpl; congruence.
  - pose proof (H i (le_n i)) as Hi.
    destruct (visit i) as [[r|]|]; simpl; try congruence.
    destruct i as [|i]; [congruence|]. apply IH. intros j Hj. apply H. lia.
Qed.

End ScanUpward.

(** ** The documentation finder never throws below the end of the buffer *)

Section DocumentationReturns.

Variable lines : list jsstring.

Lemma skipBlankAbove_returns (n : nat) :
  n <= length lines ->
  exists stop, skipBlankAbove lines n = Returned stop /\
               forall k, stop = Some k -> k < n.
Proof.
  induction n as [|n IH]; intros Hn; simpl.
  - exists None. split; [reflexivity|discriminate].
  - destruct (nth_error lines n) as [l|] eqn:E;
      [|apply nth_error_None in E; lia].
    simpl. destruct (jsstring_eqb (trim l) []).
    + destruct IH as [stop [Hs Hk]]; [lia|]. exists stop. split; [exact Hs|].
      intros k Ek. specialize (Hk k Ek). lia.
    + exists (Some n). split; [reflexivity|]. intros k Ek. inversion Ek. lia.
Qed.

Lemma collectDocAbove_returns (n : nat) (docLines : list jsstring) :
  n <= length lines ->
  exists doc, collectDocAbove lines n docLines = Returned doc.
Proof.
  revert docLines. induction n as [|n IH]; intros docLines Hn; simpl.
  - now exists None.
  - destruct (nth_error lines n) as [l|] eqn:E;
      [|apply nth_error_None in E; lia].
    simpl. destruct (startsWith (lit "/**") (trim l)).
    + eexists. reflexivity.
    + apply IH. lia.
Qed.

End DocumentationReturns.

Lemma findExistingDocumentation_returns (document : TextDocument) (s : nat) :
  s <= length (linesOf document) ->
  exists doc, findExistingDocumentation document s = Returned doc.
Proof.
  intros Hs. unfold findExistingDocumentation.
  destruct (skipBlankAbove_returns (linesOf document) Hs) as [stop [E Hk]].
  rewrite E. cbn [bind]. destruct stop as [k|]; [|now exists None].
  specialize (Hk k eq_refl).
  destruct (nth_error (linesOf document) k) as [l|] eqn:El;
    [|apply nth_error_None in El; lia].
  cbn [bind deref]. destruct (endsWith (lit "*/") (trim l)); [|now exists None].
  apply collectDocAbove_returns. lia.
Qed.

(** ** One line of the scan *)

Section FunctionAt.

Variable document : TextDocument.
Let lines := linesOf document.

(** A line that matches no pattern of the family is passed over. *)
Lemma functionAt_unmatched (f : family) (i : nat) (l : jsstring) :
  nth_error lines i = Some l ->
  signatureMatch f l = None ->
  functionAt f document i = Returned None.
Proof.
  intros Hl Hm. subst lines.
  destruct f; cbn [functionAt signatureMatch] in *.
  - unfold javaScriptFunctionAt. rewrite Hl. cbn [toString]. now rewrite Hm.
  - unfold pythonFunctionAt. rewrite Hl. cbn [toString]. now rewrite Hm.
  - unfold cStyleFunctionAt. rewrite Hl. cbn [toString]. now rewrite Hm.
  - unfold genericFunctionAt, lineAt. rewrite Hl. cbn [deref bind]. now rewrite Hm.
Qed.

(** A line that matches yields a record: the name is the name group of the
    match, the signature the trimmed line, [startLine] the line itself, and
    body, [endLine] and documentation come from the collectors of the
    family. *)
Lemma functionAt_matched (f : family) (i : nat) (l : jsstring) (m : captures) :
  nth_error lines i = Some l ->
  signatureMatch f l = Some m ->
  exists r,
    functionAt f document i = Returned (Some r) /\
    startLine r = i /\
    name r = group m (nameGroup f) /\
    signature r = trim l /\
    match f with
    | PythonFamily =>
        collectIndented (skipn (i + 1) lines) (i + 1) (searchNonSpace l) [] i
          = (body r, endLine r) /\
        existingDocumentation r = findPythonDocstring document i lines
    | _ =>
        findFunctionBody document i = Returned (body r, i, endLine r) /\
        findExistingDocumentation document i = Returned (existingDocumentation r)
    end.
Proof.
  intros Hl Hm.
  assert (Hi : i < length lines) by (apply nth_error_Some; congruence).
  destruct (@findExistingDocumentation_returns document i) as [doc Hdoc];
    [fold lines; lia|].
  pose proof (findFunctionBody_unfold document i Hl) as Hbody. cbv zeta in Hbody.
  subst lines.
  destruct f; cbn [functionAt signatureMatch nameGroup] in *.
  - unfold javaScriptFunctionAt. rewrite Hl. cbn [toString]. rewrite Hm.
    cbn [deref bind]. rewrite Hbody. cbn [bind]. rewrite Hdoc. cbn [bind].
    eexists. split; [reflexivity|]. cbn. auto.
  - unfold pythonFunctionAt. rewrite Hl. cbn [toString]. rewrite Hm.
    cbn [deref bind].
    destruct (collectIndented (skipn (i + 1) (linesOf document)) (i + 1)
                (searchNonSpace l) [] i) as [b e].
    eexists. split; [reflexivity|]. cbn. auto.
  - unfold cStyleFunctionAt. rewrite Hl. cbn [toString]. rewrite Hm.
    cbn [deref bind]. rewrite Hbody. cbn [bind]. rewrite Hdoc. cbn [bind].
    eexists. split; [reflexivity|]. cbn. auto.
  - unfold genericFunctionAt, lineAt. rewrite Hl. cbn [deref bind]. rewrite Hm.
    rewrite Hbody. cbn [bind]. rewrite Hdoc. cbn [bind].
    eexists. split; [reflexivity|]. cbn. auto.
Qed.

(** The scan of a line of the buffer never throws. *)
Lemma functionAt_returns (f : family) (i : nat) :
  i < length lines -> functionAt f document i <> Thrown.
Proof.
  intros Hi. destruct (nth_error lines i) as [l|] eqn:Hl;
    [|apply nth_error_None in Hl; lia].
  destruct (signatureMatch f l) as [m|] eqn:Hm.
  - destruct (functionAt_matched f i Hl Hm) as [r [E _]]. congruence.
  - rewrite (functionAt_unmatched f i Hl Hm). congruence.
Qed.

(** It returns [null] exactly on the lines that match no pattern. *)
Lemma functionAt_none_iff (f : family) (i : nat) :
  i < length lines ->
  (functionAt f document i = Returned None <-> ~ matchesAt f lines i).
Proof.
  intros Hi. destruct (nth_error lines i) as [l|] eqn:Hl;
    [|apply nth_error_None in Hl; lia].
  destruct (signatureMatch f l) as [m|] eqn:Hm.
  - destruct (functionAt_matched f i Hl Hm) as [r [E _]]. split.
    + congruence.
    + intros H. exfalso. apply H. exists l. split; [exact Hl|congruence].
  - split.
    + intros _ [l' [Hl' Hm']]. congruence.
    + intros _. apply (functionAt_unmatched f i Hl Hm).
Qed.

End FunctionAt.

(** ** The dispatch *)

Lemma findFunctionAtPosition_scan (document : TextDocument) (position : Position) :
  line position < length (linesOf document) ->
  findFunctionAtPosition document position =
    scanUpward (functionAt (familyOf (languageId document)) document)
               (line position) (lookback (familyOf (languageId document))).
Proof.
  intros Hc. unfold findFunctionAtPosition, lineAt, familyOf.
  destruct (nth_error (linesOf document) (line position)) as [l|] eqn:Hl;
    [|apply nth_error_None in Hl; lia].
  cbn [deref bind].
  destruct (isLanguage _ ["javascript"; "typescript"; "typescriptreact"; "javascriptreact"]%string);
    [reflexivity|].
  destruct (isLanguage _ ["python"]%string); [reflexivity|].
  destruct (isLanguage _ ["java"; "csharp"; "cpp"; "c"]%string); reflexivity.
Qed.

(** A cursor outside the buffer makes [document.lineAt] throw. *)
Lemma findFunctionAtPosition_outside (document : TextDocument) (position : Position) :
  length (linesOf document) <= line position ->
  findFunctionAtPosition document position = Thrown.
Proof.
  intros Hc. unfold findFunctionAtPosition, lineAt.
  apply nth_error_None in Hc. now rewrite Hc.
Qed.

Section Locate.

Variable document : TextDocument.
Variable position : Position.
Let lines := linesOf document.
Let f := familyOf (languageId document).
Let c := line position.
Hypothesis cursor_in_buffer : c < length lines.

Lemma locate_not_found :
  (forall i, inWindow c (lookback f) i -> ~ matchesAt f lines i) ->
  findFunctionAtPosition document position = Returned None.
Proof.
  intros H. rewrite findFunctionAtPosition_scan by exact cursor_in_buffer.
  apply scanUpward_none. intros j Hj. apply functionAt_none_iff.
  - unfold inWindow in Hj. fold c lines. lia.
  - apply H, Hj.
Qed.

Lemma locate_found (h : nat) (l : jsstring) (m : captures) :
  inWindow c (lookback f) h ->
  nth_error lines h = Some l ->
  signatureMatch f l = Some m ->
  (forall i, h < i <= c -> ~ matchesAt f lines i) ->
  exists r,
    findFunctionAtPosition document position = Returned (Some r) /\
    functionAt f document h = Returned (Some r).
Proof.
  intros Hw Hl Hm Hnone.
  destruct (functionAt_matched document f h Hl Hm) as [r [E _]].
  exists r. split; [|exact E].
  rewrite findFunctionAtPosition_scan by exact cursor_in_buffer.
  apply scanUpward_found with (j := h); [exact Hw|exact E|].
  intros j Hj. apply functionAt_none_iff; [fold lines c; lia|].
  apply Hnone, Hj.
Qed.

Lemma locate_returns : findFunctionAtPosition document position <> Thrown.
Proof.
  rewrite findFunctionAtPosition_scan by exact cursor_in_buffer.
  apply scanUpward_returns. intros j Hj. apply functionAt_returns.
  fold lines c. lia.
Qed.

Lemma locate_inv (res : option FunctionInfo) :
  findFunctionAtPosition document position = Returned res ->
  match res with
  | None => forall i, inWindow c (lookback f) i -> ~ matchesAt f lines i
  | Some r =>
      exists h, inWindow c (lookback f) h /\ matchesAt f lines h /\
                functionAt f document h = Returned (Some r) /\
                forall i, h < i <= c -> ~ matchesAt f lines i
  end.
Proof.
  rewrite findFunctionAtPosition_scan by exact cursor_in_buffer.
  intros R. apply scanUpward_inv in R. destruct res as [r|].
  - destruct R as [h [Hw [E Hnone]]]. exists h.
    assert (Hh : h < length lines) by (unfold inWindow in Hw; fold c in Hw; lia).
    split; [exact Hw|]. split; [|split; [exact E|]].
    + destruct (nth_error lines h) as [l|] eqn:Hl;
        [|apply nth_error_None in Hl; lia].
      exists l. split; [exact Hl|]. intros Hm.
      pose proof (functionAt_unmatched document f h Hl Hm) as U.
      unfold f in U. congruence.
    + intros i Hi. apply functionAt_none_iff; [fold lines c; lia|].
      apply Hnone. exact Hi.
  - intros i Hi. apply functionAt_none_iff.
    + unfold inWindow in Hi. fold lines c. lia.
    + apply R, Hi.
Qed.

End Locate.

(** ** What a match tells about the line *)

Section Matcher.

(** [s] is what is left of [t] after some prefix. *)
Let isSuffix (s t : jsstring) : Prop := exists pre, t = pre ++ s.

Lemma isSuffix_refl (s : jsstring) : isSuffix s s.
Proof. now exists []. Qed.

Lemma isSuffix_trans (s t u : jsstring) : isSuffix s t -> isSuffix t u -> isSuffix s u.
Proof.
  intros [p ->] [q ->]. exists (q ++ p). now rewrite app_assoc.
Qed.

(** A successful match is a success of the continuation on a suffix. *)
Lemma matchAt_continues (r : regex) :
  forall input rest caps k c,
    matchAt r input rest caps k = Some c ->
    exists rest' caps', isSuffix rest' rest /\ k rest' caps' = Some c.
Proof.
  induction r as [| |p|r1 IH1 r2 IH2|r1 IH1 r2 IH2|g r1 IH1|n r1 IH1];
    intros input rest caps k c H; cbn [matchAt] in H.
  - exists rest, caps. split; [apply isSuffix_refl|exact H].
  - destruct (Nat.eqb (length rest) (length input)); [|discriminate].
    exists rest, caps. split; [apply isSuffix_refl|exact H].
  - destruct rest as [|x rest']; [discriminate|].
    destruct (p x); [|discriminate].
    exists rest', caps. split; [now exists [x]|exact H].
  - apply IH1 in H as [rest1 [caps1 [S1 H1]]].
    apply IH2 in H1 as [rest2 [caps2 [S2 H2]]].
    exists rest2, caps2. split; [eapply isSuffix_trans; eassumption|exact H2].
  - unfold orElse in H.
    destruct (matchAt r1 input rest caps k) as [c1|] eqn:E.
    + inversion H; subst c1. now apply IH1 in E.
    + now apply IH2 in H.
  - revert H. generalize (length rest) at 1. intros fuel. revert rest caps.
    induction fuel as [|fuel IHf]; intros rest caps H; cbn [iterate] in H;
      unfold orElse in H.
    + destruct g.
      * exists rest, caps. split; [apply isSuffix_refl|exact H].
      * destruct (k rest caps) as [c1|] eqn:E; [|discriminate].
        exists rest, caps. split; [apply isSuffix_refl|congruence].
    + assert (Hagain :
                matchAt r1 input rest caps
                  (fun rest' caps' =>
                     if Nat.ltb (length rest') (length rest)
                     then iterate (fun rest' caps' k' => matchAt r1 input rest' caps' k')
                            g k fuel rest' caps'
                     else None) = Some c ->
                exists rest' caps', isSuffix rest' rest /\ k rest' caps' = Some c).
      { intros Hc'. apply IH1 in Hc' as [rest1 [caps1 [S1 H1]]].
        destruct (Nat.ltb (length rest1) (length rest)); [|discriminate].
        apply IHf in H1 as [rest2 [caps2 [S2 H2]]].
        exists rest2, caps2. split; [eapply isSuffix_trans; eassumption|exact H2]. }
      destruct g.
      * match type of H with
        | match ?x with _ => _ end = _ => destruct x as [c1|] eqn:E
        end.
        -- inversion H; subst c1. now apply Hagain.
        -- exists rest, caps. split; [apply isSuffix_refl|exact H].
      * destruct (k rest caps) as [c1|] eqn:E.
        -- exists rest, caps. split; [apply isSuffix_refl|congruence].
        -- now apply Hagain.
  - apply IH1 in H as [rest1 [caps1 [S1 H1]]].
    eexists rest1, _. split; [exact S1|exact H1].
Qed.

Lemma matchAt_last_char (r : regex) (a : ascii) (input rest : jsstring)
    (k : jsstring -> captures -> option captures) (c : captures) :
  isSuffix rest input ->
  matchAt (Cat r (chr a)) input rest [] k = Some c ->
  In (N_of_ascii a) input.
Proof.
  intros Hs E. cbn [matchAt] in E.
  apply matchAt_continues in E as [rest1 [caps1 [S1 H1]]].
  unfold chr in H1. cbn [matchAt] in H1.
  destruct rest1 as [|y rest1]; [discriminate|].
  destruct (N.eqb (N_of_ascii a) y) eqn:Ey; [|discriminate].
  apply N.eqb_eq in Ey. subst y.
  destruct (isSuffix_trans S1 Hs) as [pre ->].
  apply in_or_app. right. now left.
Qed.

Lemma execFrom_last_char (r : regex) (a : ascii) (input rest : jsstring)
    (m : captures) :
  isSuffix rest input ->
  execFrom (Cat r (chr a)) input rest = Some m ->
  In (N_of_ascii a) input.
Proof.
  induction rest as [|x rest IH]; intros Hs H; cbn [execFrom] in H.
  - destruct (matchAt (Cat r (chr a)) input [] [] (fun _ caps => Some caps))
      as [c|] eqn:E; [|discriminate].
    eapply matchAt_last_char; eassumption.
  - destruct (matchAt (Cat r (chr a)) input (x :: rest) [] (fun _ caps => Some caps))
      as [c|] eqn:E.
    + eapply matchAt_last_char; eassumption.
    + apply IH; [|exact H]. destruct Hs as [pre ->]. exists (pre ++ [x]).
      now rewrite <- app_assoc.
Qed.

(** When a pattern ends with a literal code unit, a line it matches
    contains that code unit. *)
Lemma exec_last_char (r : regex) (a : ascii) (s : jsstring) (m : captures) :
  exec (Cat r (chr a)) s = Some m -> In (N_of_ascii a) s.
Proof.
  unfold exec. apply execFrom_last_char. apply isSuffix_refl.
Qed.

End Matcher.

Section Headers.

Lemma occurrences_In (c : char) (s : jsstring) : In c s -> (0 < occurrences c s)%Z.
Proof.
  intros H. unfold occurrences. apply (count_occ_In N.eq_dec) in H. lia.
Qed.

(** A line that matches the [def] pattern holds a colon, so it is not
    blank. *)
Lemma python_header_not_blank (l : jsstring) (m : captures) :
  exec pythonPattern l = Some m -> isBlank l = false.
Proof.
  intros H. unfold pythonPattern in H. apply exec_last_char in H.
  destruct (isBlank l) eqn:E; [|reflexivity].
  unfold isBlank in E. rewrite forallb_forall in E. specialize (E _ H).
  discriminate.
Qed.

Lemma firstMatch_In (c : char) (patterns : list regex) (l : jsstring) (m : captures) :
  Forall (fun r => forall m', exec r l = Some m' -> In c l) patterns ->
  firstMatch patterns l = Some m -> In c l.
Proof.
  unfold firstMatch. induction 1 as [|r rs Hr _ IH]; [discriminate|].
  fold firstMatch in *. destruct (exec r l) as [m'|] eqn:E; [|exact IH].
  intros _. now apply (Hr m').
Qed.

(** A line that matches a pattern of a brace language holds an opening
    brace. *)
Lemma brace_header_opens (f : family) (l : jsstring) (m : captures) :
  f = JavaScriptFamily \/ f = CStyleFamily ->
  signatureMatch f l = Some m -> (0 < occurrences LBRACE l)%Z.
Proof.
  intros Hf H. apply occurrences_In.
  destruct Hf as [-> | ->]; cbn [signatureMatch] in H.
  - revert H. apply firstMatch_In. unfold functionPatterns.
    repeat constructor; intros m' H'; apply exec_last_char in H'; exact H'.
  - unfold cStylePattern in H. apply exec_last_char in H. exact H.
Qed.

End Headers.

(** ** The body collector of Python *)

Section IndentBody.

Lemma collectIndented_spec (rest : list jsstring) (j : nat) (defIndent : nat)
    (body : jsstring) (endLine : nat) :
  exists n,
    n <= length rest /\
    collectIndented rest j (Z.of_nat defIndent) body endLine =
      (body ++ terminated (firstn n rest),
       match n with 0 => endLine | S n' => j + n' end) /\
    (forall m l, m < n -> nth_error rest m = Some l ->
                 isBlank l = true \/ defIndent < indentation l) /\
    (forall l, nth_error rest n = Some l ->
               isBlank l = false /\ indentation l <= defIndent).
Proof.
  revert j body endLine. induction rest as [|l rest IH]; intros j body endLine.
  - exists 0. cbn. unfold terminated. cbn. rewrite app_nil_r.
    repeat split; try reflexivity; try lia; intros; discriminate.
  - cbn [collectIndented]. rewrite trim_eqb_blank.
    assert (Hstep : forall (P : isBlank l = true \/ defIndent < indentation l),
      exists n, n <= length (l :: rest) /\
        collectIndented rest (S j) (Z.of_nat defIndent) (body ++ l ++ [NL]) j =
          (body ++ terminated (firstn n (l :: rest)),
           match n with 0 => endLine | S n' => j + n' end) /\
        (forall m l', m < n -> nth_error (l :: rest) m = Some l' ->
                      isBlank l' = true \/ defIndent < indentation l') /\
        (forall l', nth_error (l :: rest) n = Some l' ->
                    isBlank l' = false /\ indentation l' <= defIndent)).
    { intros P. destruct (IH (S j) (body ++ l ++ [NL]) j) as [n [Hn [E [Hin Hout]]]].
      exists (S n). rewrite E. cbn [length firstn nth_error].
      rewrite terminated_cons, <- !app_assoc.
      split; [lia|]. split; [f_equal; destruct n; lia|]. split; [|exact Hout].
      intros [|m] l' Hm El'; cbn in El'.
      - now inversion El'; subst.
      - apply (Hin m l'); [lia|exact El']. }
    destruct (isBlank l) eqn:Eb; [apply Hstep; now left|].
    rewrite (searchNonSpace_indentation _ Eb).
    destruct (Z.of_nat (indentation l) <=? Z.of_nat defIndent)%Z eqn:Ele.
    + replace (Z.of_nat (indentation l) =? -1)%Z with false
        by (symmetry; apply Z.eqb_neq; lia).
      cbn [negb andb]. apply Z.leb_le in Ele.
      exists 0. cbn. unfold terminated. cbn. rewrite app_nil_r.
      split; [lia|]. split; [reflexivity|]. split; [intros; lia|].
      intros l' El'. inversion El'; subst. split; [exact Eb|lia].
    + cbn [andb]. apply Z.leb_gt in Ele. apply Hstep. right. lia.
Qed.

End IndentBody.

(** ** The doc-comment finder *)

Section DocBlock.

Variable lines : list jsstring.

Lemma firstn_S_nth_error (k : nat) (x : jsstring) (ls : list jsstring) :
  nth_error ls k = Some x -> firstn (S k) ls = firstn k ls ++ [x].
Proof.
  revert ls. induction k as [|k IH]; intros [|y ls] H; try discriminate.
  - now inversion H.
  - cbn in H. rewrite firstn_cons, (IH ls H). reflexivity.
Qed.

(** The upward skip stops on the first line that is not blank. *)
Lemma skipBlankAbove_stops (n b : nat) (lb : jsstring) :
  b < n <= length lines ->
  nth_error lines b = Some lb ->
  isBlank lb = false ->
  (forall j l, b < j < n -> nth_error lines j = Some l -> isBlank l = true) ->
  skipBlankAbove lines n = Returned (Some b).
Proof.
  induction n as [|n IH]; intros Hn Hb Hlb Hblank; [lia|].
  cbn [skipBlankAbove]. destruct (Nat.eq_dec n b) as [->|Hne].
  - rewrite Hb. cbn [deref bind]. rewrite trim_eqb_blank, Hlb. reflexivity.
  - destruct (nth_error lines n) as [l|] eqn:El;
      [|apply nth_error_None in El; lia].
    cbn [deref bind]. rewrite trim_eqb_blank, (Hblank n l) by (lia || assumption).
    apply IH; try assumption; [lia|].
    intros j l' Hj. apply Hblank. lia.
Qed.

(** The upward collection stops on the first line that opens a doc comment
    and returns the lines from there on, in document order. *)
Lemma collectDocAbove_collects (n a : nat) (la : jsstring) (docLines : list jsstring) :
  a < n <= length lines ->
  nth_error lines a = Some la ->
  startsWith (lit "/**") (trim la) = true ->
  (forall j l, a < j < n -> nth_error lines j = Some l ->
               startsWith (lit "/**") (trim l) = false) ->
  collectDocAbove lines n docLines =
    Returned (Some (joinLines (firstn (n - a) (skipn a lines) ++ docLines))).
Proof.
  revert docLines. induction n as [|n IH]; intros docLines Hn Ha Hla Hinner; [lia|].
  cbn [collectDocAbove]. destruct (Nat.eq_dec n a) as [->|Hne].
  - rewrite Ha. cbn [deref bind]. rewrite Hla.
    replace (S a - a) with 1 by lia. rewrite (skipn_nth_error _ _ Ha). reflexivity.
  - destruct (nth_error lines n) as [l|] eqn:El;
      [|apply nth_error_None in El; lia].
    cbn [deref bind]. rewrite (Hinner n l) by (lia || assumption).
    rewrite IH; try assumption; [|lia|intros j l' Hj; apply Hinner; lia].
    replace (S n - a) with (S (n - a)) by lia.
    rewrite (@firstn_S_nth_error (n - a) l).
    + now rewrite <- app_assoc.
    + rewrite nth_error_skipn. now replace (a + (n - a)) with n by lia.
Qed.

End DocBlock.

(** ** Deciding the vocabulary on concrete buffers *)

Section Deciding.

Lemma reachesZeroB_spec (d : Z) (l : jsstring) :
  reachesZeroB d l = true <-> reachesZero d l.
Proof.
  unfold reachesZeroB, reachesZero. rewrite existsb_exists. split.
  - intros [k [Hin Hk]]. apply in_seq in Hin. apply Z.eqb_eq in Hk.
    exists k. split; [lia|exact Hk].
  - intros [k [Hin Hk]]. exists k. split; [apply in_seq; lia|now apply Z.eqb_eq].
Qed.

Lemma closesWithinB_spec (d : Z) (rest : list jsstring) (k : nat) :
  closesWithinB d rest k = true <-> closesWithin d rest k.
Proof.
  unfold closesWithinB, closesWithin. rewrite andb_true_iff, forallb_forall.
  split; intros [H1 H2]; split.
  - destruct (nth_error rest k) as [l|]; [|discriminate].
    exists l. split; [reflexivity|now apply reachesZeroB_spec].
  - intros m l Hm El R. specialize (H2 m). rewrite El in H2.
    apply reachesZeroB_spec in R. rewrite R in H2.
    specialize (H2 ltac:(apply in_seq; lia)). discriminate.
  - destruct H1 as [l [El R]]. rewrite El. now apply reachesZeroB_spec.
  - intros m Hm. apply in_seq in Hm.
    destruct (nth_error rest m) as [l|] eqn:El; [|reflexivity].
    apply negb_true_iff. destruct (reachesZeroB (depthBefore d rest m) l) eqn:R;
      [|reflexivity].
    exfalso. apply (H2 m l); [lia|exact El|now apply reachesZeroB_spec].
Qed.

Lemma closesAtB_spec (lines : list jsstring) (o e : nat) :
  closesAtB lines o e = true <-> closesAt lines o e.
Proof.
  unfold closesAtB, closesAt. split.
  - destruct (nth_error lines o) as [l|]; [|discriminate].
    rewrite !andb_true_iff. intros [[H1 H2] H3]. exists l.
    apply Z.ltb_lt in H1. apply Nat.ltb_lt in H2. apply closesWithinB_spec in H3.
    split; [reflexivity|]. split; [exact H1|]. split; [exact H2|exact H3].
  - intros [l [El [H1 [H2 H3]]]]. rewrite El. rewrite !andb_true_iff.
    split; [split|]; [now apply Z.ltb_lt|now apply Nat.ltb_lt|
                       now apply closesWithinB_spec].
Qed.

Lemma matchesAtB_spec (f : family) (lines : list jsstring) (i : nat) :
  matchesAtB f lines i = true <-> matchesAt f lines i.
Proof.
  unfold matchesAtB, matchesAt. split.
  - destruct (nth_error lines i) as [l|]; [|discriminate].
    destruct (signatureMatch f l) eqn:E; [|discriminate].
    intros _. exists l. split; [reflexivity|congruence].
  - intros [l [El Hm]]. rewrite El. destruct (signatureMatch f l); congruence.
Qed.

Lemma matchesAtB_false (f : family) (lines : list jsstring) (i : nat) :
  matchesAtB f lines i = false -> ~ matchesAt f lines i.
Proof.
  intros H M. apply matchesAtB_spec in M. congruence.
Qed.

End Deciding.

(** * The claims *)

(** ** Concrete scenarios *)

(** The repository's own test, 'CodeParser Function Detection': a
    TypeScript function with a return-type annotation is found through the
    fourth pattern from a cursor on its body. *)
Example repository_test_function_detection :
  exists r,
    findFunctionAtPosition
      (buffer [""; "            function testFunction(param1: string, param2: number): void {";
               "                console.log(param1, param2);";
               "            }"; "            "]%string "typescript")
      (cursor 2) = Returned (Some r) /\
    name r = lit "testFunction".
Proof. vm_compute. eexists. split; reflexivity. Qed.

(** C4.  On the buffer [jsAdd] ('function add(a, b) {', '  return a + b;',
    '}', each newline-terminated) with the cursor on line 1 and language
    'javascript', the locator returns a record with name "add", startLine 0,
    endLine 2 and, as body, the three lines verbatim, each
    newline-terminated (which is the whole text of the buffer). *)
Theorem js_scenario :
  exists r,
    findFunctionAtPosition jsAdd (cursor 1) = Returned (Some r) /\
    name r = lit "add" /\
    startLine r = 0 /\
    endLine r = 2 /\
    body r = terminated (map lit ["function add(a, b) {"; "  return a + b;"; "}"]%string) /\
    body r = getText jsAdd.
Proof. vm_compute. eexists. repeat split; reflexivity. Qed.

(** C3, as the specification states it, fails: on [pyAdd] with the cursor on
    line 1 the record does not end on line 1. *)
Lemma python_scenario_endLine_1_fails :
  ~ exists r,
      findFunctionAtPosition pyAdd (cursor 1) = Returned (Some r) /\
      name r = lit "add" /\ startLine r = 0 /\ endLine r = 1.
Proof.
  intros [r [H [_ [_ He]]]]. vm_compute in H. inversion H; subst r.
  cbn in He. discriminate.
Qed.

(** C3, amended.  On the buffer [pyAdd] ('def add(a, b):',
    '    return a + b', each newline-terminated) with the cursor on line 1
    and language 'python', the locator returns a record with name "add",
    startLine 0 and endLine 2: the empty piece after the final newline is a
    blank line, and blank lines belong to the body. *)
Theorem python_scenario :
  exists r,
    findFunctionAtPosition pyAdd (cursor 1) = Returned (Some r) /\
    name r = lit "add" /\
    startLine r = 0 /\
    endLine r = 2 /\
    nth_error (linesOf pyAdd) 2 = Some [].
Proof. vm_compute. eexists. repeat split; reflexivity. Qed.

(** C2, at the failing input.  In the Python path the body starts after the
    header line: on [pyAdd] the record spans lines 0 to 2, its body is the
    text of lines 1 to 2 only, and that is not the text of lines 0 to 2. *)
Theorem python_body_omits_header :
  exists r,
    findFunctionAtPosition pyAdd (cursor 1) = Returned (Some r) /\
    startLine r = 0 /\
    endLine r = 2 /\
    body r = terminated (span (linesOf pyAdd) 1 2) /\
    body r <> terminated (span (linesOf pyAdd) (startLine r) (endLine r)).
Proof.
  vm_compute. eexists. repeat split; try reflexivity. discriminate.
Qed.

(** The brace languages and the fallback do what C2 says: the body is the
    text of the lines from [startLine] to [endLine], each
    newline-terminated. *)
Theorem brace_body_is_span (document : TextDocument) (position : Position)
    (r : FunctionInfo) :
  familyOf (languageId document) <> PythonFamily ->
  findFunctionAtPosition document position = Returned (Some r) ->
  startLine r <= endLine r < length (linesOf document) /\
  body r = terminated (span (linesOf document) (startLine r) (endLine r)).
Proof.
  intros Hf H.
  assert (Hc : line position < length (linesOf document)).
  { destruct (Nat.lt_ge_cases (line position) (length (linesOf document)))
      as [Hlt|Hge]; [exact Hlt|].
    rewrite findFunctionAtPosition_outside in H by exact Hge. discriminate. }
  apply (locate_inv document position Hc) in H.
  destruct H as [h [_ [[l [Hl Hm]] [E _]]]].
  destruct (signatureMatch (familyOf (languageId document)) l) as [m|] eqn:Em;
    [|congruence].
  destruct (functionAt_matched document _ h Hl Em) as [r' [E' [Hs [_ [_ Hb]]]]].
  assert (r' = r) by congruence. subst r'.
  destruct (familyOf (languageId document)); try congruence;
    destruct Hb as [Hb _]; apply findFunctionBody_span in Hb;
    rewrite Hs; destruct Hb as [_ [Hrange Hbody]]; split; assumption.
Qed.

(** ** C1: the span of a brace-delimited function *)

Lemma closesAt_in_buffer (lines : list jsstring) (o e : nat) :
  closesAt lines o e -> e < length lines.
Proof.
  intros [l [_ [_ [Hoe [[le [Ele _]] _]]]]]. rewrite nth_error_skipn in Ele.
  replace (o + 1 + (e - o - 1)) with e in Ele by lia.
  apply nth_error_Some. congruence.
Qed.






(** ** C5: the Python body *)

(** C5.  Let line [i] of a buffer match the [def] pattern.  The record built
    for it ends [n] lines below the header, for the [n] such that: the body
    is the text of these [n] lines; every one of them is blank or indented
    more than the header (so a blank line never ends the body); and the line
    after them, if the buffer has one, is not blank and indented no more
    than the header: it is the first such line, it ends the scan and it is
    left out.  [endLine] is the last line taken. *)
Theorem python_body_collection (document : TextDocument) (i : nat) (hdr : jsstring) :
  nth_error (linesOf document) i = Some hdr ->
  signatureMatch PythonFamily hdr <> None ->
  exists r n,
    pythonFunctionAt document (linesOf document) i = Returned (Some r) /\
    startLine r = i /\
    endLine r = i + n /\
    endLine r < length (linesOf document) /\
    body r = terminated (span (linesOf document) (i + 1) (i + n)) /\
    (forall j l, i < j <= i + n -> nth_error (linesOf document) j = Some l ->
                 isBlank l = true \/ indentation hdr < indentation l) /\
    (forall l, nth_error (linesOf document) (i + n + 1) = Some l ->
               isBlank l = false /\ indentation l <= indentation hdr).
Proof.
  intros Hl Hm.
  destruct (signatureMatch PythonFamily hdr) as [m|] eqn:Em; [clear Hm|congruence].
  destruct (functionAt_matched document PythonFamily i Hl Em)
    as [r [E [Hs [_ [_ [Hb _]]]]]].
  pose proof (python_header_not_blank _ Em) as Hnb.
  rewrite (searchNonSpace_indentation _ Hnb) in Hb.
  destruct (collectIndented_spec (skipn (i + 1) (linesOf document)) (i + 1)
              (indentation hdr) [] i) as [n [Hn [Ec [Hin Hout]]]].
  rewrite Ec in Hb. injection Hb as Hbody Hend.
  assert (Hi : i < length (linesOf document)) by (apply nth_error_Some; congruence).
  rewrite length_skipn in Hn.
  exists r, n. split; [exact E|]. split; [exact Hs|].
  assert (Ee : endLine r = i + n) by (rewrite <- Hend; destruct n; lia).
  split; [exact Ee|]. split; [lia|]. split; [|split].
  - rewrite <- Hbody. unfold span.
    now replace (i + n + 1 - (i + 1)) with n by lia.
  - intros j l Hj El. apply (Hin (j - (i + 1)) l); [lia|].
    rewrite nth_error_skipn. now replace (i + 1 + (j - (i + 1))) with j by lia.
  - intros l El. apply Hout. rewrite nth_error_skipn.
    now replace (i + 1 + n) with (i + n + 1) by lia.
Qed.

Lemma python_body_collection_witness :
  nth_error (linesOf pyBlankLines) 0 = Some (lit "def f():") /\
  signatureMatch PythonFamily (lit "def f():") <> None /\
  exists r n,
    pythonFunctionAt pyBlankLines (linesOf pyBlankLines) 0 = Returned (Some r) /\
    startLine r = 0 /\
    endLine r = 0 + n /\
    endLine r < length (linesOf pyBlankLines) /\
    body r = terminated (span (linesOf pyBlankLines) (0 + 1) (0 + n)) /\
    (forall j l, 0 < j <= 0 + n -> nth_error (linesOf pyBlankLines) j = Some l ->
                 isBlank l = true \/ indentation (lit "def f():") < indentation l) /\
    (forall l, nth_error (linesOf pyBlankLines) (0 + n + 1) = Some l ->
               isBlank l = false /\ indentation l <= indentation (lit "def f():")).
Proof.
  assert (Hl : nth_error (linesOf pyBlankLines) 0 = Some (lit "def f():"))
    by (vm_compute; reflexivity).
  assert (Hm : signatureMatch PythonFamily (lit "def f():") <> None)
    by (vm_compute; discriminate).
  split; [exact Hl|]. split; [exact Hm|].
  exact (@python_body_collection pyBlankLines 0 (lit "def f():") Hl Hm).
Defined.

(** On [pyBlankLines] the body runs over the blank line 2 and the trailing
    blank line 4 and stops before 'x = 2'. *)
Example python_blank_lines :
  exists r,
    findFunctionAtPosition pyBlankLines (cursor 3) = Returned (Some r) /\
    startLine r = 0 /\ endLine r = 4.
Proof. vm_compute. eexists. repeat split; reflexivity. Qed.

(** ** C6: the Python docstring *)

(** C6, at the failing input.  In [mixedDelimiters] the line after the
    header opens a docstring with three double quotes and does not end with
    three double quotes; the docstring is closed on line 3.  The finder
    nevertheless returns line 1 alone, because that line ends with three
    single quotes. *)
Theorem docstring_mixed_delimiters :
  exists next,
    nth_error (linesOf mixedDelimiters) 1 = Some next /\
    startsWith tripleDouble (trim next) = true /\
    endsWith tripleDouble (trim next) = false /\
    findPythonDocstring mixedDelimiters 0 (linesOf mixedDelimiters) = Some next /\
    findPythonDocstring mixedDelimiters 0 (linesOf mixedDelimiters)
      <> Some (joinLines (span (linesOf mixedDelimiters) 1 3)).
Proof.
  vm_compute. eexists. repeat split; try reflexivity. discriminate.
Qed.

(** ** C7: the doc comment above a function *)

(** C7, as the specification states it, fails.  In [nestedOpener] lines 0
    to 2 are one doc comment, opened on line 0 and closed on line 2, right
    above the function that starts on line 3; its middle line begins with
    the opener again, which a block comment may hold.  The upward walk of
    the finder stops on that line, and the text returned is lines 1 to 2,
    not the block. *)
Lemma doc_block_counterexample :
  span (linesOf nestedOpener) 0 2 = map lit ["/**"; "/** inner"; " */"]%string /\
  (exists la, nth_error (linesOf nestedOpener) 0 = Some la /\
              startsWith (lit "/**") (trim la) = true) /\
  (exists lb, nth_error (linesOf nestedOpener) 2 = Some lb /\
              endsWith (lit "*/") (trim lb) = true) /\
  matchesAt JavaScriptFamily (linesOf nestedOpener) 3 /\
  findExistingDocumentation nestedOpener 3
    = Returned (Some (joinLines (span (linesOf nestedOpener) 1 2))) /\
  findExistingDocumentation nestedOpener 3
    <> Returned (Some (joinLines (span (linesOf nestedOpener) 0 2))).
Proof.
  split; [vm_compute; reflexivity|].
  split; [eexists; split; vm_compute; reflexivity|].
  split; [eexists; split; vm_compute; reflexivity|].
  split; [apply matchesAtB_spec; vm_compute; reflexivity|].
  split; [vm_compute; reflexivity|].
  vm_compute. discriminate.
Qed.

(** C7, amended.  Let lines [a] to [b] be a doc comment block: the trimmed
    text of line [a] begins with the opener, the trimmed text of line [b]
    ends with the closer, and no line after [a] up to [b] begins with the
    opener.  If all lines between [b] and the function's start line [s] are
    blank, the finder returns exactly the lines [a] to [b], joined by
    newlines in document order. *)
Theorem doc_block_round_trip (document : TextDocument) (a b s : nat)
    (la lb : jsstring) :
  a <= b < s ->
  s <= length (linesOf document) ->
  nth_error (linesOf document) a = Some la ->
  startsWith (lit "/**") (trim la) = true ->
  nth_error (linesOf document) b = Some lb ->
  endsWith (lit "*/") (trim lb) = true ->
  (forall j l, a < j <= b -> nth_error (linesOf document) j = Some l ->
               startsWith (lit "/**") (trim l) = false) ->
  (forall j l, b < j < s -> nth_error (linesOf document) j = Some l ->
               isBlank l = true) ->
  findExistingDocumentation document s =
    Returned (Some (joinLines (span (linesOf document) a b))).
Proof.
  intros Hab Hs Ha Hopen Hb Hclose Hinner Hblank.
  assert (Hnb : isBlank lb = false).
  { apply (@endsWith_nonempty_not_blank (lit "*/")); [discriminate|exact Hclose]. }
  unfold findExistingDocumentation.
  rewrite (@skipBlankAbove_stops (linesOf document) s b lb) by (lia || assumption).
  cbn [bind]. rewrite Hb. cbn [deref bind]. rewrite Hclose.
  rewrite (@collectDocAbove_collects (linesOf document) (S b) a la []);
    try assumption; [|lia|intros j l Hj; apply Hinner; lia].
  rewrite app_nil_r. unfold span. now replace (S b - a) with (b + 1 - a) by lia.
Qed.

Lemma doc_block_round_trip_witness :
  findExistingDocumentation documented 4 =
    Returned (Some (joinLines (span (linesOf documented) 0 2))) /\
  span (linesOf documented) 0 2 = map lit ["/**"; " * Adds."; " */"]%string.
Proof.
  split; [|vm_compute; reflexivity].
  apply (@doc_block_round_trip documented 0 2 4 (lit "/**") (lit " */")).
  - lia.
  - vm_compute. lia.
  - vm_compute. reflexivity.
  - vm_compute. reflexivity.
  - vm_compute. reflexivity.
  - vm_compute. reflexivity.
  - intros j l Hj El.
    assert (Hcases : j = 1 \/ j = 2) by lia.
    destruct Hcases as [-> | ->]; vm_compute in El; inversion El; subst l;
      vm_compute; reflexivity.
  - intros j l Hj El. assert (j = 3) by lia. subst j.
    vm_compute in El. inversion El; subst l. reflexivity.
Defined.

(** ** C8: the lookback window *)

(** C8.  For a cursor on a line of the buffer, the locator never throws.  It
    searches the window made of the cursor line and the [lookback] lines
    above it (10 for the JS/TS tags, python and the C family, 5 for any
    other tag), cut at line 0: it returns [null] exactly when no line of the
    window matches a signature pattern of the family, and a record it
    returns starts on the line of the window nearest to the cursor that
    matches one. *)
Theorem locate_window (document : TextDocument) (position : Position) :
  line position < length (linesOf document) ->
  findFunctionAtPosition document position <> Thrown /\
  ((forall i, inWindow (line position) (lookback (familyOf (languageId document))) i ->
              ~ matchesAt (familyOf (languageId document)) (linesOf document) i) <->
   findFunctionAtPosition document position = Returned None) /\
  (forall r,
     findFunctionAtPosition document position = Returned (Some r) ->
     inWindow (line position) (lookback (familyOf (languageId document))) (startLine r) /\
     matchesAt (familyOf (languageId document)) (linesOf document) (startLine r) /\
     forall i, startLine r < i <= line position ->
               ~ matchesAt (familyOf (languageId document)) (linesOf document) i).
Proof.
  intros Hc. split; [apply locate_returns; exact Hc|]. split; [split|].
  - apply locate_not_found. exact Hc.
  - intros H. exact (@locate_inv document position Hc None H).
  - intros r H. destruct (@locate_inv document position Hc (Some r) H)
      as [h [Hw [Hm [E Hnone]]]].
    destruct Hm as [l [Hl Hm]].
    destruct (signatureMatch (familyOf (languageId document)) l) as [m|] eqn:Em;
      [|congruence].
    destruct (functionAt_matched document _ h Hl Em) as [r' [E' [Hs _]]].
    assert (r' = r) by congruence. subst r'. rewrite Hs.
    split; [exact Hw|]. split; [|exact Hnone].
    exists l. split; [exact Hl|congruence].
Qed.

Lemma locate_window_witness :
  line (cursor 1) < length (linesOf prose) /\
  lookback (familyOf (languageId prose)) = 5 /\
  findFunctionAtPosition prose (cursor 1) <> Thrown /\
  findFunctionAtPosition prose (cursor 1) = Returned None.
Proof.
  assert (Hc : line (cursor 1) < length (linesOf prose)) by (vm_compute; lia).
  split; [exact Hc|]. split; [vm_compute; reflexivity|].
  destruct (@locate_window prose (cursor 1) Hc) as [Hret [Hnone _]].
  split; [exact Hret|]. apply Hnone. intros i Hi.
  assert (Hcases : i = 0 \/ i = 1) by (unfold inWindow in Hi; cbn in Hi; lia).
  destruct Hcases as [-> | ->]; apply matchesAtB_false; vm_compute; reflexivity.
Defined.

(** The window is 11 lines when the header is ten lines above the cursor: a
    function whose header is exactly ten lines up is still found. *)
Example window_reaches_ten_lines_up :
  exists r,
    findFunctionAtPosition longFunction (cursor 10) = Returned (Some r) /\
    startLine r = 0 /\ endLine r = 13.
Proof. vm_compute. eexists. repeat split; reflexivity. Qed.

(** ** C9: braces that are never closed *)

(** C9.  For a header line [h] of the buffer such that the braces opened at
    or below [h] are closed on no line (or no brace is opened at all), the
    collector returns, without throwing, every line from [h] to the end of
    the buffer as body and the last line of the buffer as [endLine]. *)
Theorem unclosed_braces_truncate (document : TextDocument) (h : nat) :
  h < length (linesOf document) ->
  (forall e, ~ bracesClose (linesOf document) h e) ->
  exists b,
    findFunctionBody document h = Returned (b, h, length (linesOf document) - 1) /\
    b = terminated (span (linesOf document) h (length (linesOf document) - 1)).
Proof.
  intros Hh Hnever. exists (terminated (skipn h (linesOf document))). split.
  - now apply findFunctionBody_exhausts.
  - now rewrite span_to_end.
Qed.

Lemma unclosed_braces_truncate_witness :
  0 < length (linesOf unclosed) /\
  length (linesOf unclosed) - 1 = 3 /\
  exists b,
    findFunctionBody unclosed 0 = Returned (b, 0, length (linesOf unclosed) - 1) /\
    b = terminated (span (linesOf unclosed) 0 (length (linesOf unclosed) - 1)).
Proof.
  assert (Hh : 0 < length (linesOf unclosed)) by (vm_compute; lia).
  split; [exact Hh|]. split; [vm_compute; reflexivity|].
  apply (@unclosed_braces_truncate unclosed 0 Hh).
  intros e [o [[_ [_ Hfirst]] Hclose]].
  assert (o = 0).
  { destruct o as [|o]; [reflexivity|]. exfalso.
    specialize (Hfirst 0 (lit "function f() {") ltac:(lia) ltac:(vm_compute; reflexivity)).
    vm_compute in Hfirst. discriminate. }
  subst o. pose proof (closesAt_in_buffer Hclose) as He.
  apply closesAtB_spec in Hclose.
  assert (Hlen : length (linesOf unclosed) = 4) by (vm_compute; reflexivity).
  rewrite Hlen in He.
  destruct e as [|[|[|[|e]]]]; try lia; vm_compute in Hclose; discriminate.
Defined.

(** ** C10: a control-flow keyword taken for a function *)

(** C10.  In a buffer of a JS/TS language whose cursor line is 'if (x) {',
    the locator returns a record named "if" that starts on the cursor line:
    the line matches neither the function-declaration pattern nor the
    arrow-function pattern, and it matches the third pattern, the bare
    'identifier(params) {'. *)
Theorem keyword_taken_for_function (document : TextDocument) (position : Position) :
  familyOf (languageId document) = JavaScriptFamily ->
  nth_error (linesOf document) (line position) = Some (lit "if (x) {") ->
  (exists r,
     findFunctionAtPosition document position = Returned (Some r) /\
     name r = lit "if" /\
     startLine r = line position) /\
  exec (nth 0 functionPatterns Empty) (lit "if (x) {") = None /\
  exec (nth 1 functionPatterns Empty) (lit "if (x) {") = None /\
  exec (nth 2 functionPatterns Empty) (lit "if (x) {") <> None.
Proof.
  intros Hf Hl. split; [|vm_compute; repeat split; try reflexivity; discriminate].
  assert (Hc : line position < length (linesOf document))
    by (apply nth_error_Some; congruence).
  assert (Hm : exists m, signatureMatch JavaScriptFamily (lit "if (x) {") = Some m /\
                         group m 1 = lit "if")
    by (vm_compute; eexists; split; reflexivity).
  destruct Hm as [m [Hm Hname]]. rewrite <- Hf in Hm.
  destruct (@locate_found document position Hc (line position) (lit "if (x) {") m)
    as [r [Hr Hat]]; try assumption.
  - unfold inWindow. lia.
  - intros i Hi. lia.
  - exists r. split; [exact Hr|].
    destruct (functionAt_matched document _ (line position) Hl Hm)
      as [r' [E' [Hs [Hn _]]]].
    assert (r' = r) by congruence. subst r'.
    rewrite Hf in Hn. cbn [nameGroup] in Hn. split; [congruence|exact Hs].
Qed.

Lemma keyword_taken_for_function_witness :
  familyOf (languageId ifBlock) = JavaScriptFamily /\
  nth_error (linesOf ifBlock) (line (cursor 0)) = Some (lit "if (x) {") /\
  exists r,
    findFunctionAtPosition ifBlock (cursor 0) = Returned (Some r) /\
    name r = lit "if" /\
    startLine r = line (cursor 0).
Proof.
  assert (Hf : familyOf (languageId ifBlock) = JavaScriptFamily)
    by (vm_compute; reflexivity).
  assert (Hl : nth_error (linesOf ifBlock) (line (cursor 0)) = Some (lit "if (x) {"))
    by (vm_compute; reflexivity).
  split; [exact Hf|]. split; [exact Hl|].
  exact (proj1 (@keyword_taken_for_function ifBlock (cursor 0) Hf Hl)).
Defined.

(** * Further properties of the parser *)

(** ** What a capture holds *)

Section Captures.

Variable P : char -> Prop.

(** A group-free pattern hands the captures on unchanged and consumes a
    prefix made of code units of its classes. *)
Lemma matchAt_group_free (a : regex) :
  groupFree a = true ->
  classesIn P a ->
  forall input rest caps k c,
    matchAt a input rest caps k = Some c ->
    exists pre rest',
      rest = pre ++ rest' /\ Forall P pre /\
      (consumes a = true -> pre <> []) /\
      k rest' caps = Some c.
Proof.
  induction a as [| |p|r1 IH1 r2 IH2|r1 IH1 r2 IH2|g r1 IH1|n r1 IH1];
    intros Hg Hc input rest caps k c H; cbn [matchAt] in H;
    cbn [groupFree consumes classesIn] in *.
  - exists [], rest. repeat split; [constructor|discriminate|exact H].
  - destruct (Nat.eqb (length rest) (length input)); [|discriminate].
    exists [], rest. repeat split; [constructor|discriminate|exact H].
  - destruct rest as [|x rest']; [discriminate|].
    destruct (p x) eqn:Ep; [|discriminate].
    exists [x], rest'. repeat split; [|discriminate|exact H].
    constructor; [now apply Hc|constructor].
  - apply andb_true_iff in Hg as [Hg1 Hg2]. destruct Hc as [Hc1 Hc2].
    apply (IH1 Hg1 Hc1) in H as [pre1 [rest1 [E1 [F1 [N1 H1]]]]].
    apply (IH2 Hg2 Hc2) in H1 as [pre2 [rest2 [E2 [F2 [N2 H2]]]]].
    exists (pre1 ++ pre2), rest2. subst rest rest1. rewrite <- app_assoc.
    repeat split; [now apply Forall_app| |exact H2].
    intros Hcons Hnil. apply app_eq_nil in Hnil as [-> ->].
    apply orb_true_iff in Hcons as [Hcons|Hcons]; [now apply N1|now apply N2].
  - apply andb_true_iff in Hg as [Hg1 Hg2]. destruct Hc as [Hc1 Hc2].
    unfold orElse in H.
    destruct (matchAt r1 input rest caps k) as [c1|] eqn:E.
    + inversion H; subst c1.
      apply (IH1 Hg1 Hc1) in E as [pre [rest' [E1 [F1 [N1 H1]]]]].
      exists pre, rest'. repeat split; try assumption.
      intros Hcons. apply andb_true_iff in Hcons as [Hcons _]. now apply N1.
    + apply (IH2 Hg2 Hc2) in H as [pre [rest' [E1 [F1 [N1 H1]]]]].
      exists pre, rest'. repeat split; try assumption.
      intros Hcons. apply andb_true_iff in Hcons as [_ Hcons]. now apply N1.
  - revert H. generalize (length rest) at 1. intros fuel. revert rest.
    induction fuel as [|fuel IHf]; intros rest H; cbn [iterate] in H;
      unfold orElse in H.
    + assert (Hk : k rest caps = Some c).
      { destruct g; [exact H|]. destruct (k rest caps); [congruence|discriminate]. }
      exists [], rest. repeat split; [constructor|discriminate|exact Hk].
    + assert (Hagain :
                matchAt r1 input rest caps
                  (fun rest' caps' =>
                     if Nat.ltb (length rest') (length rest)
                     then iterate (fun rest' caps' k' => matchAt r1 input rest' caps' k')
                            g k fuel rest' caps'
                     else None) = Some c ->
                exists pre rest',
                  rest = pre ++ rest' /\ Forall P pre /\
                  (false = true -> pre <> []) /\ k rest' caps = Some c).
      { intros Hc'. apply (IH1 Hg Hc) in Hc' as [pre1 [rest1 [E1 [F1 [_ H1]]]]].
        destruct (Nat.ltb (length rest1) (length rest)); [|discriminate].
        apply IHf in H1 as [pre2 [rest2 [E2 [F2 [_ H2]]]]].
        exists (pre1 ++ pre2), rest2. subst rest rest1. rewrite <- app_assoc.
        repeat split; [now apply Forall_app|discriminate|exact H2]. }
      assert (Hhere : k rest caps = Some c ->
                exists pre rest',
                  rest = pre ++ rest' /\ Forall P pre /\
                  (false = true -> pre <> []) /\ k rest' caps = Some c).
      { intros Hk. exists [], rest. repeat split; [constructor|discriminate|exact Hk]. }
      destruct g.
      * match type of H with
        | match ?x with _ => _ end = _ => destruct x as [c1|] eqn:E
        end.
        -- inversion H; subst c1. now apply Hagain.
        -- now apply Hhere.
      * destruct (k rest caps) as [c1|] eqn:E.
        -- apply Hhere. congruence.
        -- now apply Hagain.
  - discriminate.
Qed.

Variable n : nat.

(** Group [n] of the captures, where defined, is not empty and made of
    code units of [P]. *)
Let captured (caps : captures) : Prop :=
  forall s, capture caps n = Some s -> s <> [] /\ Forall P s.

Lemma matchAt_captures (r : regex) :
  capturesWell n P r ->
  forall input rest caps k c,
    captured caps ->
    matchAt r input rest caps k = Some c ->
    exists rest' caps', captured caps' /\ k rest' caps' = Some c.
Proof.
  induction r as [| |p|r1 IH1 r2 IH2|r1 IH1 r2 IH2|g r1 IH1|m r1 IH1];
    intros Hw input rest caps k c Hcaps H; cbn [matchAt] in H;
    cbn [capturesWell] in Hw.
  - now exists rest, caps.
  - destruct (Nat.eqb (length rest) (length input)); [|discriminate].
    now exists rest, caps.
  - destruct rest as [|x rest']; [discriminate|].
    destruct (p x); [|discriminate]. now exists rest', caps.
  - destruct Hw as [Hw1 Hw2].
    apply (IH1 Hw1 _ _ _ _ _ Hcaps) in H as [rest1 [caps1 [Hc1 H1]]].
    now apply (IH2 Hw2 _ _ _ _ _ Hc1) in H1.
  - destruct Hw as [Hw1 Hw2]. unfold orElse in H.
    destruct (matchAt r1 input rest caps k) as [c1|] eqn:E.
    + inversion H; subst c1. now apply (IH1 Hw1 _ _ _ _ _ Hcaps) in E.
    + now apply (IH2 Hw2 _ _ _ _ _ Hcaps) in H.
  - revert H Hcaps. generalize (length rest) at 1. intros fuel. revert rest caps.
    induction fuel as [|fuel IHf]; intros rest caps H Hcaps; cbn [iterate] in H;
      unfold orElse in H.
    + assert (Hk : k rest caps = Some c).
      { destruct g; [exact H|]. destruct (k rest caps); [congruence|discriminate]. }
      now exists rest, caps.
    + assert (Hagain :
                matchAt r1 input rest caps
                  (fun rest' caps' =>
                     if Nat.ltb (length rest') (length rest)
                     then iterate (fun rest' caps' k' => matchAt r1 input rest' caps' k')
                            g k fuel rest' caps'
                     else None) = Some c ->
                exists rest' caps', captured caps' /\ k rest' caps' = Some c).
      { intros Hc'. apply (IH1 Hw _ _ _ _ _ Hcaps) in Hc' as [rest1 [caps1 [Hc1 H1]]].
        destruct (Nat.ltb (length rest1) (length rest)); [|discriminate].
        now apply IHf in H1. }
      destruct g.
      * match type of H with
        | match ?x with _ => _ end = _ => destruct x as [c1|] eqn:E
        end.
        -- inversion H; subst c1. now apply Hagain.
        -- now exists rest, caps.
      * destruct (k rest caps) as [c1|] eqn:E.
        -- exists rest, caps. split; [exact Hcaps|congruence].
        -- now apply Hagain.
  - destruct (Nat.eqb m n) eqn:Emn.
    + destruct Hw as [Hg [Hcons Hcl]].
      apply (matchAt_group_free r1 Hg Hcl) in H as [pre [rest' [E [F [N H]]]]].
      eexists rest', _. split; [|exact H].
      intros s Hs. cbn [capture] in Hs. rewrite Emn in Hs. inversion Hs; subst s.
      subst rest. rewrite length_app, Nat.add_sub, firstn_app, firstn_all,
        Nat.sub_diag, firstn_O, app_nil_r.
      split; [now apply N|exact F].
    + apply (IH1 Hw _ _ _ _ _ Hcaps) in H as [rest1 [caps1 [Hc1 H1]]].
      eexists rest1, _. split; [|exact H1].
      intros s Hs. cbn [capture] in Hs. rewrite Emn in Hs. now apply Hc1.
Qed.

Lemma exec_captures (r : regex) (s : jsstring) (m : captures) :
  capturesWell n P r -> exec r s = Some m -> captured m.
Proof.
  intros Hw. unfold exec. generalize s at 2. intros rest.
  induction rest as [|x rest IH]; cbn [execFrom];
    destruct (matchAt r s _ [] (fun _ caps => Some caps)) as [c|] eqn:E;
    intros H; try discriminate.
  - inversion H; subst c.
    apply (matchAt_captures r Hw) in E as [rest' [caps' [Hc Hk]]];
      [now inversion Hk; subst|intros t Ht; discriminate].
  - inversion H; subst c.
    apply (matchAt_captures r Hw) in E as [rest' [caps' [Hc Hk]]];
      [now inversion Hk; subst|intros t Ht; discriminate].
  - now apply IH.
Qed.

Lemma firstMatch_captures (patterns : list regex) (s : jsstring) (m : captures) :
  Forall (capturesWell n P) patterns ->
  firstMatch patterns s = Some m -> captured m.
Proof.
  unfold firstMatch. induction 1 as [|r rs Hr _ IH]; [discriminate|].
  fold firstMatch in *. destruct (exec r s) as [m'|] eqn:E; [|exact IH].
  intros H. inversion H; subst m'. now apply (exec_captures r s Hr).
Qed.

End Captures.

(** ** What a matched line holds *)

Section Delimiters.

Lemma jsstring_eqb_eq (a b : jsstring) : jsstring_eqb a b = true -> a = b.
Proof.
  revert b. induction a as [|x a IH]; intros [|y b] H; try discriminate.
  - reflexivity.
  - cbn in H. apply andb_true_iff in H as [Hx Hab].
    apply N.eqb_eq in Hx. subst y. f_equal. now apply IH.
Qed.

Lemma matchAt_endsIn (a : ascii) (r : regex) :
  endsIn a r ->
  forall input rest caps k c,
    (exists pre, input = pre ++ rest) ->
    matchAt r input rest caps k = Some c ->
    In (N_of_ascii a) input.
Proof.
  induction r as [| |p|r1 IH1 r2 IH2|r1 IH1 r2 IH2|g r1 IH1|n r1 IH1];
    intros He input rest caps k c Hs H; cbn [endsIn] in He; try contradiction.
  - injection He as Hp. subst p. cbn [matchAt] in H.
    destruct rest as [|y rest]; [discriminate|].
    destruct (N.eqb (N_of_ascii a) y) eqn:Ey; [|discriminate].
    apply N.eqb_eq in Ey. subst y. destruct Hs as [pre ->].
    apply in_or_app. right. now left.
  - cbn [matchAt] in H.
    apply matchAt_continues in H as [rest1 [caps1 [[pre1 E1] H1]]].
    apply (IH2 He input rest1 caps1 k c); [|exact H1].
    destruct Hs as [pre ->]. exists (pre ++ pre1). subst rest.
    now rewrite <- app_assoc.
Qed.

Lemma exec_endsIn (a : ascii) (r : regex) (s : jsstring) (m : captures) :
  endsIn a r -> exec r s = Some m -> In (N_of_ascii a) s.
Proof.
  intros He. unfold exec.
  assert (Hs : exists pre, s = pre ++ s) by now exists [].
  revert Hs. generalize s at 2 4. intros rest.
  induction rest as [|x rest IH]; intros Hs H; cbn [execFrom] in H.
  - destruct (matchAt r s [] [] (fun _ caps => Some caps)) as [c|] eqn:E;
      [|discriminate].
    eapply matchAt_endsIn; eassumption.
  - destruct (matchAt r s (x :: rest) [] (fun _ caps => Some caps)) as [c|] eqn:E.
    + eapply matchAt_endsIn; eassumption.
    + apply IH; [|exact H]. destruct Hs as [pre ->]. exists (pre ++ [x]).
      now rewrite <- app_assoc.
Qed.

Lemma signatureMatch_delimiter (f : family) (l : jsstring) (m : captures) :
  signatureMatch f l = Some m -> In (lastDelimiter f) l.
Proof.
  destruct f; cbn [signatureMatch lastDelimiter].
  - apply firstMatch_In. unfold functionPatterns.
    repeat constructor; intros m' H'; apply exec_last_char in H'; exact H'.
  - apply (exec_endsIn ":"). cbn. reflexivity.
  - apply (exec_endsIn "{"). cbn. reflexivity.
  - apply (exec_endsIn ")"). cbn. reflexivity.
Qed.

Lemma In_not_blank (c : char) (l : jsstring) :
  In c l -> isWhiteSpace c = false -> isBlank l = false.
Proof.
  intros Hin Hc. destruct (isBlank l) eqn:E; [|reflexivity].
  unfold isBlank in E. rewrite forallb_forall in E. specialize (E c Hin). congruence.
Qed.

Lemma signatureMatch_not_blank (f : family) (l : jsstring) (m : captures) :
  signatureMatch f l = Some m -> isBlank l = false.
Proof.
  intros H. apply signatureMatch_delimiter in H.
  apply (In_not_blank _ _ H). now destruct f.
Qed.

End Delimiters.

(** X1.  Every pattern of a family ends with a literal delimiter ('{' for the
    JS/TS and the C family, ':' for Python, ')' for the fallback), so a line
    of the buffer that matches holds that delimiter and is not blank. *)
Theorem matched_line_holds_delimiter (f : family) (lines : list jsstring) (i : nat) :
  matchesAt f lines i ->
  exists l,
    nth_error lines i = Some l /\
    In (lastDelimiter f) l /\
    isBlank l = false.
Proof.
  intros [l [Hl Hm]]. exists l. split; [exact Hl|].
  destruct (signatureMatch f l) as [m|] eqn:Em; [|congruence].
  split; [now apply (signatureMatch_delimiter f l Em)|
          now apply (signatureMatch_not_blank f l Em)].
Qed.

Lemma matched_line_holds_delimiter_witness :
  matchesAt JavaScriptFamily (linesOf jsAdd) 0 /\
  exists l,
    nth_error (linesOf jsAdd) 0 = Some l /\
    In (lastDelimiter JavaScriptFamily) l /\
    isBlank l = false.
Proof.
  assert (Hm : matchesAt JavaScriptFamily (linesOf jsAdd) 0)
    by (apply matchesAtB_spec; vm_compute; reflexivity).
  split; [exact Hm|].
  exact (@matched_line_holds_delimiter JavaScriptFamily (linesOf jsAdd) 0 Hm).
Defined.

(** ** The records the locator returns *)

Section Records.

Variable document : TextDocument.
Variable position : Position.
Variable r : FunctionInfo.
Hypothesis located : findFunctionAtPosition document position = Returned (Some r).

Lemma located_cursor : line position < length (linesOf document).
Proof.
  destruct (Nat.lt_ge_cases (line position) (length (linesOf document)))
    as [Hlt|Hge]; [exact Hlt|].
  rewrite findFunctionAtPosition_outside in located by exact Hge. discriminate.
Qed.

(** The header the record was built from. *)
Lemma located_header :
  exists hdr m,
    inWindow (line position) (lookback (familyOf (languageId document))) (startLine r) /\
    nth_error (linesOf document) (startLine r) = Some hdr /\
    signatureMatch (familyOf (languageId document)) hdr = Some m /\
    functionAt (familyOf (languageId document)) document (startLine r)
      = Returned (Some r).
Proof.
  destruct (@locate_inv document position located_cursor (Some r) located)
    as [h [Hw [[l [Hl Hm]] [E _]]]].
  destruct (signatureMatch (familyOf (languageId document)) l) as [m|] eqn:Em;
    [|congruence].
  destruct (functionAt_matched document _ h Hl Em) as [r' [E' [Hs _]]].
  assert (r' = r) by congruence. subst r'. rewrite Hs.
  exists l, m. split; [exact Hw|]. split; [exact Hl|]. split; [exact Em|exact E].
Qed.

End Records.

(** The span of a record of the Python path. *)
Lemma python_record_span (document : TextDocument) (i : nat) (hdr : jsstring)
    (m : captures) (r : FunctionInfo) :
  nth_error (linesOf document) i = Some hdr ->
  exec pythonPattern hdr = Some m ->
  collectIndented (skipn (i + 1) (linesOf document)) (i + 1) (searchNonSpace hdr) [] i
    = (body r, endLine r) ->
  i <= endLine r < length (linesOf document) /\
  body r = terminated (span (linesOf document) (i + 1) (endLine r)).
Proof.
  intros Hl Hm Hb.
  pose proof (python_header_not_blank _ Hm) as Hnb.
  rewrite (searchNonSpace_indentation _ Hnb) in Hb.
  destruct (collectIndented_spec (skipn (i + 1) (linesOf document)) (i + 1)
              (indentation hdr) [] i) as [n [Hn [Ec _]]].
  rewrite Ec in Hb. injection Hb as Hbody Hend.
  assert (Hi : i < length (linesOf document)) by (apply nth_error_Some; congruence).
  rewrite length_skipn in Hn.
  assert (Ee : endLine r = i + n) by (rewrite <- Hend; destruct n; lia).
  split; [lia|]. rewrite <- Hbody, Ee. unfold span.
  now replace (i + n + 1 - (i + 1)) with n by lia.
Qed.

(** X2.  Whatever the language, a record the locator returns starts on the
    cursor line or at most [lookback] lines above it, and ends on a line of
    the buffer at or below its start.  (The cursor itself may lie below
    [endLine].) *)
Theorem located_record_bounds (document : TextDocument) (position : Position)
    (r : FunctionInfo) :
  findFunctionAtPosition document position = Returned (Some r) ->
  startLine r <= line position /\
  line position <= startLine r + lookback (familyOf (languageId document)) /\
  startLine r <= endLine r /\
  endLine r < length (linesOf document).
Proof.
  intros H. destruct (@located_header _ _ _ H) as [hdr [m [Hw [Hl [Hm Hat]]]]].
  destruct (functionAt_matched document _ (startLine r) Hl Hm)
    as [r' [E' [_ [_ [_ Hb]]]]].
  assert (r' = r) by congruence. subst r'.
  unfold inWindow in Hw. split; [lia|]. split; [lia|].
  destruct (familyOf (languageId document)) eqn:Ef;
    try (destruct Hb as [Hb _]; apply findFunctionBody_span in Hb;
         destruct Hb as [_ [Hrange _]]; exact Hrange).
  destruct Hb as [Hb _]. cbn [signatureMatch] in Hm.
  exact (proj1 (@python_record_span document _ hdr m r Hl Hm Hb)).
Qed.

Lemma located_record_bounds_witness :
  exists r,
    findFunctionAtPosition pyBlankLines (cursor 3) = Returned (Some r) /\
    startLine r <= line (cursor 3) /\
    line (cursor 3) <= startLine r + lookback (familyOf (languageId pyBlankLines)) /\
    startLine r <= endLine r /\
    endLine r < length (linesOf pyBlankLines).
Proof.
  destruct (findFunctionAtPosition pyBlankLines (cursor 3)) as [[r|]|] eqn:E;
    try (vm_compute in E; discriminate).
  exists r. split; [reflexivity|].
  exact (@located_record_bounds pyBlankLines (cursor 3) r E).
Defined.

Section Fields.

Lemma familyOf_python (language : jsstring) :
  familyOf language = PythonFamily -> language = lit "python".
Proof.
  unfold familyOf.
  destruct (isLanguage language
              ["javascript"; "typescript"; "typescriptreact"; "javascriptreact"]%string);
    [discriminate|].
  destruct (isLanguage language ["python"]%string) eqn:Ep.
  - intros _. unfold isLanguage in Ep. cbn [existsb] in Ep.
    rewrite orb_false_r in Ep. now apply jsstring_eqb_eq.
  - destruct (isLanguage language ["java"; "csharp"; "cpp"; "c"]%string); discriminate.
Qed.

(** The language field of a record built at a line. *)
Lemma functionAt_language (document : TextDocument) (f : family) (i : nat)
    (r : FunctionInfo) :
  functionAt f document i = Returned (Some r) ->
  language r = match f with
               | PythonFamily => lit "python"
               | _ => languageId document
               end.
Proof.
  destruct f; cbn [functionAt];
    [unfold javaScriptFunctionAt|unfold pythonFunctionAt|unfold cStyleFunctionAt|
     unfold genericFunctionAt, lineAt];
    destruct (nth_error (linesOf document) i) as [l|]; cbn [toString deref bind];
    try discriminate;
    try (destruct (firstMatch functionPatterns _); cbn [deref bind];
         try discriminate);
    try (destruct (exec _ _); cbn [deref bind]; try discriminate);
    try (destruct (findFunctionBody document i) as [[[b s] e]|]; cbn [bind];
         try discriminate;
         destruct (findExistingDocumentation document s); cbn [bind];
         try discriminate);
    try (destruct (collectIndented _ _ _ _ _) as [b e]);
    intros H; injection H as <-; reflexivity.
Qed.

Lemma identifier_class (c : char) :
  isAlnum c || isOneOf "_" c = true -> isIdentifierChar c.
Proof.
  unfold isIdentifierChar, isOneOf. intros H.
  apply orb_true_iff in H as [H|H]; [now rewrite H|].
  apply orb_true_iff. right.
  change (lit "_") with [95%N] in H. change (lit "_$") with [95%N; 36%N].
  cbn [existsb] in *. rewrite orb_false_r in H. now rewrite H.
Qed.

(** In every pattern the name group wraps one or more identifier code
    units. *)
Lemma patterns_capture_names (f : family) :
  Forall (capturesWell (nameGroup f) isIdentifierChar) (patternsOf f).
Proof.
  destruct f; cbn [patternsOf nameGroup]; unfold functionPatterns, pythonPattern,
    cStylePattern, genericPattern, params, some, many, maybe, manyLazy,
    identDollar, ident;
    repeat constructor; cbn [capturesWell Nat.eqb groupFree consumes classesIn
                             andb orb];
    repeat split;
    try (intros c Hc; exact Hc);
    try (intros c Hc; now apply identifier_class).
Qed.

Lemma signatureMatch_name (f : family) (l : jsstring) (m : captures) :
  signatureMatch f l = Some m ->
  group m (nameGroup f) <> [] /\ Forall isIdentifierChar (group m (nameGroup f)).
Proof.
  intros H.
  assert (Hc : forall s, capture m (nameGroup f) = Some s ->
                         s <> [] /\ Forall isIdentifierChar s).
  { pose proof (patterns_capture_names f) as Hw.
    destruct f; cbn [signatureMatch patternsOf] in *.
    - exact (@firstMatch_captures isIdentifierChar 1 functionPatterns l m Hw H).
    - inversion Hw; subst. now apply (@exec_captures isIdentifierChar 1 pythonPattern l m).
    - inversion Hw; subst. now apply (@exec_captures isIdentifierChar 4 cStylePattern l m).
    - inversion Hw; subst. now apply (@exec_captures isIdentifierChar 1 genericPattern l m). }
  unfold group. destruct (capture m (nameGroup f)) as [s|]; cbn [toString].
  - now apply Hc.
  - split; [discriminate|]. repeat constructor.
Qed.

End Fields.

(** X3.  The fields of a record the locator returns: [language] is the tag of the
    document, in every path; [signature] is the trimmed text of the line
    [startLine] and is not empty; [name] is not empty and made of letters,
    digits, '_' and '$' only. *)
Theorem located_record_fields (document : TextDocument) (position : Position)
    (r : FunctionInfo) :
  findFunctionAtPosition document position = Returned (Some r) ->
  language r = languageId document /\
  (exists hdr, nth_error (linesOf document) (startLine r) = Some hdr /\
               signature r = trim hdr) /\
  signature r <> [] /\
  name r <> [] /\
  Forall isIdentifierChar (name r).
Proof.
  intros H. destruct (@located_header _ _ _ H) as [hdr [m [Hw [Hl [Hm Hat]]]]].
  destruct (functionAt_matched document _ (startLine r) Hl Hm)
    as [r' [E' [_ [Hn [Hsig _]]]]].
  assert (r' = r) by congruence. subst r'.
  split.
  - rewrite (@functionAt_language document _ (startLine r) r Hat).
    destruct (familyOf (languageId document)) eqn:Ef; try reflexivity.
    symmetry. now apply familyOf_python.
  - split; [exists hdr; now split|]. split.
    + rewrite Hsig. intros Hnil. apply trim_nil in Hnil.
      rewrite (@signatureMatch_not_blank _ hdr m Hm) in Hnil. discriminate.
    + rewrite Hn. now apply (@signatureMatch_name _ hdr m).
Qed.

Lemma located_record_fields_witness :
  exists r,
    findFunctionAtPosition documented (cursor 5) = Returned (Some r) /\
    language r = languageId documented /\
    (exists hdr, nth_error (linesOf documented) (startLine r) = Some hdr /\
                 signature r = trim hdr) /\
    signature r <> [] /\
    name r <> [] /\
    Forall isIdentifierChar (name r).
Proof.
  destruct (findFunctionAtPosition documented (cursor 5)) as [[r|]|] eqn:E;
    try (vm_compute in E; discriminate).
  exists r. split; [reflexivity|].
  exact (@located_record_fields documented (cursor 5) r E).
Defined.

Lemma brace_body_is_span_witness :
  familyOf (languageId braceBelow) <> PythonFamily /\
  exists r,
    findFunctionAtPosition braceBelow (cursor 2) = Returned (Some r) /\
    startLine r <= endLine r < length (linesOf braceBelow) /\
    body r = terminated (span (linesOf braceBelow) (startLine r) (endLine r)).
Proof.
  assert (Hf : familyOf (languageId braceBelow) <> PythonFamily)
    by (vm_compute; discriminate).
  split; [exact Hf|].
  destruct (findFunctionAtPosition braceBelow (cursor 2)) as [[r|]|] eqn:E;
    try (vm_compute in E; discriminate).
  exists r. split; [reflexivity|].
  exact (@brace_body_is_span braceBelow (cursor 2) r Hf E).
Defined.

(** ** The brace collector in general *)

(** X4.  For a header line [h] of the buffer: when the first line at or below [h]
    that has an opening brace is [o] (the header itself or a later line) and
    the counter started from the opening braces of [o] first returns to zero
    on line [e], the collector returns [h] as startLine, [e] as endLine and
    the text of lines [h] to [e] as body. *)
Theorem body_collector_stops_where_braces_close (document : TextDocument)
    (h o e : nat) :
  h < length (linesOf document) ->
  openingLine (linesOf document) h o ->
  closesAt (linesOf document) o e ->
  findFunctionBody document h =
    Returned (terminated (span (linesOf document) h e), h, e).
Proof.
  intros Hh Hopen Hclose. apply findFunctionBody_closes; [exact Hh|].
  now exists o.
Qed.

Lemma body_collector_stops_where_braces_close_witness :
  openingLine (linesOf braceBelow) 0 1 /\
  closesAt (linesOf braceBelow) 1 3 /\
  findFunctionBody braceBelow 0 =
    Returned (terminated (span (linesOf braceBelow) 0 3), 0, 3).
Proof.
  assert (Hopen : openingLine (linesOf braceBelow) 0 1).
  { split; [lia|]. split.
    - exists (lit "{"). split; vm_compute; reflexivity.
    - intros m l Hm El. assert (m = 0) by lia. subst m.
      vm_compute in El. inversion El; subst l. vm_compute. reflexivity. }
  assert (Hclose : closesAt (linesOf braceBelow) 1 3)
    by (apply closesAtB_spec; vm_compute; reflexivity).
  split; [exact Hopen|]. split; [exact Hclose|].
  apply (@body_collector_stops_where_braces_close braceBelow 0 1 3);
    [vm_compute; lia|exact Hopen|exact Hclose].
Defined.

(** ** The doc-comment finder in general *)

Section DocFinder.

Variable lines : list jsstring.

Lemma skipBlankAbove_inv (n : nat) (stop : option nat) :
  n <= length lines ->
  skipBlankAbove lines n = Returned stop ->
  match stop with
  | None => forall j l, j < n -> nth_error lines j = Some l -> isBlank l = true
  | Some b =>
      b < n /\
      (exists lb, nth_error lines b = Some lb /\ isBlank lb = false) /\
      forall j l, b < j < n -> nth_error lines j = Some l -> isBlank l = true
  end.
Proof.
  induction n as [|n IH]; intros Hn H; cbn [skipBlankAbove] in H.
  - injection H as <-. intros j l Hj. lia.
  - destruct (nth_error lines n) as [ln|] eqn:En;
      [|apply nth_error_None in En; lia].
    cbn [deref bind] in H. rewrite trim_eqb_blank in H.
    destruct (isBlank ln) eqn:Eb.
    + specialize (IH ltac:(lia) H). destruct stop as [b|].
      * destruct IH as [Hb [Hlb Hblank]]. split; [lia|]. split; [exact Hlb|].
        intros j l Hj El. destruct (Nat.eq_dec j n) as [->|Hne];
          [congruence|apply (Hblank j l); [lia|exact El]].
      * intros j l Hj El. destruct (Nat.eq_dec j n) as [->|Hne];
          [congruence|apply (IH j l); [lia|exact El]].
    + injection H as <-. split; [lia|]. split; [now exists ln|].
      intros j l Hj. lia.
Qed.

Lemma collectDocAbove_inv (n : nat) (docLines : list jsstring) (res : option jsstring) :
  n <= length lines ->
  collectDocAbove lines n docLines = Returned res ->
  match res with
  | None => forall j l, j < n -> nth_error lines j = Some l ->
                        startsWith (lit "/**") (trim l) = false
  | Some doc =>
      exists a la,
        a < n /\ nth_error lines a = Some la /\
        startsWith (lit "/**") (trim la) = true /\
        (forall j l, a < j < n -> nth_error lines j = Some l ->
                     startsWith (lit "/**") (trim l) = false) /\
        doc = joinLines (firstn (n - a) (skipn a lines) ++ docLines)
  end.
Proof.
  revert docLines. induction n as [|n IH]; intros docLines Hn H;
    cbn [collectDocAbove] in H.
  - injection H as <-. intros j l Hj. lia.
  - destruct (nth_error lines n) as [ln|] eqn:En;
      [|apply nth_error_None in En; lia].
    cbn [deref bind] in H.
    destruct (startsWith (lit "/**") (trim ln)) eqn:Es.
    + injection H as <-. exists n, ln.
      split; [lia|]. split; [exact En|]. split; [exact Es|].
      split; [intros j l Hj; lia|].
      replace (S n - n) with 1 by lia. now rewrite (skipn_nth_error _ _ En).
    + specialize (IH (ln :: docLines) ltac:(lia) H). destruct res as [doc|].
      * destruct IH as [a [la [Ha [Ela [Hla [Hinner Hdoc]]]]]].
        exists a, la. split; [lia|]. split; [exact Ela|]. split; [exact Hla|]. split.
        -- intros j l Hj El. destruct (Nat.eq_dec j n) as [->|Hne];
             [congruence|apply (Hinner j l); [lia|exact El]].
        -- rewrite Hdoc. replace (S n - a) with (S (n - a)) by lia.
           rewrite (@firstn_S_nth_error (n - a) ln).
           ++ now rewrite <- app_assoc.
           ++ rewrite nth_error_skipn. now replace (a + (n - a)) with n by lia.
      * intros j l Hj El. destruct (Nat.eq_dec j n) as [->|Hne];
          [congruence|apply (IH j l); [lia|exact El]].
Qed.

Lemma joinLines_cons_nonempty (l : jsstring) (ls : list jsstring) :
  l <> [] -> joinLines (l :: ls) <> [].
Proof.
  intros Hl. unfold joinLines. fold joinLines. destruct ls.
  - exact Hl.
  - destruct l; [contradiction|discriminate].
Qed.

Lemma startsWith_nonempty (p s : jsstring) :
  p <> [] -> startsWith p (trim s) = true -> s <> [].
Proof.
  intros Hp H Hs. subst s. destruct p; [contradiction|discriminate].
Qed.

End DocFinder.

Section DocFinderDocument.

Variable document : TextDocument.
Let lines := linesOf document.

(** The finder returns the block right above the start line. *)
Lemma findExistingDocumentation_block (s a b : nat) :
  s <= length lines ->
  docBlockAbove lines s a b ->
  findExistingDocumentation document s = Returned (Some (joinLines (span lines a b))).
Proof.
  intros Hs [Hab [[la [Ha Hopen]] [[lb [Hb Hclose]] [Hinner Hblank]]]].
  assert (Hnb : isBlank lb = false).
  { apply (@endsWith_nonempty_not_blank (lit "*/")); [discriminate|exact Hclose]. }
  unfold findExistingDocumentation. fold lines.
  rewrite (@skipBlankAbove_stops lines s b lb) by (lia || assumption).
  cbn [bind]. rewrite Hb. cbn [deref bind]. rewrite Hclose.
  rewrite (@collectDocAbove_collects lines (S b) a la []);
    try assumption; [|lia|intros j l Hj; apply Hinner; lia].
  rewrite app_nil_r. unfold span. now replace (S b - a) with (b + 1 - a) by lia.
Qed.

(** What it returns is the block right above the start line. *)
Lemma findExistingDocumentation_inv (s : nat) (doc : jsstring) :
  s <= length lines ->
  findExistingDocumentation document s = Returned (Some doc) ->
  exists a b, docBlockAbove lines s a b /\ doc = joinLines (span lines a b).
Proof.
  intros Hs H. unfold findExistingDocumentation in H. fold lines in H.
  destruct (skipBlankAbove_returns lines Hs) as [stop [E _]].
  rewrite E in H. cbn [bind] in H.
  pose proof (@skipBlankAbove_inv lines s stop Hs E) as Hstop.
  destruct stop as [b|]; [|discriminate].
  destruct Hstop as [Hb [[lb [Elb Hnb]] Hblank]].
  rewrite Elb in H. cbn [deref bind] in H.
  destruct (endsWith (lit "*/") (trim lb)) eqn:Eclose; [|discriminate].
  apply (@collectDocAbove_inv lines (S b) [] (Some doc)) in H; [|lia].
  destruct H as [a [la [Ha [Ela [Hla [Hinner Hdoc]]]]]].
  exists a, b. split.
  - split; [lia|]. split; [now exists la|]. split; [now exists lb|].
    split; [|exact Hblank]. intros j l Hj. apply Hinner. lia.
  - rewrite Hdoc, app_nil_r. unfold span.
    now replace (S b - a) with (b + 1 - a) by lia.
Qed.

End DocFinderDocument.

(** X5.  For a start line [s] of the buffer (or the line after its last one) the
    doc-comment finder is characterised completely: it returns a text [doc]
    exactly when there is a doc comment block [a..b] right above [s] (closer
    on the nearest non-blank line [b] above [s], opener on the nearest line
    [a] at or above [b] that begins with it) and [doc] is the lines [a..b]
    joined by newlines; it returns nothing exactly when there is no such
    block: all lines above are blank, the nearest non-blank line does not end
    with the closer, or no line at or above it begins with the opener. *)
Theorem doc_finder_characterisation (document : TextDocument) (s : nat) :
  s <= length (linesOf document) ->
  (forall doc,
     findExistingDocumentation document s = Returned (Some doc) <->
     exists a b, docBlockAbove (linesOf document) s a b /\
                 doc = joinLines (span (linesOf document) a b)) /\
  (findExistingDocumentation document s = Returned None <->
   ~ exists a b, docBlockAbove (linesOf document) s a b).
Proof.
  intros Hs.
  assert (Hsome : forall doc,
     findExistingDocumentation document s = Returned (Some doc) <->
     exists a b, docBlockAbove (linesOf document) s a b /\
                 doc = joinLines (span (linesOf document) a b)).
  { intros doc. split.
    - now apply findExistingDocumentation_inv.
    - intros [a [b [Hblock ->]]]. now apply findExistingDocumentation_block. }
  split; [exact Hsome|]. split.
  - intros Hnone [a [b Hblock]].
    rewrite (findExistingDocumentation_block document Hs Hblock) in Hnone.
    discriminate.
  - intros Hno. destruct (findExistingDocumentation_returns document Hs) as [[doc|] E];
      [|exact E].
    exfalso. apply Hno. apply Hsome in E. destruct E as [a [b [Hblock _]]].
    now exists a, b.
Qed.

Lemma doc_finder_characterisation_witness :
  4 <= length (linesOf documented) /\
  docBlockAbove (linesOf documented) 4 0 2 /\
  findExistingDocumentation documented 4 =
    Returned (Some (joinLines (span (linesOf documented) 0 2))) /\
  findExistingDocumentation plainComment 2 = Returned None /\
  findExistingDocumentation closerWithoutOpener 1 = Returned None.
Proof.
  assert (Hs : 4 <= length (linesOf documented)) by (vm_compute; lia).
  assert (Hblock : docBlockAbove (linesOf documented) 4 0 2).
  { split; [lia|]. split; [exists (lit "/**"); split; vm_compute; reflexivity|].
    split; [exists (lit " */"); split; vm_compute; reflexivity|]. split.
    - intros j l Hj El. assert (Hcases : j = 1 \/ j = 2) by lia.
      destruct Hcases as [-> | ->]; vm_compute in El; inversion El; subst l;
        vm_compute; reflexivity.
    - intros j l Hj El. assert (j = 3) by lia. subst j.
      vm_compute in El. inversion El; subst l. reflexivity. }
  split; [exact Hs|]. split; [exact Hblock|].
  destruct (@doc_finder_characterisation documented 4 Hs) as [Hsome _].
  split; [apply Hsome; now exists 0, 2|].
  split; vm_compute; reflexivity.
Defined.

(** ** The Python docstring finder in general *)

Section Docstring.

Lemma collectDocstring_closed (rest : list jsstring) (q : jsstring)
    (docLines : list jsstring) (j : nat) (l : jsstring) :
  nth_error rest j = Some l ->
  endsWith q (trim l) = true ->
  (forall m lm, m < j -> nth_error rest m = Some lm -> endsWith q (trim lm) = false) ->
  collectDocstring rest q docLines = docLines ++ firstn (S j) rest.
Proof.
  revert docLines j. induction rest as [|x rest IH]; intros docLines j Hj Hl Hfirst.
  - destruct j; discriminate.
  - cbn [collectDocstring]. destruct j as [|j]; cbn [nth_error] in Hj.
    + injection Hj as ->. rewrite Hl. reflexivity.
    + rewrite (Hfirst 0 x) by (lia || reflexivity).
      rewrite (IH (docLines ++ [x]) j Hj Hl).
      * now rewrite <- app_assoc.
      * intros m lm Hm Em. apply (Hfirst (S m) lm); [lia|exact Em].
Qed.

Lemma collectDocstring_open (rest : list jsstring) (q : jsstring)
    (docLines : list jsstring) :
  (forall m lm, nth_error rest m = Some lm -> endsWith q (trim lm) = false) ->
  collectDocstring rest q docLines = docLines ++ rest.
Proof.
  revert docLines. induction rest as [|x rest IH]; intros docLines Hnone.
  - cbn. now rewrite app_nil_r.
  - cbn [collectDocstring]. rewrite (Hnone 0 x) by reflexivity.
    rewrite IH; [now rewrite <- app_assoc|].
    intros m lm Em. apply (Hnone (S m) lm Em).
Qed.

Lemma collectDocstring_prefix (rest : list jsstring) (q : jsstring)
    (docLines : list jsstring) :
  exists n, collectDocstring rest q docLines = docLines ++ firstn n rest.
Proof.
  revert docLines. induction rest as [|x rest IH]; intros docLines.
  - exists 0. cbn. now rewrite app_nil_r.
  - cbn [collectDocstring]. destruct (endsWith q (trim x)).
    + now exists 1.
    + destruct (IH (docLines ++ [x])) as [n Hn]. exists (S n).
      rewrite Hn. now rewrite <- app_assoc.
Qed.

Variable document : TextDocument.
Variable lines : list jsstring.
Variable h : nat.

(** The finder, once the line below the header is known. *)
Lemma findPythonDocstring_next (next : jsstring) :
  nth_error lines (h + 1) = Some next ->
  findPythonDocstring document h lines =
    if startsWith tripleDouble (trim next) || startsWith tripleSingle (trim next)
    then Some (joinLines
                 (if closesOnSameLine next then [next]
                  else collectDocstring (skipn (h + 2) lines)
                         (if startsWith tripleDouble (trim next)
                          then tripleDouble else tripleSingle) [next]))
    else None.
Proof.
  intros Hn. unfold findPythonDocstring, closesOnSameLine. rewrite Hn.
  destruct (startsWith tripleDouble (trim next) || startsWith tripleSingle (trim next));
    [|reflexivity].
  destruct (endsWith tripleDouble (trim next)), (endsWith tripleSingle (trim next)),
    (3 <? length (trim next)); reflexivity.
Qed.

Lemma opensDocstring_next (q next : jsstring) :
  opensDocstring lines h q ->
  nth_error lines (h + 1) = Some next ->
  startsWith tripleDouble (trim next) || startsWith tripleSingle (trim next) = true /\
  (if startsWith tripleDouble (trim next) then tripleDouble else tripleSingle) = q.
Proof.
  intros [next' [Hn' [Hq Hcases]]] Hn. rewrite Hn in Hn'. injection Hn' as <-.
  destruct Hcases as [-> | [-> Hnot]].
  - rewrite Hq. split; reflexivity.
  - rewrite Hq, Hnot. split; reflexivity.
Qed.

(** What the finder returns begins with the line below the header and is
    not empty. *)
Lemma findPythonDocstring_begins (doc : jsstring) :
  findPythonDocstring document h lines = Some doc ->
  exists next tail,
    nth_error lines (h + 1) = Some next /\ doc = next ++ tail /\ doc <> [].
Proof.
  destruct (nth_error lines (h + 1)) as [next|] eqn:Hn;
    [|unfold findPythonDocstring; rewrite Hn; discriminate].
  rewrite (findPythonDocstring_next Hn). intros Hdoc.
  destruct (startsWith tripleDouble (trim next) || startsWith tripleSingle (trim next))
    eqn:Eo; [|discriminate].
  assert (Hne : next <> []).
  { apply orb_true_iff in Eo as [Eo|Eo];
      [apply (@startsWith_nonempty tripleDouble)|
       apply (@startsWith_nonempty tripleSingle)];
      (discriminate || exact Eo). }
  injection Hdoc as <-. destruct (closesOnSameLine next).
  - exists next, []. split; [reflexivity|]. split; [now rewrite app_nil_r|exact Hne].
  - destruct (collectDocstring_prefix (skipn (h + 2) lines)
                (if startsWith tripleDouble (trim next)
                 then tripleDouble else tripleSingle) [next]) as [n ->].
    cbn [app]. split with next.
    destruct (firstn n (skipn (h + 2) lines)) as [|y ys].
    + exists []. split; [reflexivity|]. split; [now rewrite app_nil_r|exact Hne].
    + exists (NL :: joinLines (y :: ys)). split; [reflexivity|].
      split; [reflexivity|].
      now apply joinLines_cons_nonempty.
Qed.

End Docstring.

(** X6.  The docstring finder looks at the line right below the header and at no
    other line to decide: it finds a docstring exactly when that line exists
    and its trimmed text starts with one of the two triple-quote delimiters
    (a blank line in between hides the docstring).  What it finds begins
    with that line, untrimmed, and is never the empty string. *)
Theorem docstring_found_iff (document : TextDocument) (lines : list jsstring)
    (h : nat) :
  (findPythonDocstring document h lines <> None <->
   exists q, opensDocstring lines h q) /\
  (forall doc,
     findPythonDocstring document h lines = Some doc ->
     exists next tail,
       nth_error lines (h + 1) = Some next /\ doc = next ++ tail /\ doc <> []).
Proof.
  split; [|apply findPythonDocstring_begins].
  destruct (nth_error lines (h + 1)) as [next|] eqn:Hn.
  - rewrite (findPythonDocstring_next document lines h Hn).
    destruct (startsWith tripleDouble (trim next)) eqn:Ed.
    + cbn [orb]. split; [|discriminate]. intros _. exists tripleDouble, next.
      split; [exact Hn|]. split; [exact Ed|now left].
    + destruct (startsWith tripleSingle (trim next)) eqn:Es; cbn [orb].
      * split; [|discriminate]. intros _. exists tripleSingle, next.
        split; [exact Hn|]. split; [exact Es|now right].
      * split; [congruence|]. intros [q [next' [Hn' [Hq Hcases]]]].
        rewrite Hn in Hn'. injection Hn' as <-.
        destruct Hcases as [-> | [-> _]]; congruence.
  - unfold findPythonDocstring. rewrite Hn. split; [congruence|].
    intros [q [next [Hn' _]]]. congruence.
Qed.

(** X7.  When the line below the header opens a docstring and its trimmed text,
    longer than three code units, ends with a triple-quote delimiter, the
    docstring is that one line, untrimmed. *)
Theorem docstring_on_one_line (document : TextDocument) (lines : list jsstring)
    (h : nat) (q next : jsstring) :
  opensDocstring lines h q ->
  nth_error lines (h + 1) = Some next ->
  closesOnSameLine next = true ->
  findPythonDocstring document h lines = Some next.
Proof.
  intros Hopen Hn Hclose.
  destruct (opensDocstring_next Hopen Hn) as [Ho _].
  rewrite (findPythonDocstring_next document lines h Hn), Ho, Hclose. reflexivity.
Qed.

Lemma docstring_on_one_line_witness :
  opensDocstring (linesOf pyOneLineDocstring) 0 tripleDouble /\
  exists next,
    nth_error (linesOf pyOneLineDocstring) (0 + 1) = Some next /\
    closesOnSameLine next = true /\
    findPythonDocstring pyOneLineDocstring 0 (linesOf pyOneLineDocstring) = Some next.
Proof.
  assert (Hopen : opensDocstring (linesOf pyOneLineDocstring) 0 tripleDouble).
  { eexists. split; [vm_compute; reflexivity|]. split; [vm_compute; reflexivity|now left]. }
  split; [exact Hopen|]. eexists.
  assert (Hn : nth_error (linesOf pyOneLineDocstring) (0 + 1)
               = Some (lit "    " ++ tripleDouble ++ lit "Doubles x." ++ tripleDouble))
    by (vm_compute; reflexivity).
  split; [exact Hn|].
  assert (Hc : closesOnSameLine
                 (lit "    " ++ tripleDouble ++ lit "Doubles x." ++ tripleDouble) = true)
    by (vm_compute; reflexivity).
  split; [exact Hc|].
  exact (@docstring_on_one_line pyOneLineDocstring _ 0 tripleDouble _ Hopen Hn Hc).
Defined.

(** X8.  When the line below the header opens a docstring with delimiter
    [q], the trimmed text of that line is no longer than three code units
    or ends with neither of the two triple-quote delimiters (the test for a
    docstring on one line fails), and line [j] is the first later line whose
    trimmed text ends with [q], the docstring is the lines from below the
    header to [j], joined by newlines. *)
Theorem docstring_over_several_lines (document : TextDocument)
    (lines : list jsstring) (h j : nat) (q next lj : jsstring) :
  opensDocstring lines h q ->
  nth_error lines (h + 1) = Some next ->
  closesOnSameLine next = false ->
  h + 1 < j ->
  nth_error lines j = Some lj ->
  endsWith q (trim lj) = true ->
  (forall i l, h + 1 < i < j -> nth_error lines i = Some l ->
               endsWith q (trim l) = false) ->
  findPythonDocstring document h lines = Some (joinLines (span lines (h + 1) j)).
Proof.
  intros Hopen Hn Hclose Hj Elj Hq Hfirst.
  destruct (opensDocstring_next Hopen Hn) as [Ho Eq].
  rewrite (findPythonDocstring_next document lines h Hn), Ho, Hclose, Eq.
  rewrite (@collectDocstring_closed (skipn (h + 2) lines) q [next] (j - (h + 2)) lj).
  - f_equal. f_equal. rewrite (@span_from lines (h + 1) j next Hn) by lia.
    cbn [app]. f_equal. replace (S (h + 1)) with (h + 2) by lia.
    f_equal. lia.
  - rewrite nth_error_skipn. now replace (h + 2 + (j - (h + 2))) with j by lia.
  - exact Hq.
  - intros m lm Hm Em. rewrite nth_error_skipn in Em.
    apply (Hfirst (h + 2 + m) lm); [lia|exact Em].
Qed.

Lemma docstring_over_several_lines_witness :
  findPythonDocstring pyDocstring 0 (linesOf pyDocstring)
    = Some (joinLines (span (linesOf pyDocstring) (0 + 1) 3)) /\
  span (linesOf pyDocstring) (0 + 1) 3 =
    [lit "    " ++ tripleDouble; lit "    Doubles x."; lit "    " ++ tripleDouble].
Proof.
  split; [|vm_compute; reflexivity].
  apply (@docstring_over_several_lines pyDocstring (linesOf pyDocstring) 0 3
           tripleDouble (lit "    " ++ tripleDouble) (lit "    " ++ tripleDouble)).
  - eexists. split; [vm_compute; reflexivity|]. split; [vm_compute; reflexivity|now left].
  - vm_compute. reflexivity.
  - vm_compute. reflexivity.
  - lia.
  - vm_compute. reflexivity.
  - vm_compute. reflexivity.
  - intros i l Hi El. assert (i = 2) by lia. subst i.
    vm_compute in El. inversion El; subst l. vm_compute. reflexivity.
Defined.

(** X9.  When the line below the header opens a docstring with delimiter
    [q], the trimmed text of that line is no longer than three code units
    or ends with neither of the two triple-quote delimiters (the test for a
    docstring on one line fails), and no later line has a trimmed text that
    ends with [q], the docstring runs to the end of the buffer: every line
    from below the header on is returned, joined by newlines. *)
Theorem docstring_never_closed (document : TextDocument) (lines : list jsstring)
    (h : nat) (q next : jsstring) :
  opensDocstring lines h q ->
  nth_error lines (h + 1) = Some next ->
  closesOnSameLine next = false ->
  (forall i l, h + 1 < i -> nth_error lines i = Some l ->
               endsWith q (trim l) = false) ->
  findPythonDocstring document h lines = Some (joinLines (skipn (h + 1) lines)).
Proof.
  intros Hopen Hn Hclose Hnone.
  destruct (opensDocstring_next Hopen Hn) as [Ho Eq].
  rewrite (findPythonDocstring_next document lines h Hn), Ho, Hclose, Eq.
  rewrite (@collectDocstring_open (skipn (h + 2) lines) q [next]).
  - rewrite (skipn_nth_error _ _ Hn). cbn [app].
    now replace (S (h + 1)) with (h + 2) by lia.
  - intros m lm Em. rewrite nth_error_skipn in Em.
    apply (Hnone (h + 2 + m) lm); [lia|exact Em].
Qed.

Lemma docstring_never_closed_witness :
  findPythonDocstring pyOpenDocstring 0 (linesOf pyOpenDocstring)
    = Some (joinLines (skipn (0 + 1) (linesOf pyOpenDocstring))) /\
  length (skipn (0 + 1) (linesOf pyOpenDocstring)) = 2.
Proof.
  split; [|vm_compute; reflexivity].
  apply (@docstring_never_closed pyOpenDocstring (linesOf pyOpenDocstring) 0
           tripleDouble (lit "    " ++ tripleDouble ++ lit "Doubles x.")).
  - eexists. split; [vm_compute; reflexivity|]. split; [vm_compute; reflexivity|now left].
  - vm_compute. reflexivity.
  - vm_compute. reflexivity.
  - intros i l Hi El.
    assert (Hlen : i < length (linesOf pyOpenDocstring))
      by (apply nth_error_Some; congruence).
    assert (i = 2) by (vm_compute in Hlen; lia). subst i.
    vm_compute in El. inversion El; subst l. vm_compute. reflexivity.
Defined.

(** ** The documentation a record carries *)

(** X10.  In the brace languages and the fallback, the record of a located
    function carries a documentation text exactly when a doc comment block
    stands right above its [startLine], and the text is that block. *)
Theorem located_doc_block (document : TextDocument) (position : Position)
    (r : FunctionInfo) :
  familyOf (languageId document) <> PythonFamily ->
  findFunctionAtPosition document position = Returned (Some r) ->
  forall doc,
    existingDocumentation r = Some doc <->
    exists a b, docBlockAbove (linesOf document) (startLine r) a b /\
                doc = joinLines (span (linesOf document) a b).
Proof.
  intros Hf H doc.
  destruct (@located_header _ _ _ H) as [hdr [m [Hw [Hl [Hm Hat]]]]].
  destruct (functionAt_matched document _ (startLine r) Hl Hm)
    as [r' [E' [_ [_ [_ Hb]]]]].
  assert (r' = r) by congruence. subst r'.
  assert (Hs : startLine r <= length (linesOf document)).
  { apply Nat.lt_le_incl. apply nth_error_Some. congruence. }
  assert (Hdoc : findExistingDocumentation document (startLine r)
                 = Returned (existingDocumentation r)).
  { destruct (familyOf (languageId document)); try congruence; apply Hb. }
  split.
  - intros E. rewrite E in Hdoc. now apply findExistingDocumentation_inv.
  - intros [a [b [Hblock ->]]].
    rewrite (findExistingDocumentation_block document Hs Hblock) in Hdoc.
    congruence.
Qed.

Lemma located_doc_block_witness :
  familyOf (languageId documented) <> PythonFamily /\
  exists r,
    findFunctionAtPosition documented (cursor 5) = Returned (Some r) /\
    startLine r = 4 /\
    existingDocumentation r = Some (joinLines (span (linesOf documented) 0 2)).
Proof.
  assert (Hf : familyOf (languageId documented) <> PythonFamily)
    by (vm_compute; discriminate).
  split; [exact Hf|].
  destruct (findFunctionAtPosition documented (cursor 5)) as [[r|]|] eqn:E;
    try (vm_compute in E; discriminate).
  exists r. split; [reflexivity|].
  assert (Hs : startLine r = 4) by (vm_compute in E; injection E as <-; reflexivity).
  split; [exact Hs|].
  apply (@located_doc_block documented (cursor 5) r Hf E). exists 0, 2.
  split; [|reflexivity]. rewrite Hs.
  split; [lia|]. split; [exists (lit "/**"); split; vm_compute; reflexivity|].
  split; [exists (lit " */"); split; vm_compute; reflexivity|]. split.
  - intros j l Hj El. assert (Hcases : j = 1 \/ j = 2) by lia.
    destruct Hcases as [-> | ->]; vm_compute in El; inversion El; subst l;
      vm_compute; reflexivity.
  - intros j l Hj El. assert (j = 3) by lia. subst j.
    vm_compute in El. inversion El; subst l. reflexivity.
Defined.

(** X11.  In every path, a documentation text carried by a record is not the empty
    string, so the callers' test for a missing documentation, which takes
    the empty string for missing, never discards a found one. *)
Theorem located_documentation_not_empty (document : TextDocument)
    (position : Position) (r : FunctionInfo) (doc : jsstring) :
  findFunctionAtPosition document position = Returned (Some r) ->
  existingDocumentation r = Some doc ->
  doc <> [].
Proof.
  intros H Edoc.
  destruct (@located_header _ _ _ H) as [hdr [m [Hw [Hl [Hm Hat]]]]].
  destruct (functionAt_matched document _ (startLine r) Hl Hm)
    as [r' [E' [_ [_ [_ Hb]]]]].
  assert (r' = r) by congruence. subst r'.
  assert (Hs : startLine r <= length (linesOf document)).
  { apply Nat.lt_le_incl. apply nth_error_Some. congruence. }
  assert (Hbrace : findExistingDocumentation document (startLine r)
                   = Returned (existingDocumentation r) -> doc <> []).
  { intros Hdoc. rewrite Edoc in Hdoc.
    apply findExistingDocumentation_inv in Hdoc; [|exact Hs].
    destruct Hdoc as [a [b [[Hab [[la [Ela Hla]] _]] ->]]].
    rewrite (@span_from (linesOf document) a b la Ela) by lia.
    apply joinLines_cons_nonempty.
    apply (@startsWith_nonempty (lit "/**")); [discriminate|exact Hla]. }
  destruct (familyOf (languageId document)); try (apply Hbrace, Hb).
  destruct Hb as [_ Hb]. rewrite Edoc in Hb. symmetry in Hb.
  apply findPythonDocstring_begins in Hb. destruct Hb as [next [tail [_ [_ Hne]]]].
  exact Hne.
Qed.

Lemma located_documentation_not_empty_witness :
  exists r doc,
    findFunctionAtPosition pyDocstring (cursor 4) = Returned (Some r) /\
    existingDocumentation r = Some doc /\
    doc <> [].
Proof.
  destruct (findFunctionAtPosition pyDocstring (cursor 4)) as [[r|]|] eqn:E;
    try (vm_compute in E; discriminate).
  destruct (existingDocumentation r) as [doc|] eqn:Ed;
    [|vm_compute in E; injection E as <-; discriminate].
  exists r, doc. split; [reflexivity|]. split; [exact Ed|].
  exact (@located_documentation_not_empty pyDocstring (cursor 4) r doc E Ed).
Defined.

(** * The formatters *)

(** ** Splitting, joining and trimming *)

Section SplitJoin.

Lemma splitLines_nonempty (s : jsstring) : splitLines s <> [].
Proof.
  destruct s as [|c r]; cbn [splitLines]; [discriminate|].
  destruct (c =? NL)%N; discriminate.
Qed.

Lemma joinLines_cons (l : jsstring) (ls : list jsstring) :
  ls <> [] -> joinLines (l :: ls) = l ++ NL :: joinLines ls.
Proof. destruct ls; [contradiction|reflexivity]. Qed.

Lemma joinLines_splitLines (s : jsstring) : joinLines (splitLines s) = s.
Proof.
  induction s as [|c r IH]; [reflexivity|].
  cbn [splitLines]. pose proof (splitLines_nonempty r) as Hne.
  destruct (c =? NL)%N eqn:E.
  - apply N.eqb_eq in E. subst c. rewrite joinLines_cons by exact Hne.
    now rewrite IH.
  - destruct (splitLines r) as [|l ls]; [contradiction|]. cbn [hd tl].
    destruct ls as [|l' ls].
    + unfold joinLines in *. now rewrite IH.
    + rewrite joinLines_cons by discriminate.
      rewrite joinLines_cons in IH by discriminate.
      cbn [app]. now rewrite IH.
Qed.

Lemma splitLines_app_NL (x y : jsstring) :
  splitLines (x ++ NL :: y) = splitLines x ++ splitLines y.
Proof.
  induction x as [|c r IH]; cbn [app splitLines].
  - rewrite N.eqb_refl. reflexivity.
  - rewrite IH. pose proof (splitLines_nonempty r) as Hne.
    destruct (c =? NL)%N; [reflexivity|].
    destruct (splitLines r) as [|l ls]; [contradiction|]. reflexivity.
Qed.

Lemma splitLines_one (s : jsstring) : ~ In NL s -> splitLines s = [s].
Proof.
  induction s as [|c r IH]; intros Hn; [reflexivity|].
  cbn [splitLines]. destruct (c =? NL)%N eqn:E.
  - apply N.eqb_eq in E. subst c. exfalso. apply Hn. now left.
  - rewrite IH; [reflexivity|]. intros Hin. apply Hn. now right.
Qed.

Lemma splitLines_free (s : jsstring) :
  Forall (fun l => ~ In NL l) (splitLines s).
Proof.
  induction s as [|c r IH]; cbn [splitLines].
  - constructor; [intros []|constructor].
  - pose proof (splitLines_nonempty r) as Hne.
    destruct (c =? NL)%N eqn:E.
    + constructor; [intros []|exact IH].
    + destruct (splitLines r) as [|l ls]; [contradiction|]. cbn [hd tl].
      inversion IH as [|? ? Hl Hls]; subst. constructor; [|exact Hls].
      intros [Hc|Hin]; [|now apply Hl].
      subst c. now rewrite N.eqb_refl in E.
Qed.

Lemma splitLines_joinLines (ls : list jsstring) :
  ls <> [] -> Forall (fun l => ~ In NL l) ls -> splitLines (joinLines ls) = ls.
Proof.
  induction ls as [|l ls IH]; intros Hne Hfree; [contradiction|].
  inversion Hfree as [|? ? Hl Hls]; subst. destruct ls as [|l' ls].
  - now apply splitLines_one.
  - rewrite joinLines_cons by discriminate. rewrite splitLines_app_NL.
    rewrite (splitLines_one _ Hl), IH by (discriminate || assumption). reflexivity.
Qed.

Lemma joinLines_app (xs ys : list jsstring) :
  xs <> [] -> ys <> [] ->
  joinLines (xs ++ ys) = joinLines xs ++ NL :: joinLines ys.
Proof.
  induction xs as [|x xs IH]; intros Hx Hy; [contradiction|].
  destruct xs as [|x' xs].
  - cbn [app]. now rewrite joinLines_cons.
  - cbn [app] in *. rewrite joinLines_cons by discriminate.
    rewrite IH by (discriminate || assumption).
    rewrite (joinLines_cons x) by discriminate. now rewrite <- app_assoc.
Qed.

Lemma trimStart_In (x : char) (s : jsstring) : In x (trimStart s) -> In x s.
Proof.
  induction s as [|c r IH]; cbn [trimStart]; [tauto|].
  destruct (isWhiteSpace c); [|tauto]. intros H. right. now apply IH.
Qed.

Lemma trim_In (x : char) (s : jsstring) : In x (trim s) -> In x s.
Proof.
  unfold trim, trimEnd. intros H. apply in_rev in H. apply trimStart_In in H.
  apply in_rev in H. now apply trimStart_In.
Qed.

Lemma trimStart_keeps (z : jsstring) (c : char) (w : jsstring) :
  isWhiteSpace c = false -> exists z', trimStart (z ++ c :: w) = z' ++ c :: w.
Proof.
  intros Hc. induction z as [|x z IH]; cbn [app trimStart].
  - rewrite Hc. now exists [].
  - destruct (isWhiteSpace x); [exact IH|]. now exists (x :: z).
Qed.

(** Trimming at the end leaves a prefix that ends with a code unit other
    than whitespace. *)
Lemma trimEnd_keeps (p : jsstring) (c : char) (y : jsstring) :
  isWhiteSpace c = false -> exists y', trimEnd (p ++ c :: y) = p ++ c :: y'.
Proof.
  intros Hc. unfold trimEnd. rewrite rev_app_distr. cbn [rev].
  rewrite <- app_assoc. cbn [app].
  destruct (@trimStart_keeps (rev y) c (rev p) Hc) as [z' Ez]. rewrite Ez.
  exists (rev z'). rewrite rev_app_distr. cbn [rev].
  rewrite rev_involutive, <- app_assoc. reflexivity.
Qed.

Lemma trimEnd_fixed (s : jsstring) (c : char) :
  isWhiteSpace c = false -> trimEnd (s ++ [c]) = s ++ [c].
Proof.
  intros Hc. unfold trimEnd. rewrite rev_app_distr. cbn [rev app trimStart].
  rewrite Hc. cbn [rev]. now rewrite rev_involutive.
Qed.

Lemma startsWith_app (p s : jsstring) : startsWith p (p ++ s) = true.
Proof.
  induction p as [|x p IH]; [now destruct s|].
  cbn [app]. unfold startsWith. fold startsWith. now rewrite N.eqb_refl, IH.
Qed.

Lemma endsWith_app (p s : jsstring) : endsWith p (s ++ p) = true.
Proof. unfold endsWith. rewrite rev_app_distr. apply startsWith_app. Qed.

Lemma startsWith_head (a b : char) (p s : jsstring) :
  a <> b -> startsWith (a :: p) (b :: s) = false.
Proof.
  intros Hab. unfold startsWith. fold startsWith.
  apply N.eqb_neq in Hab. now rewrite Hab.
Qed.

End SplitJoin.

(** ** The generic comment formatter *)

(** X12.  [formatGenericDocumentation] puts '// ' before every line and changes
    nothing else: the result has as many lines as the text, each line of the
    result is '// ' followed by the line of the text, and taking the first
    three code units off every line gives the text back. *)
Theorem generic_comment_round_trip (documentation : jsstring) :
  splitLines (DocumentationProvider.formatGenericDocumentation documentation)
    = map (fun line => lit "// " ++ line) (splitLines documentation) /\
  joinLines (map (skipn 3)
               (splitLines (DocumentationProvider.formatGenericDocumentation documentation)))
    = documentation.
Proof.
  assert (Hlines :
    splitLines (DocumentationProvider.formatGenericDocumentation documentation)
      = map (fun line => lit "// " ++ line) (splitLines documentation)).
  { unfold DocumentationProvider.formatGenericDocumentation.
    apply splitLines_joinLines.
    - pose proof (splitLines_nonempty documentation).
      destruct (splitLines documentation); [contradiction|discriminate].
    - apply Forall_map. eapply Forall_impl; [|apply splitLines_free].
      intros l Hl Hin. apply in_app_or in Hin as [Hin|Hin]; [|now apply Hl].
      vm_compute in Hin. intuition discriminate. }
  split; [exact Hlines|].
  rewrite Hlines, map_map.
  rewrite (map_ext (fun line => skipn 3 (lit "// " ++ line)) (fun line => line))
    by reflexivity.
  now rewrite map_id, joinLines_splitLines.
Qed.

(** ** A block of lines in a buffer *)

Section Blocks.

Variables pre block post : list jsstring.

Lemma nth_error_block (k : nat) :
  k < length block ->
  nth_error (pre ++ block ++ post) (length pre + k) = nth_error block k.
Proof.
  intros Hk. rewrite nth_error_app2 by lia.
  replace (length pre + k - length pre) with k by lia.
  now apply nth_error_app1.
Qed.

Lemma span_block :
  block <> [] ->
  span (pre ++ block ++ post) (length pre) (length pre + length block - 1) = block.
Proof.
  intros Hne. unfold span. rewrite skipn_app, skipn_all, Nat.sub_diag. cbn [skipn app].
  assert (0 < length block) by (destruct block; [contradiction|cbn; lia]).
  replace (length pre + length block - 1 + 1 - length pre) with (length block + 0) by lia.
  rewrite firstn_app_2. cbn [firstn]. apply app_nil_r.
Qed.

Lemma skipn_block : skipn (length pre) (pre ++ block ++ post) = block ++ post.
Proof. now rewrite skipn_app, skipn_all, Nat.sub_diag. Qed.

End Blocks.

(** ** The Python docstring formatter and the docstring finder *)

Lemma formatPythonDocstring_lines (documentation : jsstring) :
  splitLines (DocumentationProvider.formatPythonDocstring documentation)
    = [tripleDouble] ++ splitLines (trim documentation) ++ [tripleDouble].
Proof.
  unfold DocumentationProvider.formatPythonDocstring. cbn [app].
  change (tripleDouble ++ NL :: trim documentation ++ NL :: tripleDouble)
    with (tripleDouble ++ NL :: (trim documentation ++ NL :: tripleDouble)).
  rewrite !splitLines_app_NL. reflexivity.
Qed.

(** X13.  A docstring made by [formatPythonDocstring] and put right below a header
    line is read back whole by the docstring finder, provided no line of the
    trimmed text ends, after trimming, with three double quotes. *)
Theorem python_docstring_round_trip (documentation : jsstring)
    (document : TextDocument) (pre post : list jsstring) (hdr : jsstring) :
  closesNowhere tripleDouble (splitLines (trim documentation)) ->
  findPythonDocstring document (length pre)
    (pre ++ hdr :: splitLines (DocumentationProvider.formatPythonDocstring documentation)
         ++ post)
  = Some (DocumentationProvider.formatPythonDocstring documentation).
Proof.
  intros Hfree. rewrite formatPythonDocstring_lines.
  set (content := splitLines (trim documentation)) in *.
  set (lines := pre ++ hdr :: ([tripleDouble] ++ content ++ [tripleDouble]) ++ post).
  assert (Hskip : skipn (length pre) lines
                  = hdr :: tripleDouble :: content ++ tripleDouble :: post).
  { unfold lines. rewrite skipn_app, skipn_all, Nat.sub_diag. cbn [skipn app].
    now rewrite <- app_assoc. }
  assert (Hn : nth_error lines (length pre + 1) = Some tripleDouble).
  { rewrite <- nth_error_skipn, Hskip. reflexivity. }
  rewrite (findPythonDocstring_next document lines (length pre) Hn).
  change (startsWith tripleDouble (trim tripleDouble)) with true.
  change (closesOnSameLine tripleDouble) with false. cbn [orb].
  assert (Hrest : skipn (length pre + 2) lines = content ++ tripleDouble :: post).
  { replace (length pre + 2) with (2 + length pre) by lia.
    rewrite <- skipn_skipn, Hskip. reflexivity. }
  rewrite Hrest.
  rewrite (@collectDocstring_closed (content ++ tripleDouble :: post) tripleDouble
             [tripleDouble] (length content) tripleDouble).
  - f_equal. replace (S (length content)) with (length (content ++ [tripleDouble]))
      by (rewrite length_app; cbn; lia).
    change (content ++ tripleDouble :: post) with (content ++ [tripleDouble] ++ post).
    rewrite app_assoc, firstn_app, firstn_all, Nat.sub_diag. cbn [firstn].
    rewrite app_nil_r.
    transitivity (joinLines (splitLines
                    (DocumentationProvider.formatPythonDocstring documentation)));
      [|apply joinLines_splitLines].
    rewrite formatPythonDocstring_lines. reflexivity.
  - rewrite nth_error_app2 by lia. now rewrite Nat.sub_diag.
  - reflexivity.
  - intros m lm Hm Em. rewrite nth_error_app1 in Em by exact Hm.
    apply Hfree. now apply nth_error_In in Em.
Qed.

Lemma python_docstring_round_trip_witness :
  closesNowhere tripleDouble (splitLines (trim (lit "  Doubles x.  "))) /\
  findPythonDocstring pyAdd (length [lit "# module"])
    ([lit "# module"] ++ lit "def f(x):"
       :: splitLines (DocumentationProvider.formatPythonDocstring (lit "  Doubles x.  "))
       ++ [lit "    return 2 * x"])
  = Some (DocumentationProvider.formatPythonDocstring (lit "  Doubles x.  ")).
Proof.
  assert (Hfree : closesNowhere tripleDouble (splitLines (trim (lit "  Doubles x.  ")))).
  { intros l Hin. vm_compute in Hin. destruct Hin as [<-|[]]. vm_compute. reflexivity. }
  split; [exact Hfree|].
  exact (@python_docstring_round_trip (lit "  Doubles x.  ") pyAdd
           [lit "# module"] [lit "    return 2 * x"] (lit "def f(x):") Hfree).
Defined.

(** ** The comment formatters and the doc-comment finder *)

Section CommentBlocks.

Lemma opener_line (l : jsstring) :
  startsWith (lit "/**") (trim (lit "/** " ++ l)) = true.
Proof.
  destruct (@trimEnd_keeps [47; 42]%N 42%N (32%N :: l) eq_refl) as [y' E].
  unfold trim. change (trimStart (lit "/** " ++ l)) with (lit "/** " ++ l).
  set (t := trimEnd _).
  assert (Et : t = ([47; 42] ++ 42 :: y')%N) by exact E.
  rewrite Et. reflexivity.
Qed.

Lemma star_line (x : jsstring) :
  startsWith (lit "/**") (trim (lit " * " ++ x)) = false.
Proof.
  destruct (@trimEnd_keeps [] 42%N (32%N :: x) eq_refl) as [y' E].
  unfold trim. set (t := trimEnd _).
  assert (Et : t = ([] ++ 42 :: y')%N) by exact E.
  rewrite Et. reflexivity.
Qed.

Lemma closer_line (l : jsstring) :
  endsWith (lit "*/") (trim (lit " * " ++ l ++ lit " */")) = true.
Proof.
  unfold trim. set (t := trimStart _).
  assert (Et : t = ((42 :: 32 :: l ++ [32; 42]) ++ [47])%N).
  { transitivity (42 :: 32 :: l ++ [32; 42; 47])%N; [reflexivity|].
    cbn [app]. now rewrite <- app_assoc. }
  rewrite Et, trimEnd_fixed by reflexivity.
  match goal with
  | |- endsWith _ ?u = true =>
      replace u with ((42 :: 32 :: l ++ [32])%N ++ lit "*/")
        by (cbn [app]; rewrite <- !app_assoc; reflexivity)
  end.
  apply endsWith_app.
Qed.

(** A block made of an opener line, lines that open nothing and a closer
    line is the doc comment block right above the line that follows it. *)
Lemma block_is_doc_comment (pre post mid : list jsstring) (first last : jsstring) :
  startsWith (lit "/**") (trim first) = true ->
  endsWith (lit "*/") (trim last) = true ->
  Forall (fun l => startsWith (lit "/**") (trim l) = false) (mid ++ [last]) ->
  docBlockAbove (pre ++ (first :: mid ++ [last]) ++ post)
    (length pre + length (first :: mid ++ [last]))
    (length pre) (length pre + length (first :: mid ++ [last]) - 1).
Proof.
  intros Hfirst Hlast Hmid.
  set (block := first :: mid ++ [last]).
  assert (Hlen : length block = S (S (length mid)))
    by (unfold block; cbn [length]; rewrite length_app; cbn; lia).
  split; [lia|]. split; [|split; [|split]].
  - exists first. split; [|exact Hfirst].
    replace (length pre) with (length pre + 0) at 1 by lia.
    rewrite nth_error_block by lia. reflexivity.
  - exists last. split; [|exact Hlast].
    replace (length pre + length block - 1) with (length pre + S (length mid)) by lia.
    rewrite nth_error_block by lia. unfold block. cbn [nth_error].
    rewrite nth_error_app2 by lia. now rewrite Nat.sub_diag.
  - intros j l Hj El.
    replace j with (length pre + S (j - length pre - 1)) in El by lia.
    rewrite nth_error_block in El by lia. unfold block in El. cbn [nth_error] in El.
    rewrite Forall_forall in Hmid. apply Hmid. now apply nth_error_In in El.
  - intros j l Hj. lia.
Qed.

Lemma decorate_length (ls : list jsstring) (i n : nat) :
  length (DocumentationProvider.decorate ls i n) = length ls.
Proof.
  revert i. induction ls as [|l ls IH]; intros i; cbn; [reflexivity|].
  now rewrite IH.
Qed.

Lemma decorate_free (ls : list jsstring) (i n : nat) :
  Forall (fun l => ~ In NL l) ls ->
  Forall (fun l => ~ In NL l) (DocumentationProvider.decorate ls i n).
Proof.
  intros H. revert i. induction H as [|l ls Hl _ IH]; intros i;
    cbn [DocumentationProvider.decorate]; constructor; [|apply IH].
  intros Hin. destruct (i =? 0); [|destruct (i =? n - 1)];
    repeat (apply in_app_or in Hin as [Hin|Hin]);
    try (now apply Hl); vm_compute in Hin; intuition discriminate.
Qed.

(** Below the first line every decorated line begins with ' * ', and the
    last one ends with ' */'. *)
Lemma decorate_below (ls : list jsstring) (i n : nat) :
  1 <= i -> ls <> [] -> i + length ls = n ->
  exists mid l,
    DocumentationProvider.decorate ls i n = mid ++ [lit " * " ++ l ++ lit " */"] /\
    Forall (fun d => exists x, d = lit " * " ++ x) mid.
Proof.
  revert i. induction ls as [|l ls IH]; intros i Hi Hne Hn; [contradiction|].
  cbn [DocumentationProvider.decorate].
  replace (i =? 0) with false by (symmetry; apply Nat.eqb_neq; lia).
  destruct ls as [|l' ls].
  - cbn [length] in Hn. replace (i =? n - 1) with true
      by (symmetry; apply Nat.eqb_eq; lia).
    exists [], l. split; [reflexivity|constructor].
  - replace (i =? n - 1) with false
      by (symmetry; apply Nat.eqb_neq; cbn [length] in Hn; lia).
    destruct (IH (S i)) as [mid [lz [E F]]];
      [lia|discriminate|cbn [length] in *; lia|].
    exists ((lit " * " ++ l) :: mid), lz. rewrite E. split; [reflexivity|].
    constructor; [now exists l|exact F].
Qed.

Lemma splitLines_two (s : jsstring) : In NL s -> 2 <= length (splitLines s).
Proof.
  intros Hin. apply in_split in Hin as [x [y ->]].
  rewrite splitLines_app_NL, length_app.
  pose proof (splitLines_nonempty x). pose proof (splitLines_nonempty y).
  destruct (splitLines x), (splitLines y); try contradiction. cbn. lia.
Qed.

End CommentBlocks.

(** X14.  A comment made by the JSDoc or JavaDoc formatter from a text whose
    cleaned form has at least two lines is, wherever its lines stand in a
    buffer, the doc comment block the finder returns for the line that
    follows it.  (A one-line text only gets the opener: the first-line case
    of the formatter comes before the last-line case.) *)
Theorem provider_comment_round_trip (documentation language : jsstring)
    (document : TextDocument) (pre post : list jsstring) :
  isLanguage language
    ["javascript"; "typescript"; "javascriptreact"; "typescriptreact"]%string = true
  \/ language = lit "java" \/ language = lit "csharp" ->
  In NL (trim (removeAll docDelimiters documentation)) ->
  linesOf document =
    pre ++ splitLines (DocumentationProvider.formatDocumentation documentation language)
        ++ post ->
  findExistingDocumentation document
    (length pre
     + length (splitLines (DocumentationProvider.formatDocumentation documentation language)))
  = Returned (Some (DocumentationProvider.formatDocumentation documentation language)).
Proof.
  intros Hlang Htwo Hlines.
  set (cleaned := trim (removeAll docDelimiters documentation)) in *.
  set (block := DocumentationProvider.decorate (splitLines cleaned) 0
                  (length (splitLines cleaned))).
  assert (Htext : DocumentationProvider.formatDocumentation documentation language
                  = joinLines block).
  { unfold DocumentationProvider.formatDocumentation.
    destruct Hlang as [Hjs | [-> | ->]]; [now rewrite Hjs|reflexivity|reflexivity]. }
  rewrite Htext in *.
  pose proof (splitLines_two _ Htwo) as Hlen.
  assert (Hsplit : splitLines (joinLines block) = block).
  { apply splitLines_joinLines.
    - intros E. apply (f_equal (@length jsstring)) in E.
      unfold block in E. rewrite decorate_length in E. cbn in E. lia.
    - apply decorate_free, splitLines_free. }
  rewrite Hsplit in *.
  destruct (splitLines cleaned) as [|l0 ls] eqn:Els; [cbn in Hlen; lia|].
  destruct (@decorate_below ls 1 (length (l0 :: ls))) as [mid [lz [E F]]];
    [lia|intros ->; cbn in Hlen; lia|cbn; lia|].
  assert (Hblock : block = (lit "/** " ++ l0) :: mid ++ [lit " * " ++ lz ++ lit " */"]).
  { unfold block. cbn [DocumentationProvider.decorate Nat.eqb]. now rewrite E. }
  assert (Hs : length pre + length block <= length (linesOf document)).
  { rewrite Hlines, !length_app. lia. }
  rewrite (@findExistingDocumentation_block document (length pre + length block)
             (length pre) (length pre + length block - 1) Hs).
  - rewrite Hlines, span_block; [reflexivity|]. rewrite Hblock. discriminate.
  - rewrite Hlines, Hblock. apply block_is_doc_comment.
    + apply opener_line.
    + apply closer_line.
    + apply Forall_app. split.
      * eapply Forall_impl; [|exact F]. intros d [x ->]. apply star_line.
      * constructor; [apply star_line|constructor].
Qed.

Lemma provider_comment_round_trip_witness :
  In NL (trim (removeAll docDelimiters (lit "Adds." ++ [NL] ++ lit "@returns sum"))) /\
  splitLines (DocumentationProvider.formatDocumentation
                (lit "Adds." ++ [NL] ++ lit "@returns sum") (lit "java"))
    = map lit ["/** Adds."; " * @returns sum */"]%string /\
  findExistingDocumentation
    (buffer ["/** Adds."; " * @returns sum */"; "int add(int a, int b) {"; "}"]%string "java")
    (length (@nil jsstring)
     + length (splitLines (DocumentationProvider.formatDocumentation
                             (lit "Adds." ++ [NL] ++ lit "@returns sum") (lit "java"))))
  = Returned (Some (DocumentationProvider.formatDocumentation
                      (lit "Adds." ++ [NL] ++ lit "@returns sum") (lit "java"))).
Proof.
  assert (Htwo : In NL (trim (removeAll docDelimiters
                                (lit "Adds." ++ [NL] ++ lit "@returns sum")))).
  { vm_compute. do 5 right. now left. }
  split; [exact Htwo|]. split; [vm_compute; reflexivity|].
  apply (@provider_comment_round_trip (lit "Adds." ++ [NL] ++ lit "@returns sum")
           (lit "java") _ [] (map lit ["int add(int a, int b) {"; "}"]%string)).
  - right. now left.
  - exact Htwo.
  - vm_compute. reflexivity.
Defined.

Lemma extension_comment_lines (documentation language : jsstring) :
  isLanguage language
    ["typescript"; "javascript"; "javascriptreact"; "typescriptreact"]%string = true ->
  exists mid,
    Forall (fun d => exists x, d = lit " * " ++ x) mid /\
    Forall (fun l => ~ In NL l) mid /\
    Extension.formatDocumentation documentation language
      = joinLines ((lit "/**" :: mid ++ [lit " */"]) ++ [[]]).
Proof.
  intros Hjs. unfold Extension.formatDocumentation. rewrite Hjs.
  set (ls := splitLines (Extension.cleanupDocumentation documentation)).
  exists (map (fun line => lit " * " ++ line) (map trim ls)). split; [|split].
  - apply Forall_map, Forall_map, Forall_forall. intros l _. now exists (trim l).
  - apply Forall_map, Forall_map. eapply Forall_impl; [|apply splitLines_free].
    intros l Hl Hin. apply in_app_or in Hin as [Hin|Hin].
    + vm_compute in Hin. intuition discriminate.
    + apply Hl. now apply trim_In.
  - cbn [app]. now rewrite <- app_assoc.
Qed.

(** X15.  For the JS/TS tags, the text the extension inserts is a doc comment
    followed by a newline, whatever the answer of the model was: it is the
    lines it adds to the buffer, joined, plus a final newline, and for the
    line that follows these lines the doc-comment finder returns exactly
    them.  So a comment written by the generate command is found again by
    the update command. *)
Theorem extension_comment_round_trip (documentation language : jsstring)
    (document : TextDocument) (pre post : list jsstring) :
  isLanguage language
    ["typescript"; "javascript"; "javascriptreact"; "typescriptreact"]%string = true ->
  linesOf document =
    pre ++ insertedLines (Extension.formatDocumentation documentation language) ++ post ->
  Extension.formatDocumentation documentation language
    = joinLines (insertedLines (Extension.formatDocumentation documentation language))
      ++ [NL] /\
  findExistingDocumentation document
    (length pre
     + length (insertedLines (Extension.formatDocumentation documentation language)))
  = Returned (Some (joinLines
                      (insertedLines (Extension.formatDocumentation documentation language)))).
Proof.
  intros Hjs Hlines.
  destruct (extension_comment_lines documentation language Hjs)
    as [mid [Hstar [Hfree Htext]]].
  set (block := lit "/**" :: mid ++ [lit " */"]) in *.
  assert (Hins : insertedLines (Extension.formatDocumentation documentation language)
                 = block).
  { unfold insertedLines. rewrite Htext, splitLines_joinLines.
    - apply removelast_last.
    - unfold block. discriminate.
    - apply Forall_app. split; [|constructor; [intros []|constructor]].
      unfold block. constructor; [vm_compute; intuition discriminate|].
      apply Forall_app. split; [exact Hfree|].
      constructor; [vm_compute; intuition discriminate|constructor]. }
  rewrite Hins in *. split.
  - rewrite Htext, joinLines_app by (unfold block; discriminate). reflexivity.
  - assert (Hs : length pre + length block <= length (linesOf document)).
    { rewrite Hlines, !length_app. lia. }
    rewrite (@findExistingDocumentation_block document (length pre + length block)
               (length pre) (length pre + length block - 1) Hs).
    + rewrite Hlines, span_block; [reflexivity|]. unfold block. discriminate.
    + rewrite Hlines. unfold block. apply block_is_doc_comment.
      * reflexivity.
      * reflexivity.
      * apply Forall_app. split.
        -- eapply Forall_impl; [|exact Hstar]. intros d [x ->]. apply star_line.
        -- constructor; [reflexivity|constructor].
Qed.

Lemma extension_comment_round_trip_witness :
  insertedLines (Extension.formatDocumentation (lit "Adds two numbers.") (lit "javascript"))
    = map lit ["/**"; " * Adds two numbers."; " */"]%string /\
  findExistingDocumentation
    (buffer ["/**"; " * Adds two numbers."; " */"; "function add(a, b) {"; "}"]%string
       "javascript")
    (length (@nil jsstring)
     + length (insertedLines
                 (Extension.formatDocumentation (lit "Adds two numbers.") (lit "javascript"))))
  = Returned (Some (joinLines
                      (insertedLines
                         (Extension.formatDocumentation (lit "Adds two numbers.")
                            (lit "javascript"))))).
Proof.
  split; [vm_compute; reflexivity|].
  apply (@extension_comment_round_trip (lit "Adds two numbers.") (lit "javascript")
           _ [] (map lit ["function add(a, b) {"; "}"]%string)).
  - vm_compute. reflexivity.
  - vm_compute. reflexivity.
Defined.

(** ** The aggregated context *)

Section Aggregation.

Variable basename : jsstring -> jsstring.

Lemma trimStart_length (s : jsstring) : length (trimStart s) <= length s.
Proof.
  induction s as [|c r IH]; cbn [trimStart length]; [lia|].
  destruct (isWhiteSpace c); cbn [length]; lia.
Qed.

Lemma trim_length (s : jsstring) : length (trim s) <= length s.
Proof.
  unfold trim, trimEnd. rewrite length_rev.
  etransitivity; [apply trimStart_length|]. rewrite length_rev.
  apply trimStart_length.
Qed.

Lemma references_cons (entry : jsstring * jsstring) (rest : list (jsstring * jsstring)) :
  references basename (entry :: rest)
  = RAGSystem.contextWithReference basename (fst entry) (snd entry)
    ++ references basename rest.
Proof. reflexivity. Qed.

Lemma references_app (a b : list (jsstring * jsstring)) :
  references basename (a ++ b) = references basename a ++ references basename b.
Proof. unfold references. now rewrite map_app, concat_app. Qed.

Lemma aggregateEntries_bound (entries : list (jsstring * jsstring)) :
  forall acc, length acc <= RAGSystem.maxContextLength ->
  length (RAGSystem.aggregateEntries basename entries acc)
  <= RAGSystem.maxContextLength.
Proof.
  induction entries as [|[filePath context] rest IH]; intros acc Hacc;
    cbn [RAGSystem.aggregateEntries]; [exact Hacc|].
  destruct (_ <? _) eqn:E; [exact Hacc|].
  apply IH. now apply Nat.ltb_ge in E.
Qed.

Lemma aggregateEntries_whole (entries : list (jsstring * jsstring)) :
  forall acc,
  length (acc ++ references basename entries) <= RAGSystem.maxContextLength ->
  RAGSystem.aggregateEntries basename entries acc
  = acc ++ references basename entries.
Proof.
  induction entries as [|[filePath context] rest IH]; intros acc H;
    cbn [RAGSystem.aggregateEntries].
  - unfold references. cbn [map concat]. now rewrite app_nil_r.
  - rewrite references_cons in H |- *. cbn [fst snd] in H |- *.
    rewrite app_assoc in H |- *.
    destruct (_ <? _) eqn:E.
    + apply Nat.ltb_lt in E. rewrite length_app in H. lia.
    + now apply IH.
Qed.

Lemma aggregateEntries_cut (pre : list (jsstring * jsstring))
    (entry : jsstring * jsstring) (post : list (jsstring * jsstring)) :
  forall acc,
  RAGSystem.maxContextLength
  < length (acc ++ references basename (pre ++ [entry])) ->
  length (acc ++ references basename pre) <= RAGSystem.maxContextLength ->
  RAGSystem.aggregateEntries basename (pre ++ entry :: post) acc
  = acc ++ references basename pre.
Proof.
  induction pre as [|[filePath context] rest IH]; intros acc Hover Hfits.
  - destruct entry as [filePath context].
    cbn [app RAGSystem.aggregateEntries].
    unfold references in Hover |- *. cbn [app map concat fst snd] in Hover |- *.
    rewrite app_nil_r in Hover |- *.
    destruct (_ <? _) eqn:E; [reflexivity|].
    apply Nat.ltb_ge in E. lia.
  - cbn [app RAGSystem.aggregateEntries].
    rewrite <- app_comm_cons, references_cons in Hover.
    rewrite references_cons in Hfits |- *. cbn [fst snd] in Hover, Hfits |- *.
    rewrite app_assoc in Hover, Hfits |- *.
    destruct (_ <? _) eqn:E.
    + apply Nat.ltb_lt in E. rewrite length_app in Hfits. lia.
    + now apply IH.
Qed.

End Aggregation.

(** X16.  Whatever the cache holds and whatever [path.basename] returns,
    the aggregated context is at most 2000 code units long. *)
Theorem aggregated_context_bounded (basename : jsstring -> jsstring)
    (cache : list (jsstring * jsstring)) :
  length (RAGSystem.aggregateContext basename cache) <= 2000.
Proof.
  unfold RAGSystem.aggregateContext.
  etransitivity; [apply trim_length|].
  apply (@aggregateEntries_bound basename cache []). cbn. lia.
Qed.

(** X17.  When the references of all cache entries together fit in 2000
    code units, the aggregated context is their concatenation, in the order
    of the cache, trimmed. *)
Theorem aggregated_context_whole (basename : jsstring -> jsstring)
    (cache : list (jsstring * jsstring)) :
  length (references basename cache) <= 2000 ->
  RAGSystem.aggregateContext basename cache = trim (references basename cache).
Proof.
  intros H. unfold RAGSystem.aggregateContext.
  now rewrite (@aggregateEntries_whole basename cache []).
Qed.

Lemma aggregated_context_whole_witness :
  RAGSystem.aggregateContext lastComponent
    [(lit "/src/a.ts", lit "function f() {"); (lit "/src/b.ts", lit "class B {")]
  = lit "// Context from a.ts:
function f() {

// Context from b.ts:
class B {".
Proof.
  rewrite (@aggregated_context_whole lastComponent
             [(lit "/src/a.ts", lit "function f() {"); (lit "/src/b.ts", lit "class B {")]).
  - vm_compute. reflexivity.
  - vm_compute. lia.
Defined.

(** X18.  The aggregation stops for good at the first cache entry that
    does not fit: the entries before it make up the result and no later
    entry is looked at, even one that would fit. *)
Theorem aggregated_context_cut (basename : jsstring -> jsstring)
    (pre : list (jsstring * jsstring)) (entry : jsstring * jsstring)
    (post : list (jsstring * jsstring)) :
  length (references basename pre) <= 2000 ->
  2000 < length (references basename (pre ++ [entry])) ->
  RAGSystem.aggregateContext basename (pre ++ entry :: post)
  = trim (references basename pre).
Proof.
  intros Hfits Hover. unfold RAGSystem.aggregateContext.
  now rewrite (@aggregateEntries_cut basename pre entry post []).
Qed.

Lemma aggregated_context_cut_witness :
  RAGSystem.aggregateContext lastComponent oversizedFirst = [].
Proof.
  refine (@aggregated_context_cut lastComponent []
            (lit "/src/big.ts", repeat 120%N 2000)
            [(lit "/src/small.ts", lit "f() {")] _ _).
  - vm_compute. lia.
  - vm_compute. lia.
Defined.

(** ** The project structure *)

Section ProjectStructure.

Variable readdirSync : jsstring -> outcome (list jsstring).
Variable statIsDirectory : jsstring -> outcome bool.
Variable pathJoin : jsstring -> jsstring -> jsstring.

Lemma readDirectorySync_shown (dirPath entry : jsstring) :
  In entry (ContextExtractor.readDirectorySync readdirSync dirPath) ->
  ContextExtractor.shown entry = true.
Proof.
  unfold ContextExtractor.readDirectorySync.
  destruct (readdirSync dirPath) as [entries|]; [|intros []].
  intros H. now apply filter_In in H.
Qed.

End ProjectStructure.

(** X19.  Whatever the file system answers, every item of the project
    structure is named after an entry that is neither hidden nor
    'node_modules', lists at most five children, all of them neither hidden
    nor 'node_modules', and lists none when it is not a directory (or its
    stats cannot be read). *)
Theorem project_structure_items
    (readdirSync : jsstring -> outcome (list jsstring))
    (statIsDirectory : jsstring -> outcome bool)
    (pathJoin : jsstring -> jsstring -> jsstring)
    (rootPath : jsstring) (item : ContextExtractor.ProjectStructureItem) :
  In item (ContextExtractor.mapProjectStructure readdirSync statIsDirectory
             pathJoin rootPath) ->
  ContextExtractor.shown (ContextExtractor.itemName item) = true
  /\ length (ContextExtractor.children item) <= 5
  /\ (forall child, In child (ContextExtractor.children item) ->
        ContextExtractor.shown child = true)
  /\ (statIsDirectory (pathJoin rootPath (ContextExtractor.itemName item))
      <> Returned true ->
      ContextExtractor.isDirectoryItem item = false
      /\ ContextExtractor.children item = []).
Proof.
  unfold ContextExtractor.mapProjectStructure. intros H.
  apply in_map_iff in H. destruct H as [entry [E Hin]]. subst item.
  cbn [ContextExtractor.itemName ContextExtractor.children
       ContextExtractor.isDirectoryItem].
  split; [now apply readDirectorySync_shown with readdirSync rootPath|].
  unfold ContextExtractor.getFileStats.
  destruct (statIsDirectory (pathJoin rootPath entry)) as [[|]|].
  - split; [apply firstn_le_length|]. split.
    + intros child Hc.
      assert (Hc' : In child (ContextExtractor.readDirectorySync readdirSync
                                (pathJoin rootPath entry))).
      { rewrite <- (firstn_skipn 5). apply in_or_app. now left. }
      now apply readDirectorySync_shown with readdirSync (pathJoin rootPath entry).
    + intros N. now contradiction N.
  - cbn [length]. repeat split; try lia. intros child [].
  - cbn [length]. repeat split; try lia. intros child [].
Qed.

Lemma project_structure_items_witness :
  ContextExtractor.shown (ContextExtractor.itemName sampleItem) = true
  /\ length (ContextExtractor.children sampleItem) <= 5.
Proof.
  destruct (@project_structure_items sampleReaddir sampleIsDirectory sampleJoin
              (lit "/w") sampleItem) as [H1 [H2 _]].
  - vm_compute. left. reflexivity.
  - split; assumption.
Defined.
